(** * LightZero policy utilities ([lzero/policy/utils.py]): a shallow embedding

    The Python helpers of [lzero/policy/utils.py] are modelled as Rocq
    functions.  Exceptions are values of a result type, NumPy arrays and
    Torch tensors are a shape together with a row-major buffer, IEEE-754
    numbers are the [spec_float] of the Standard Library (binary32 for
    Torch float tensors, binary64 for NumPy scalars), Python sets of names
    are [gset string].

    The first part holds the definitions, the second part the properties. *)

From Stdlib Require Import ZArith List String Ascii Lia Reals Lra.
From Stdlib Require Import Floats.SpecFloat.
From stdpp Require Import gmap strings list.

Set Warnings "-clear-no-such-hyp,-register-all".

(* ===================================================================== *)
(** * Part I: definitions                                                 *)
(* ===================================================================== *)

(** ** Python exceptions and results *)

Inductive exn :=
| IndexError
| UnboundLocalError
| ZeroDivisionError
| ValueError
| KeyError
| AssertionError
| RuntimeError.

Inductive result (A : Type) :=
| Ok (a : A)
| Raise (e : exn).
Arguments Ok {A} a.
Arguments Raise {A} e.

#[global] Instance result_ret : MRet result := fun A a => Ok a.

#[global] Instance result_bind : MBind result := fun A B k r =>
  match r with
  | Ok a => k a
  | Raise e => Raise e
  end.

Definition raises {A} (r : result A) : Prop := exists e, r = Raise e.

(** ** IEEE-754 formats *)

(** Round an integer, and a finite binary float of any format, to the
    nearest binary32 (ties to even), as [.float()] does. *)
Definition f32_of_Z (z : Z) : spec_float :=
  binary_normalize 24%Z 128%Z z 0%Z false.

Definition f32_of_float (x : spec_float) : spec_float :=
  match x with
  | S754_finite s m e => binary_round 24%Z 128%Z s m e
  | _ => x
  end.

(** ** NumPy arrays and Torch tensors *)

(** The buffer of an array, tagged with its dtype.  Four dtypes stand for
    the ones [torch.from_numpy] accepts. *)
Inductive np_buffer :=
| Int64Buf (l : list Z)
| UInt8Buf (l : list Z)
| Float32Buf (l : list spec_float)
| Float64Buf (l : list spec_float).

Record ndarray := { np_shape : list nat; np_data : np_buffer }.

Inductive torch_device := cpu | cuda (index : nat).

Record tensor := {
  t_shape : list nat;
  t_data : np_buffer;
  t_device : torch_device;
  t_requires_grad : bool
}.

Definition buf_length (b : np_buffer) : nat :=
  match b with
  | Int64Buf l | UInt8Buf l => length l
  | Float32Buf l | Float64Buf l => length l
  end.

(** A dtype-preserving rearrangement of the elements of a buffer. *)
Definition buf_map (f : forall A, list A -> list A) (b : np_buffer) : np_buffer :=
  match b with
  | Int64Buf l => Int64Buf (f _ l)
  | UInt8Buf l => UInt8Buf (f _ l)
  | Float32Buf l => Float32Buf (f _ l)
  | Float64Buf l => Float64Buf (f _ l)
  end.

Definition prod_shape (s : list nat) : nat := fold_right Nat.mul 1 s.

Definition wf_ndarray (x : ndarray) : Prop :=
  buf_length (np_data x) = prod_shape (np_shape x).

Definition wf_tensor (t : tensor) : Prop :=
  buf_length (t_data t) = prod_shape (t_shape t).

(** [torch.from_numpy(x)]: same shape, dtype and elements, on the host. *)
Definition from_numpy (x : ndarray) : tensor :=
  {| t_shape := np_shape x; t_data := np_data x;
     t_device := cpu; t_requires_grad := false |}.

(** [t.to(device)] *)
Definition to_device (t : tensor) (d : torch_device) : tensor :=
  {| t_shape := t_shape t; t_data := t_data t;
     t_device := d; t_requires_grad := t_requires_grad t |}.

(** [t.float()]: cast every element to float32. *)
Definition buf_float (b : np_buffer) : np_buffer :=
  match b with
  | Int64Buf l | UInt8Buf l => Float32Buf (map f32_of_Z l)
  | Float32Buf l => Float32Buf l
  | Float64Buf l => Float32Buf (map f32_of_float l)
  end.

Definition float_ (t : tensor) : tensor :=
  {| t_shape := t_shape t; t_data := buf_float (t_data t);
     t_device := t_device t; t_requires_grad := t_requires_grad t |}.

(** [t.detach()], [t.cpu()], [t.numpy()] *)
Definition detach (t : tensor) : tensor :=
  {| t_shape := t_shape t; t_data := t_data t;
     t_device := t_device t; t_requires_grad := false |}.

Definition cpu_ (t : tensor) : tensor := to_device t cpu.

Definition numpy (t : tensor) : result ndarray :=
  if t_requires_grad t then Raise RuntimeError
  else match t_device t with
       | cpu => Ok {| np_shape := t_shape t; np_data := t_data t |}
       | cuda _ => Raise RuntimeError
       end.

(** ** Python slicing *)

(** One bound of a slice with step 1 on a sequence of length [len]:
    negative bounds count from the end, then the bound is clipped. *)
Definition py_slice_index (len i : Z) : Z :=
  let i := if (i <? 0)%Z then (i + len)%Z else i in
  if (i <? 0)%Z then 0%Z else if (len <? i)%Z then len else i.

(** [slice_range len start stop] is the first index and the number of
    indices selected by [start:stop]; [None] is an omitted bound. *)
Definition slice_range (len : nat) (start stop : option Z) : nat * nat :=
  let lo := match start with
            | None => 0%Z
            | Some i => py_slice_index (Z.of_nat len) i
            end in
  let hi := match stop with
            | None => Z.of_nat len
            | Some i => py_slice_index (Z.of_nat len) i
            end in
  (Z.to_nat lo, Z.to_nat (hi - lo)%Z).

(** The elements of [x[:, lo:lo+n]] for a row-major buffer of shape
    [b :: s :: rest], where [inner] is the number of elements in [rest]. *)
Definition slice_rows {A} (b s inner lo n : nat) (data : list A) : list A :=
  flat_map (fun i => firstn (n * inner) (skipn ((i * s + lo) * inner) data))
           (seq 0 b).

(** [t[:, start:stop, :, ...]] written with [nidx] subscripts in all.
    Torch refuses more subscripts than the tensor has axes. *)
Definition getitem_axis1 (nidx : nat) (start stop : option Z) (t : tensor)
  : result tensor :=
  if length (t_shape t) <? nidx then Raise IndexError
  else match t_shape t with
       | b :: s :: rest =>
           let '(lo, n) := slice_range s start stop in
           Ok {| t_shape := b :: n :: rest;
                 t_data := buf_map (fun A => slice_rows b s (prod_shape rest) lo n)
                                   (t_data t);
                 t_device := t_device t;
                 t_requires_grad := t_requires_grad t |}
       | _ => Raise IndexError
       end.

(** ** [prepare_obs] *)

Record model_config := {
  model_type : string;
  frame_stack_num : Z;
  image_channel : Z;
  observation_shape : Z;
  self_supervised_learning_loss : bool
}.

Record config := { model : model_config; device : torch_device }.

Definition prepare_obs (obs_batch_ori : ndarray) (cfg : config)
  : result (tensor * option tensor) :=
  let obs_target_batch : option tensor := None in
  if String.eqb (model_type (model cfg)) "conv" then
    let obs_batch_ori := float_ (to_device (from_numpy obs_batch_ori) (device cfg)) in
    obs_batch ← getitem_axis1 4 (Some 0%Z)
                   (Some (frame_stack_num (model cfg) * image_channel (model cfg))%Z)
                   obs_batch_ori;
    if self_supervised_learning_loss (model cfg) then
      tgt ← getitem_axis1 4 (Some (image_channel (model cfg))) None obs_batch_ori;
      Ok (obs_batch, Some tgt)
    else Ok (obs_batch, obs_target_batch)
  else if String.eqb (model_type (model cfg)) "mlp" then
    let obs_batch_ori := float_ (to_device (from_numpy obs_batch_ori) (device cfg)) in
    obs_batch ← getitem_axis1 2 (Some 0%Z)
                   (Some (frame_stack_num (model cfg) * observation_shape (model cfg))%Z)
                   obs_batch_ori;
    if self_supervised_learning_loss (model cfg) then
      tgt ← getitem_axis1 2 (Some (observation_shape (model cfg))) None obs_batch_ori;
      Ok (obs_batch, Some tgt)
    else Ok (obs_batch, obs_target_batch)
  else
    (* [obs_batch] was never assigned *)
    Raise UnboundLocalError.

(** The element at a multi-index of a row-major buffer. *)
Fixpoint flat_index (shape idx : list nat) : nat :=
  match shape, idx with
  | _ :: srest, i :: irest => i * prod_shape srest + flat_index srest irest
  | _, _ => 0
  end.

Definition buf_nth_float (b : np_buffer) (i : nat) : option spec_float :=
  match b with
  | Float32Buf l | Float64Buf l => l !! i
  | _ => None
  end.

Definition item (t : tensor) (idx : list nat) : option spec_float :=
  buf_nth_float (t_data t) (flat_index (t_shape t) idx).

(** Configurations used in the statements. *)
Definition obs_cfg (mode : string) (fs unit : Z) (ssl : bool) (d : torch_device)
  : config :=
  {| model := {| model_type := mode; frame_stack_num := fs;
                 image_channel := unit; observation_shape := unit;
                 self_supervised_learning_loss := ssl |};
     device := d |}.

Definition with_consistency_loss (cfg : config) (flag : bool) : config :=
  {| model := {| model_type := model_type (model cfg);
                 frame_stack_num := frame_stack_num (model cfg);
                 image_channel := image_channel (model cfg);
                 observation_shape := observation_shape (model cfg);
                 self_supervised_learning_loss := flag |};
     device := device cfg |}.

(** The float tensor [prepare_obs] slices. *)
Definition obs_float (x : ndarray) (cfg : config) : tensor :=
  float_ (to_device (from_numpy x) (device cfg)).

(** The number of subscripts and the per-timestep unit size of each mode. *)
Definition mode_layout (cfg : config) : option (nat * Z) :=
  if String.eqb (model_type (model cfg)) "conv"
  then Some (4, image_channel (model cfg))
  else if String.eqb (model_type (model cfg)) "mlp"
  then Some (2, observation_shape (model cfg))
  else None.

(** An input batch the mode accepts: enough axes for the subscripts. *)
Definition valid_obs (x : ndarray) (cfg : config) : Prop :=
  exists nidx unit, mode_layout cfg = Some (nidx, unit) /\ nidx <= length (np_shape x).

(** ** [to_torch_float_tensor] and [to_detach_cpu_numpy] *)

Definition to_torch_float_tensor (data_list : list ndarray) (device : torch_device)
  : list tensor :=
  fold_left
    (fun output_data_list data =>
       output_data_list ++ [float_ (to_device (from_numpy data) device)])
    data_list [].

Definition to_detach_cpu_numpy (data_list : list tensor) : result (list ndarray) :=
  fold_left
    (fun acc data =>
       output_data_list ← acc;
       a ← numpy (cpu_ (detach data));
       Ok (output_data_list ++ [a]))
    data_list (Ok []).

(** *** Reproducing an array exactly, up to the dtype

    The value of a finite float is [±m * 2^e]; two numbers of different
    formats are the same number when these values agree. *)
Definition same_value_float (a b : spec_float) : bool :=
  match a, b with
  | S754_zero s1, S754_zero s2 => Bool.eqb s1 s2
  | S754_infinity s1, S754_infinity s2 => Bool.eqb s1 s2
  | S754_nan, S754_nan => true
  | S754_finite s1 m1 e1, S754_finite s2 m2 e2 =>
      Bool.eqb s1 s2 &&
      (Zpos m1 * 2 ^ (e1 - Z.min e1 e2) =? Zpos m2 * 2 ^ (e2 - Z.min e1 e2))%Z
  | _, _ => false
  end.

Definition same_value_Z (z : Z) (f : spec_float) : bool :=
  match f with
  | S754_zero _ => (z =? 0)%Z
  | S754_finite s m e =>
      if (0 <=? e)%Z then (z =? cond_Zopp s (Zpos m) * 2 ^ e)%Z
      else (z * 2 ^ (- e) =? cond_Zopp s (Zpos m))%Z
  | _ => false
  end.

(** [reproduces x y]: [y] has the shape of [x] and holds the same numbers,
    bit for bit when both are float32, and as exact values when [y] is the
    float32 version of an array of another dtype. *)
Definition reproduces (x y : ndarray) : Prop :=
  np_shape y = np_shape x /\
  match np_data x, np_data y with
  | Float32Buf l, Float32Buf l' => l = l'
  | Float64Buf l, Float32Buf l' =>
      Forall2 (fun a b => same_value_float a b = true) l l'
  | Int64Buf l, Float32Buf l' | UInt8Buf l, Float32Buf l' =>
      Forall2 (fun z f => same_value_Z z f = true) l l'
  | bx, by_ => bx = by_
  end.

(** The float32 version of an array ([x.astype(np.float32)]). *)
Definition as_float32 (x : ndarray) : ndarray :=
  {| np_shape := np_shape x; np_data := buf_float (np_data x) |}.

Definition is_float32 (x : ndarray) : Prop :=
  exists l, np_data x = Float32Buf l.

Definition is_uint8 (x : ndarray) : Prop :=
  exists l, np_data x = UInt8Buf l /\ Forall (fun z => 0 <= z < 256)%Z l.

(** ** Floating-point arithmetic as an interface

    [select_action] and [negative_cosine_similarity] compute with NumPy and
    Torch floats.  The operations they use are collected in a class, so that
    one definition of each function is read both in IEEE-754 arithmetic
    (with NaN and infinities) and in exact real arithmetic. *)
Class Arith (F : Type) := {
  of_int : Z -> F;            (* an integer as a float *)
  of_ratio : Z -> Z -> F;     (* the literal [n / d], as [1e-5] *)
  fadd : F -> F -> F;
  fmul : F -> F -> F;
  fdiv : F -> F -> F;         (* division of NumPy/Torch scalars: never raises *)
  fneg : F -> F;
  fpow : F -> F -> F;         (* [x ** y] on NumPy scalars *)
  fsqrt : F -> F;
  fmax : F -> F -> F;         (* [clamp_min] *)
  flog : F -> F;              (* [np.log] *)
  fentr : F -> F;             (* [scipy.special.entr] *)
  fis_zero : F -> bool        (* [x == 0] *)
}.

(** The random source behind [np.random.choice(n, p=p)]: it may reject [p]
    and it advances the state of the generator. *)
Class Sampler (F : Type) := {
  rng : Type;
  np_random_choice : nat -> list F -> rng -> result nat * rng
}.

(** *** IEEE-754 binary64 *)

(** What the C library supplies: [pow] and [log] away from the special
    cases that C99 (Annex F) fixes. *)
Record libm := {
  libm_pow : spec_float -> spec_float -> spec_float;
  libm_log : spec_float -> spec_float
}.

Definition b64_of_Z (z : Z) : spec_float :=
  binary_normalize 53%Z 1024%Z z 0%Z false.

Definition b64_is_zero (x : spec_float) : bool :=
  match x with S754_zero _ => true | _ => false end.

Definition b64_is_nan (x : spec_float) : bool :=
  match x with S754_nan => true | _ => false end.

(** [pow(x, y)]: 1 for [y = ±0] and for [x = 1]; NaN for a NaN argument
    otherwise; for [x = +0], [+0] when [y > 0] and [+inf] when [y < 0]. *)
Definition b64_pow (L : libm) (x y : spec_float) : spec_float :=
  if b64_is_zero y then b64_of_Z 1
  else if SFeqb x (b64_of_Z 1) then b64_of_Z 1
  else if b64_is_nan x || b64_is_nan y then S754_nan
  else match x with
       | S754_zero false =>
           if SFltb (S754_zero false) y then S754_zero false
           else S754_infinity false
       | _ => libm_pow L x y
       end.

(** [log(x)]: NaN for NaN and negative [x], [-inf] at [±0], [+inf] at
    [+inf], [+0] at 1. *)
Definition b64_log (L : libm) (x : spec_float) : spec_float :=
  match x with
  | S754_nan => S754_nan
  | S754_zero _ => S754_infinity true
  | S754_infinity false => S754_infinity false
  | S754_infinity true | S754_finite true _ _ => S754_nan
  | S754_finite false _ _ =>
      if SFeqb x (b64_of_Z 1) then S754_zero false else libm_log L x
  end.

(** [entr(x)]: [-x*log(x)] for [x > 0], 0 at 0, [-inf] for [x < 0], NaN
    for NaN. *)
Definition b64_entr (L : libm) (x : spec_float) : spec_float :=
  match x with
  | S754_nan => S754_nan
  | S754_zero _ => S754_zero false
  | S754_infinity true | S754_finite true _ _ => S754_infinity true
  | S754_infinity false | S754_finite false _ _ =>
      SFmul 53%Z 1024%Z (SFopp x) (b64_log L x)
  end.

(** [max(x, y)] as [clamp_min] computes it: NaN is kept. *)
Definition b64_max (x y : spec_float) : spec_float :=
  if b64_is_nan x then x else if SFltb x y then y else x.

Definition binary64 (L : libm) : Arith spec_float := {|
  of_int := b64_of_Z;
  of_ratio n d := SFdiv 53%Z 1024%Z (b64_of_Z n) (b64_of_Z d);
  fadd := SFadd 53%Z 1024%Z;
  fmul := SFmul 53%Z 1024%Z;
  fdiv := SFdiv 53%Z 1024%Z;
  fneg := SFopp;
  fpow := b64_pow L;
  fsqrt := SFsqrt 53%Z 1024%Z;
  fmax := b64_max;
  flog := b64_log L;
  fentr := b64_entr L;
  fis_zero := b64_is_zero
|}.

(** *** Exact real arithmetic

    No rounding, no overflow, no NaN.  It agrees with the floats on what the
    functions below compute from non-negative counts and a positive
    temperature, up to rounding. *)
Definition R_pow (x y : R) : R :=
  if Req_dec_T x 0 then (if Req_dec_T y 0 then 1%R else 0%R) else Rpower x y.

Definition R_entr (x : R) : R :=
  if Rlt_dec 0 x then (- x * ln x)%R else 0%R.

Definition exact_real : Arith R := {|
  of_int := IZR;
  of_ratio n d := (IZR n / IZR d)%R;
  fadd := Rplus;
  fmul := Rmult;
  fdiv := Rdiv;
  fneg := Ropp;
  fpow := R_pow;
  fsqrt := sqrt;
  fmax := Rmax;
  flog := ln;
  fentr := R_entr;
  fis_zero x := if Req_dec_T x 0 then true else false
|}.

(** ** [select_action] *)

(** [np.argmax]: the index of the first maximum. *)
Fixpoint argmax_from (best_i : nat) (best : Z) (i : nat) (l : list Z) : nat :=
  match l with
  | [] => best_i
  | v :: l => if (best <? v)%Z then argmax_from i v (S i) l
              else argmax_from best_i best (S i) l
  end.

Definition np_argmax (l : list Z) : result nat :=
  match l with
  | [] => Raise ValueError
  | v :: l => Ok (argmax_from 0 v 1 l)
  end.

Section SelectAction.
Context {F : Type} {A : Arith F} {S : Sampler F}.

(** Python's [1 / temperature] on a Python float. *)
Definition py_reciprocal (temperature : F) : result F :=
  if fis_zero temperature then Raise ZeroDivisionError
  else Ok (fdiv (of_int 1) temperature).

(** The builtin [sum]: a left fold that starts from 0. *)
Definition py_sum (l : list F) : F := fold_left fadd l (of_int 0).

(** [np.sum] of a one-dimensional array.  (NumPy adds long arrays pairwise;
    the order changes the rounding only.) *)
Definition np_sum (l : list F) : F :=
  match l with
  | [] => of_int 0
  | x :: l => fold_left fadd l x
  end.

(** [scipy.stats.entropy(pk, base=base)] *)
Definition entropy (pk : list F) (base : Z) : F :=
  let total := np_sum pk in
  let pk := map (fun p => fdiv (fmul (of_int 1) p) total) pk in
  let vec := map fentr pk in
  fdiv (np_sum vec) (flog (of_int base)).

Definition select_action (visit_counts : list Z) (temperature : F)
    (deterministic : bool) (g : rng) : result (nat * F) * rng :=
  match mapM (fun visit_count_i =>
                inv ← py_reciprocal temperature;
                Ok (fpow (of_int visit_count_i) inv)) visit_counts with
  | Raise e => (Raise e, g)
  | Ok action_probs =>
      let action_probs := map (fun x => fdiv x (py_sum action_probs)) action_probs in
      let '(action_pos, g) :=
        if deterministic then (np_argmax visit_counts, g)
        else np_random_choice (length visit_counts) action_probs g in
      (action_pos ← action_pos;
       Ok (action_pos, entropy action_probs 2), g)
  end.

End SelectAction.

(** [i] is the first index holding the maximum of [l]. *)
Definition first_max_index (l : list Z) (i : nat) : Prop :=
  exists v, l !! i = Some v /\
    (forall j w, l !! j = Some w -> (w <= v)%Z) /\
    (forall j w, j < i -> l !! j = Some w -> (w < v)%Z).

(** The base-2 Shannon entropy [- Σ p log2 p] of a distribution. *)
Definition log2R (x : R) : R := (ln x / ln 2)%R.

Definition shannon_entropy2 (p : list R) : R :=
  (- fold_right Rplus 0 (map (fun x => x * log2R x) p))%R.

(** The counts normalised to a distribution. *)
Definition normalized (visit_counts : list Z) : list R :=
  map (fun v => (IZR v / IZR (fold_right Z.add 0%Z visit_counts))%R) visit_counts.


(** *** Statement-level notions for [select_action] *)

Section Probabilities.
Context {F : Type} {A : Arith F}.

(** The weights [v ** (1 / temperature)] and the probabilities
    [w / sum(w)] of the first two lines of [select_action]. *)
Definition weights (visit_counts : list Z) (temperature : F) : list F :=
  map (fun v => fpow (of_int v) (fdiv (of_int 1) temperature)) visit_counts.

Definition probabilities (visit_counts : list Z) (temperature : F) : list F :=
  map (fun x => fdiv x (py_sum (weights visit_counts temperature)))
      (weights visit_counts temperature).

End Probabilities.

Definition nan_list {A} (l : list A) : list spec_float := map (fun _ => S754_nan) l.

Definition Rsum (l : list R) : R := fold_right Rplus 0%R l.

(** ** [negative_cosine_similarity]

    Both arguments are two-dimensional, (batch_size, dim), as the docstring
    has them: a tensor is its two sizes and its rows. *)
Record tensor2 (F : Type) := {
  nrows : nat;
  ncols : nat;
  rows : list (list F)
}.
Arguments nrows {F} _.
Arguments ncols {F} _.
Arguments rows {F} _.

Definition wf_tensor2 {F} (x : tensor2 F) : Prop :=
  length (rows x) = nrows x /\ Forall (fun r => length r = ncols x) (rows x).

(** The size two sizes broadcast to: equal sizes, or one of them 1. *)
Definition broadcast_size (a b : nat) : result nat :=
  if a =? b then Ok a
  else if a =? 1 then Ok b
  else if b =? 1 then Ok a
  else Raise RuntimeError.

Section Cosine.
Context {F : Type} {A : Arith F}.

(** [t.sum()] over one axis. *)
Definition torch_sum (l : list F) : F := fold_left fadd l (of_int 0).

(** [F.normalize(x, p=2., dim=-1, eps=eps)]: every row divided by
    [max(norm, eps)]. *)
Definition normalize_row (eps : F) (r : list F) : list F :=
  let norm := fsqrt (torch_sum (map (fun x => fmul x x) r)) in
  let denom := fmax norm eps in
  map (fun x => fdiv x denom) r.

Definition normalize (x : tensor2 F) (eps : F) : tensor2 F :=
  {| nrows := nrows x; ncols := ncols x; rows := map (normalize_row eps) (rows x) |}.

(** [x.expand(r, c)] for sizes [x] broadcasts to: an axis of size 1 is
    repeated. *)
Definition expand_row (c : nat) (n : nat) (r : list F) : list F :=
  if n =? c then r
  else match r with
       | v :: _ => replicate c v
       | [] => []
       end.

Definition expand (r c : nat) (x : tensor2 F) : tensor2 F :=
  let rs := if nrows x =? r then rows x
            else match rows x with
                 | row :: _ => replicate r row
                 | [] => []
                 end in
  {| nrows := r; ncols := c; rows := map (expand_row c (ncols x)) rs |}.

(** [x1 * x2] with broadcasting. *)
Definition mul_broadcast (x1 x2 : tensor2 F) : result (tensor2 F) :=
  r ← broadcast_size (nrows x1) (nrows x2);
  c ← broadcast_size (ncols x1) (ncols x2);
  Ok {| nrows := r; ncols := c;
        rows := zip_with (zip_with fmul) (rows (expand r c x1)) (rows (expand r c x2)) |}.

(** [x.sum(dim=1)] and unary minus, on a two-dimensional tensor. *)
Definition sum_dim1 (x : tensor2 F) : list F := map torch_sum (rows x).

Definition negative_cosine_similarity (x1 x2 : tensor2 F) : result (list F) :=
  let x1 := normalize x1 (of_ratio 1 100000) in
  let x2 := normalize x2 (of_ratio 1 100000) in
  prod ← mul_broadcast x1 x2;
  Ok (map fneg (sum_dim1 prod)).

End Cosine.

(** Two sizes that broadcast. *)
Definition compatible (a b : nat) : Prop := a = b \/ a = 1 \/ b = 1.

Definition same_shape {F} (x1 x2 : tensor2 F) : Prop :=
  nrows x1 = nrows x2 /\ ncols x1 = ncols x2.

(** ** [configure_optimizers] *)

(** *** Modules and parameters

    A model is a tree of modules.  A module has a class, its own
    parameters ([_parameters], an ordered dictionary whose values may be
    [None]) and its child modules ([_modules]).  A parameter is known by
    the identity of its tensor, which is what tying shares.  (A module
    object registered under two parents is outside this model.) *)
Inductive module_class :=
| Linear | LSTM | Conv2d
| TorchLayerNorm | LayerNorm | Embedding | BatchNorm1d | BatchNorm2d
| OtherModule (class_name : string).

Record parameter := { param_id : nat }.

Inductive module :=
| Module (cls : module_class)
         (parameters : list (string * option parameter))
         (modules : list (string * module)).

Definition m_class (m : module) : module_class :=
  match m with Module c _ _ => c end.
Definition m_parameters (m : module) : list (string * option parameter) :=
  match m with Module _ ps _ => ps end.
Definition m_modules (m : module) : list (string * module) :=
  match m with Module _ _ cs => cs end.

(** [prefix + ('.' if prefix else '') + name] *)
Definition join_name (prefix name : string) : string :=
  if String.eqb prefix "" then name else prefix +:+ "." +:+ name.

(** [m.named_modules(prefix=prefix)] *)
Fixpoint named_modules (prefix : string) (m : module) : list (string * module) :=
  match m with
  | Module _ _ cs =>
      (prefix, m) ::
      flat_map (fun nc => named_modules (join_name prefix (fst nc)) (snd nc)) cs
  end.

(** The parameters a module holds itself, under their full names. *)
Definition own_parameters (module_prefix : string) (m : module)
  : list (string * parameter) :=
  flat_map (fun kv => match snd kv with
                      | Some v => [(join_name module_prefix (fst kv), v)]
                      | None => []
                      end) (m_parameters m).

(** The memo of [_named_members]: a tensor already seen is skipped. *)
Fixpoint remove_duplicate (memo : gset nat) (l : list (string * parameter))
  : list (string * parameter) :=
  match l with
  | [] => []
  | (name, v) :: l =>
      if decide (param_id v ∈ memo) then remove_duplicate memo l
      else (name, v) :: remove_duplicate ({[param_id v]} ∪ memo) l
  end.

(** [m.named_parameters()] *)
Definition named_parameters (m : module) : list (string * parameter) :=
  remove_duplicate ∅
    (flat_map (fun pm => own_parameters (fst pm) (snd pm)) (named_modules "" m)).

(** *** Strings *)

Fixpoint is_prefix (p s : list ascii) : bool :=
  match p, s with
  | [], _ => true
  | a :: p, b :: s => Ascii.eqb a b && is_prefix p s
  | _ :: _, [] => false
  end.

(** [s.endswith(suffix)] *)
Definition endswith (s suffix : string) : bool :=
  is_prefix (rev (list_ascii_of_string suffix)) (rev (list_ascii_of_string s)).

(** [sorted] on a list of strings. *)
Fixpoint insert_sorted (x : string) (l : list string) : list string :=
  match l with
  | [] => [x]
  | y :: l' => if String.leb x y then x :: l else y :: insert_sorted x l'
  end.

Definition sorted (l : list string) : list string := fold_right insert_sorted [] l.

(** *** The two buckets *)

Definition whitelist_weight_modules (c : module_class) : bool :=
  match c with Linear | LSTM | Conv2d => true | _ => false end.

Definition blacklist_weight_modules (c : module_class) : bool :=
  match c with
  | TorchLayerNorm | LayerNorm | Embedding | BatchNorm1d | BatchNorm2d => true
  | _ => false
  end.

(** The body of the inner loop, on the pair (decay, no_decay). *)
Definition classify_parameter (mn : string) (m : module) (pn : string)
    (sets : gset string * gset string) : gset string * gset string :=
  let '(decay, no_decay) := sets in
  let fpn := if negb (String.eqb mn "") then mn +:+ "." +:+ pn else pn in
  if endswith pn "bias" || endswith pn "lstm.bias_ih_l0"
     || endswith pn "lstm.bias_hh_l0" then
    (decay, {[fpn]} ∪ no_decay)
  else if endswith pn "weight" && whitelist_weight_modules (m_class m) then
    ({[fpn]} ∪ decay, no_decay)
  else if (endswith pn "weight_ih_l0" || endswith pn "weight_hh_l0")
          && whitelist_weight_modules (m_class m) then
    ({[fpn]} ∪ decay, no_decay)
  else if endswith pn "weight" && blacklist_weight_modules (m_class m) then
    (decay, {[fpn]} ∪ no_decay)
  else (decay, no_decay).

(** The two loops, then the removal of ['lm_head.weight'] (a [KeyError]
    is caught and logged). *)
Definition separate_parameters (model : module) : gset string * gset string :=
  let '(decay, no_decay) :=
    fold_left
      (fun sets mnm =>
         fold_left (fun sets pnp => classify_parameter (fst mnm) (snd mnm) (fst pnp) sets)
                   (named_parameters (snd mnm)) sets)
      (named_modules "" model) (∅, ∅) in
  (decay ∖ {["lm_head.weight"]}, no_decay).

(** [{pn: p for pn, p in model.named_parameters()}] *)
Definition param_dict (model : module) : gmap string parameter :=
  fold_left (fun d pnp => <[fst pnp := snd pnp]> d) (named_parameters model) ∅.

(** *** The optimizer *)

Record param_group := {
  params : list parameter;
  group_weight_decay : spec_float
}.

Record optimizer := {
  param_groups : list param_group;
  lr : spec_float;
  betas : spec_float * spec_float;
  fused : bool
}.

(** [[param_dict[pn] for pn in names]] *)
Definition lookup_params (d : gmap string parameter) (names : list string)
  : result (list parameter) :=
  mapM (fun pn => match d !! pn with
                  | Some p => Ok p
                  | None => Raise KeyError
                  end) names.

(** [fused_available] stands for
    ['fused' in inspect.signature(torch.optim.AdamW).parameters].  The
    constructor [torch.optim.AdamW] is taken as it is given: its own
    argument checks and the line printed are not modelled. *)
Definition configure_optimizers (model : module) (weight_decay learning_rate : spec_float)
    (betas : spec_float * spec_float) (device_type : string) (fused_available : bool)
  : result optimizer :=
  let '(decay, no_decay) := separate_parameters model in
  let param_dict := param_dict model in
  let inter_params := decay ∩ no_decay in
  let union_params := decay ∪ no_decay in
  if negb (bool_decide (inter_params = ∅)) then Raise AssertionError
  else if negb (bool_decide (dom param_dict ∖ union_params = ∅)) then Raise AssertionError
  else
    decayed ← lookup_params param_dict (sorted (elements decay));
    not_decayed ← lookup_params param_dict (sorted (elements no_decay));
    let optim_groups :=
      [ {| params := decayed; group_weight_decay := weight_decay |};
        {| params := not_decayed; group_weight_decay := S754_zero false |} ] in
    let use_fused := String.eqb device_type "cuda" && fused_available in
    Ok {| param_groups := optim_groups; lr := learning_rate; betas := betas;
          fused := use_fused |}.

(** *** Statement-level notions for [configure_optimizers] *)

(** Every parameter of the tree below [m], with its full name, the class
    of the module that holds it and its own name there. *)
Fixpoint parameter_table (prefix : string) (m : module)
  : list (string * (module_class * string * parameter)) :=
  match m with
  | Module c ps cs =>
      flat_map (fun kv => match snd kv with
                          | Some v => [(join_name prefix (fst kv), (c, fst kv, v))]
                          | None => []
                          end) ps
      ++ flat_map (fun nc => parameter_table (join_name prefix (fst nc)) (snd nc)) cs
  end.

(** The bucket a parameter belongs to: weights of whitelisted modules are
    decayed, everything else is not. *)
Definition decayed (entry : module_class * string * parameter) : bool :=
  whitelist_weight_modules entry.1.1 && String.eqb entry.1.2 "weight".

Definition parameter_names (m : module) : list string :=
  (parameter_table "" m).*1.

Definition parameter_ids (m : module) : list nat :=
  map (fun e => param_id e.2.2) (parameter_table "" m).

Definition decay_names (m : module) : list string :=
  (filter (fun e => decayed e.2 = true) (parameter_table "" m)).*1.

Definition no_decay_names (m : module) : list string :=
  (filter (fun e => decayed e.2 = false) (parameter_table "" m)).*1.

(** The models the classification covers: layers of the two lists that
    hold only ["weight"] and ["bias"] and have no children, under
    containers of other classes that hold no parameters themselves and
    name their children. *)
Fixpoint supported (m : module) : bool :=
  match m with
  | Module c ps cs =>
      if whitelist_weight_modules c || blacklist_weight_modules c then
        forallb (fun kv => String.eqb (fst kv) "weight" || String.eqb (fst kv) "bias") ps
        && match cs with [] => true | _ => false end
      else
        match ps with [] => true | _ => false end
        && forallb (fun nc => negb (String.eqb (fst nc) "") && supported (snd nc)) cs
  end.


Definition is_layer (c : module_class) : bool :=
  whitelist_weight_modules c || blacklist_weight_modules c.

(** The branch of the if-chain that a parameter name takes in a module of
    class [c]: [Some true] for the decay set, [Some false] for the
    no-decay set, [None] when no branch applies. *)
Definition bucket (c : module_class) (pn : string) : option bool :=
  if endswith pn "bias" || endswith pn "lstm.bias_ih_l0"
     || endswith pn "lstm.bias_hh_l0" then Some false
  else if endswith pn "weight" && whitelist_weight_modules c then Some true
  else if (endswith pn "weight_ih_l0" || endswith pn "weight_hh_l0")
          && whitelist_weight_modules c then Some true
  else if endswith pn "weight" && blacklist_weight_modules c then Some false
  else None.

(** *** Statement-level notions for the outputs of [prepare_obs] *)

(** A float32 tensor on device [d] that records no gradient. *)
Definition float_tensor_on (d : torch_device) (t : tensor) : Prop :=
  (exists l, t_data t = Float32Buf l) /\ t_device t = d /\ t_requires_grad t = false.

(** ** [get_max_entropy] *)

(** Python exceptions that [exn] does not list, and results that may
    carry them. *)
Inductive py_exn :=
| Builtin (e : exn)
| OverflowError
| AttributeError.

Inductive outcome (A : Type) :=
| Return (a : A)
| Throw (e : py_exn).
Arguments Return {A} a.
Arguments Throw {A} e.

#[global] Instance outcome_ret : MRet outcome := fun A a => Return a.

#[global] Instance outcome_bind : MBind outcome := fun A B k r =>
  match r with
  | Return a => k a
  | Throw e => Throw e
  end.

(** What [get_max_entropy] needs of the floats besides [Arith]: the
    conversion of a Python int to a float, which fails on an int beyond the
    range of the floats, and [np.log2]. *)
Class PyFloat (F : Type) := {
  float_of_int : Z -> option F;
  np_log2 : F -> F
}.

(** [np.log2] in binary64: NaN for NaN and negative arguments, [-inf] at
    [±0], [+inf] at [+inf], [+0] at 1, and the C library's [log2]
    otherwise. *)
Definition b64_log2 (libm_log2 : spec_float -> spec_float) (x : spec_float)
  : spec_float :=
  match x with
  | S754_nan => S754_nan
  | S754_zero _ => S754_infinity true
  | S754_infinity false => S754_infinity false
  | S754_infinity true | S754_finite true _ _ => S754_nan
  | S754_finite false _ _ =>
      if SFeqb x (b64_of_Z 1) then S754_zero false else libm_log2 x
  end.

(** An int converts to a float unless it rounds to infinity. *)
Definition binary64_pyfloat (libm_log2 : spec_float -> spec_float)
  : PyFloat spec_float := {|
  float_of_int z := match b64_of_Z z with
                    | S754_infinity _ => None
                    | f => Some f
                    end;
  np_log2 := b64_log2 libm_log2
|}.

Definition exact_real_pyfloat : PyFloat R := {|
  float_of_int z := Some (IZR z);
  np_log2 := log2R
|}.

Section MaxEntropy.
Context {F : Type} {A : Arith F} {P : PyFloat F}.

Definition get_max_entropy (action_shape : Z) : outcome F :=
  match float_of_int action_shape with
  | None => Throw OverflowError
  | Some d =>
      if fis_zero d then Throw (Builtin ZeroDivisionError)
      else
        let p := fdiv (of_int 1) d in
        Return (fmul (fmul (of_int (- action_shape)) p) (np_log2 p))
  end.

End MaxEntropy.

(** *** Statement-level notions for [negative_cosine_similarity] *)

(** The Euclidean norm of a row, and the rows with the opposite sign. *)
Definition l2_norm (r : list R) : R := sqrt (Rsum (map (fun x => x * x)%R r)).

Definition opposite (x : tensor2 R) : tensor2 R :=
  {| nrows := nrows x; ncols := ncols x; rows := map (map Ropp) (rows x) |}.

(** The tensor of [r] rows and [c] columns that holds [v] everywhere. *)
Definition full {F} (r c : nat) (v : F) : tensor2 F :=
  {| nrows := r; ncols := c; rows := replicate r (replicate c v) |}.

(** ** [concat_output_value] and [concat_output] *)

(** *** The NumPy operations *)

Inductive dtype := uint8 | int64 | float32 | float64.

Definition buf_dtype (b : np_buffer) : dtype :=
  match b with
  | UInt8Buf _ => uint8
  | Int64Buf _ => int64
  | Float32Buf _ => float32
  | Float64Buf _ => float64
  end.

(** [np.promote_types]: the smallest dtype both cast to safely. *)
Definition promote_types (a b : dtype) : dtype :=
  match a, b with
  | float64, _ | _, float64 => float64
  | int64, float32 | float32, int64 => float64
  | float32, _ | _, float32 => float32
  | int64, _ | _, int64 => int64
  | uint8, uint8 => uint8
  end.

(** A float of a narrower format in the binary64 format. *)
Definition f64_of_float (x : spec_float) : spec_float :=
  match x with
  | S754_finite s m e => binary_round 53%Z 1024%Z s m e
  | _ => x
  end.

(** The elements of a buffer as integers and in the two float formats.
    Promotion only widens: an integer dtype is the result for integer
    buffers only, and float32 for uint8 and float32 buffers only. *)
Definition buf_ints (b : np_buffer) : list Z :=
  match b with
  | Int64Buf l | UInt8Buf l => l
  | Float32Buf _ | Float64Buf _ => []
  end.

Definition buf_float32s (b : np_buffer) : list spec_float :=
  match buf_float b with
  | Float32Buf l => l
  | _ => []
  end.

Definition buf_float64s (b : np_buffer) : list spec_float :=
  match b with
  | Int64Buf l | UInt8Buf l => map b64_of_Z l
  | Float32Buf l => map f64_of_float l
  | Float64Buf l => l
  end.

(** The buffers, cast to [d], one after the other. *)
Definition concat_data (d : dtype) (bufs : list np_buffer) : np_buffer :=
  match d with
  | uint8 => UInt8Buf (flat_map buf_ints bufs)
  | int64 => Int64Buf (flat_map buf_ints bufs)
  | float32 => Float32Buf (flat_map buf_float32s bufs)
  | float64 => Float64Buf (flat_map buf_float64s bufs)
  end.

(** [np.concatenate(arrays)], along the first axis.  It needs one array at
    least, no zero-dimensional array, and the same sizes on all the other
    axes; the arrays are promoted to a common dtype.  In row-major order
    the result holds the buffers one after the other. *)
Definition np_concatenate (arrays : list ndarray) : result ndarray :=
  match arrays with
  | [] => Raise ValueError
  | a0 :: _ =>
      match np_shape a0 with
      | [] => Raise ValueError
      | _ :: trailing =>
          if forallb (fun a => match np_shape a with
                               | [] => false
                               | _ :: t => bool_decide (t = trailing)
                               end) arrays
          then
            let d := fold_right promote_types (buf_dtype (np_data a0))
                       (map (fun a => buf_dtype (np_data a)) arrays) in
            Ok {| np_shape :=
                    fold_right Nat.add 0 (map (fun a => hd 0 (np_shape a)) arrays)
                    :: trailing;
                  np_data := concat_data d (map np_data arrays) |}
          else Raise ValueError
      end
  end.

(** [a.squeeze(0)]: the first axis must have size one (for a
    zero-dimensional array the error is NumPy's [AxisError], a
    [ValueError]). *)
Definition squeeze0 (a : ndarray) : result ndarray :=
  match np_shape a with
  | 1 :: s => Ok {| np_shape := s; np_data := np_data a |}
  | _ => Raise ValueError
  end.

(** [np.expand_dims(a, axis=0)] *)
Definition expand_dims0 (a : ndarray) : ndarray :=
  {| np_shape := 1 :: np_shape a; np_data := np_data a |}.

(** *** Model outputs *)

(** A model output is an object; an attribute it does not have is [None]
    here, and reading it raises [AttributeError].  The hidden state of the
    reward network is a tuple. *)
Record network_output := {
  value : option ndarray;
  reward : option ndarray;
  value_prefix : option ndarray;
  policy_logits : option ndarray;
  latent_state : option ndarray;
  reward_hidden_state : option (list ndarray)
}.

Definition getattr {A} (attribute : option A) : outcome A :=
  match attribute with
  | Some x => Return x
  | None => Throw AttributeError
  end.

(** [t[i]] on a tuple. *)
Definition tuple_getitem {A} (t : list A) (i : nat) : outcome A :=
  match t !! i with
  | Some x => Return x
  | None => Throw (Builtin IndexError)
  end.

Definition lift {A} (r : result A) : outcome A :=
  match r with
  | Ok a => Return a
  | Raise e => Throw (Builtin e)
  end.

(** *** [concat_output_value] *)

Definition concat_output_value (output_lst : list network_output) : outcome ndarray :=
  value_lst ← mapM (fun output => getattr (value output)) output_lst;
  lift (np_concatenate value_lst).

(** *** [concat_output] *)

(** The six lists the loop fills. *)
Record concat_lists := {
  value_lst : list ndarray;
  reward_lst : list ndarray;
  policy_logits_lst : list ndarray;
  latent_state_lst : list ndarray;
  reward_hidden_state_c_lst : list ndarray;
  reward_hidden_state_h_lst : list ndarray
}.

(** What is returned: a tuple of four arrays, a tuple of four arrays and a
    pair, or [None] when no [return] is reached. *)
Inductive concat_result :=
| Tuple4 (value_lst reward_lst policy_logits_lst latent_state_lst : ndarray)
| Tuple5 (value_lst reward_lst policy_logits_lst latent_state_lst : ndarray)
         (reward_hidden_state : ndarray * ndarray)
| PyNone.

(** The body of the loop. *)
Definition concat_output_step (data_type : string) (st : concat_lists)
    (output : network_output) : outcome concat_lists :=
  v ← getattr (value output);
  rewards ←
    (if String.eqb data_type "muzero" then
       r ← getattr (reward output); Return (reward_lst st ++ [r])
     else if String.eqb data_type "efficientzero" then
       r ← getattr (value_prefix output); Return (reward_lst st ++ [r])
     else Return (reward_lst st));
  p ← getattr (policy_logits output);
  s ← getattr (latent_state output);
  hidden ←
    (if String.eqb data_type "efficientzero" then
       hs ← getattr (reward_hidden_state output);
       c ← tuple_getitem hs 0;
       c ← lift (squeeze0 c);
       hs ← getattr (reward_hidden_state output);
       h ← tuple_getitem hs 1;
       h ← lift (squeeze0 h);
       Return (reward_hidden_state_c_lst st ++ [c], reward_hidden_state_h_lst st ++ [h])
     else Return (reward_hidden_state_c_lst st, reward_hidden_state_h_lst st));
  Return {| value_lst := value_lst st ++ [v];
            reward_lst := rewards;
            policy_logits_lst := policy_logits_lst st ++ [p];
            latent_state_lst := latent_state_lst st ++ [s];
            reward_hidden_state_c_lst := hidden.1;
            reward_hidden_state_h_lst := hidden.2 |}.

Fixpoint concat_output_loop (data_type : string) (output_lst : list network_output)
    (st : concat_lists) : outcome concat_lists :=
  match output_lst with
  | [] => Return st
  | output :: output_lst =>
      st ← concat_output_step data_type st output;
      concat_output_loop data_type output_lst st
  end.

Definition concat_output (output_lst : list network_output) (data_type : string)
  : outcome concat_result :=
  if negb (String.eqb data_type "muzero" || String.eqb data_type "efficientzero")
  then Throw (Builtin AssertionError)
  else
    st ← concat_output_loop data_type output_lst
            {| value_lst := []; reward_lst := []; policy_logits_lst := [];
               latent_state_lst := []; reward_hidden_state_c_lst := [];
               reward_hidden_state_h_lst := [] |};
    v ← lift (np_concatenate (value_lst st));
    r ← lift (np_concatenate (reward_lst st));
    p ← lift (np_concatenate (policy_logits_lst st));
    s ← lift (np_concatenate (latent_state_lst st));
    if String.eqb data_type "muzero" then Return (Tuple4 v r p s)
    else if String.eqb data_type "efficientzero" then
      c ← lift (np_concatenate (reward_hidden_state_c_lst st));
      h ← lift (np_concatenate (reward_hidden_state_h_lst st));
      Return (Tuple5 v r p s (expand_dims0 c, expand_dims0 h))
    else Return PyNone.

(** *** Statement-level notions for [concat_output] *)

(** The size of the first axis. *)
Definition batch_size (a : ndarray) : nat := hd 0 (np_shape a).

(** The first component of the tuple returned. *)
Definition result_value (r : concat_result) : option ndarray :=
  match r with
  | Tuple4 v _ _ _ | Tuple5 v _ _ _ _ => Some v
  | PyNone => None
  end.

(** ** The class [LayerNorm] *)

(** The module holds [weight] and, optionally, [bias]. *)
Record LayerNorm_module (F : Type) := {
  weight : list F;
  bias : option (list F)
}.
Arguments weight {F} _.
Arguments bias {F} _.

Section LayerNormClass.
Context {F : Type} {A : Arith F}.

(** [__init__]: [torch.ones(ndim)] and, with [bias], [torch.zeros(ndim)]. *)
Definition LayerNorm_init (ndim : nat) (with_bias : bool) : LayerNorm_module F :=
  {| weight := replicate ndim (of_int 1);
     bias := if with_bias then Some (replicate ndim (of_int 0)) else None |}.

Definition mean (l : list F) : F :=
  fdiv (torch_sum l) (of_int (Z.of_nat (length l))).

(** [F.layer_norm] on one vector: centred, divided by the square root of
    the (biased) variance plus [eps], scaled by [weight] and shifted by
    [bias] when there is one. *)
Definition layer_norm_row (w : list F) (b : option (list F)) (eps : F) (x : list F)
  : list F :=
  let mu := mean x in
  let centred := map (fun v => fadd v (fneg mu)) x in
  let var := mean (map (fun v => fmul v v) centred) in
  let rstd := fdiv (of_int 1) (fsqrt (fadd var eps)) in
  let scaled := zip_with fmul (map (fun v => fmul v rstd) centred) w in
  match b with
  | Some b => zip_with fadd scaled b
  | None => scaled
  end.

(** [F.layer_norm(input, normalized_shape, weight, bias, eps)] for a
    two-dimensional input and a one-dimensional [normalized_shape]: the
    last axis of the input must have that size. *)
Definition layer_norm (input : tensor2 F) (normalized_shape : nat)
    (w : list F) (b : option (list F)) (eps : F) : result (tensor2 F) :=
  if ncols input =? normalized_shape then
    Ok {| nrows := nrows input; ncols := ncols input;
          rows := map (layer_norm_row w b eps) (rows input) |}
  else Raise RuntimeError.

(** [forward] *)
Definition LayerNorm_forward (self : LayerNorm_module F) (input : tensor2 F)
  : result (tensor2 F) :=
  layer_norm input (length (weight self)) (weight self) (bias self)
             (of_ratio 1 100000).

End LayerNormClass.

(** *** Statement-level notions for [LayerNorm] *)

(** The batch with [c] added to every element. *)
Definition shifted (c : R) (x : tensor2 R) : tensor2 R :=
  {| nrows := nrows x; ncols := ncols x; rows := map (map (fun v => (v + c)%R)) (rows x) |}.

(* ===================================================================== *)
(** * Part II: properties                                                 *)
(* ===================================================================== *)

(** ** Slicing *)

Section SliceRows.
Context {A : Type}.
Implicit Types (data : list A) (f : nat -> list A).

Lemma length_flat_map_const f m l :
  (forall k, k ∈ l -> length (f k) = m) ->
  length (flat_map f l) = length l * m.
Proof.
  induction l as [|a l IH]; intros Hf; simpl; [done|].
  rewrite length_app, Hf, IH; [lia| |left].
  intros k Hk. apply Hf. by right.
Qed.

Lemma lookup_flat_map_seq f m a b i j :
  (forall k, a <= k < a + b -> length (f k) = m) ->
  i < b -> j < m ->
  flat_map f (seq a b) !! (i * m + j) = f (a + i) !! j.
Proof.
  revert a i. induction b as [|b IH]; intros a i Hf Hi Hj; [lia|].
  simpl. destruct i as [|i].
  - rewrite lookup_app_l by (rewrite Hf; lia).
    by rewrite Nat.add_0_r.
  - rewrite lookup_app_r by (rewrite Hf; lia).
    rewrite Hf by lia.
    replace (S i * m + j - m) with (i * m + j) by lia.
    rewrite IH by (try lia; intros; apply Hf; lia).
    by replace (S a + i) with (a + S i) by lia.
Qed.

Lemma length_chunk data off k :
  off + k <= length data -> length (take k (drop off data)) = k.
Proof. intros. rewrite length_take, length_drop. lia. Qed.

Lemma chunk_bound b s inner lo n k :
  lo + n <= s -> k < b -> (k * s + lo) * inner + n * inner <= b * s * inner.
Proof.
  intros Hn Hk.
  replace ((k * s + lo) * inner + n * inner) with ((k * s + lo + n) * inner) by lia.
  apply Nat.mul_le_mono_r.
  transitivity (S k * s); [lia|]. apply Nat.mul_le_mono_r. lia.
Qed.

Lemma length_slice_rows b s inner lo n data :
  lo + n <= s -> length data = b * s * inner ->
  length (slice_rows b s inner lo n data) = b * n * inner.
Proof.
  intros Hn Hlen. unfold slice_rows.
  rewrite (length_flat_map_const _ (n * inner)).
  - rewrite length_seq. lia.
  - intros k Hk%elem_of_seq. apply length_chunk.
    rewrite Hlen. apply chunk_bound; lia.
Qed.

Lemma lookup_slice_rows b s inner lo n data i j :
  lo + n <= s -> length data = b * s * inner ->
  i < b -> j < n * inner ->
  slice_rows b s inner lo n data !! (i * (n * inner) + j)
  = data !! ((i * s + lo) * inner + j).
Proof.
  intros Hn Hlen Hi Hj. unfold slice_rows.
  rewrite (lookup_flat_map_seq _ (n * inner)); [| |done..].
  - simpl. rewrite lookup_take_lt, lookup_drop; done.
  - intros k Hk. apply length_chunk.
    rewrite Hlen. apply chunk_bound; lia.
Qed.

Lemma flat_map_chunks s inner data a b :
  flat_map (fun i => take (s * inner) (drop ((i * s + 0) * inner) data)) (seq a b)
  = take (b * (s * inner)) (drop (a * (s * inner)) data).
Proof.
  revert a. induction b as [|b IH]; intros a; simpl; [by rewrite take_0|].
  rewrite IH.
  replace ((a * s + 0) * inner) with (a * (s * inner)) by lia.
  replace (S a * (s * inner)) with (a * (s * inner) + s * inner) by lia.
  rewrite <- drop_drop. apply take_take_drop.
Qed.

Lemma slice_rows_full b s inner data :
  length data = b * s * inner -> slice_rows b s inner 0 s data = data.
Proof.
  intros Hlen. unfold slice_rows. rewrite flat_map_chunks.
  simpl. apply take_ge. lia.
Qed.
End SliceRows.

Lemma slice_range_prefix s k : (0 <= k)%Z -> slice_range s (Some 0%Z) (Some k) = (0, Nat.min s (Z.to_nat k)).
Proof.
  intros Hk. unfold slice_range, py_slice_index. 
  repeat case_match; f_equal; lia.
Qed.
Lemma slice_range_suffix s c : (0 <= c)%Z -> slice_range s (Some c) None = (Nat.min s (Z.to_nat c), s - Nat.min s (Z.to_nat c)).
Proof.
  intros Hk. unfold slice_range, py_slice_index. 
  repeat case_match; f_equal; lia.
Qed.

(** The result of [getitem_axis1] on a tensor with enough axes. *)
Lemma getitem_axis1_ok nidx start stop t b s rest :
  t_shape t = b :: s :: rest -> nidx <= length (t_shape t) ->
  getitem_axis1 nidx start stop t
  = Ok {| t_shape := b :: (slice_range s start stop).2 :: rest;
          t_data := buf_map (fun A => slice_rows b s (prod_shape rest)
                       (slice_range s start stop).1 (slice_range s start stop).2)
                      (t_data t);
          t_device := t_device t; t_requires_grad := t_requires_grad t |}.
Proof.
  intros Hs Hn. unfold getitem_axis1.
  destruct (Nat.ltb_spec (length (t_shape t)) nidx); [lia|].
  rewrite Hs. by destruct (slice_range s start stop).
Qed.

Lemma getitem_axis1_short nidx start stop t :
  length (t_shape t) < nidx -> getitem_axis1 nidx start stop t = Raise IndexError.
Proof.
  intros Hn. unfold getitem_axis1.
  by destruct (Nat.ltb_spec (length (t_shape t)) nidx); [|lia].
Qed.

Lemma buf_float_spec b :
  exists l, buf_float b = Float32Buf l /\ length l = buf_length b.
Proof. destruct b; simpl; eexists; split; try done; by rewrite length_map. Qed.

Lemma buf_length_map f b n :
  (forall A (l : list A), length l = buf_length b -> length (f A l) = n) ->
  buf_length (buf_map f b) = n.
Proof. intros Hf. destruct b; simpl; by apply Hf. Qed.

Lemma wf_obs_float x cfg : wf_ndarray x -> wf_tensor (obs_float x cfg).
Proof.
  unfold wf_ndarray, wf_tensor. simpl.
  destruct (buf_float_spec (np_data x)) as (l & -> & Hl). simpl. congruence.
Qed.

Lemma slice_range_le s start stop :
  (slice_range s start stop).1 + (slice_range s start stop).2 <= s.
Proof.
  unfold slice_range, py_slice_index. simpl.
  destruct start, stop; repeat case_match; lia.
Qed.

Lemma wf_getitem_axis1 nidx start stop t t' :
  wf_tensor t -> getitem_axis1 nidx start stop t = Ok t' -> wf_tensor t'.
Proof.
  unfold wf_tensor. intros Hwf Hget.
  unfold getitem_axis1 in Hget. case_match; [done|].
  destruct (t_shape t) as [|b [|s rest]] eqn:Hs; [done..|].
  destruct (slice_range s start stop) as [lo n] eqn:Hr.
  injection Hget as <-. simpl.
  apply buf_length_map. intros A l Hl.
  rewrite (length_slice_rows b s); [lia| |].
  - pose proof (slice_range_le s start stop) as Hle. by rewrite Hr in Hle.
  - rewrite Hl, Hwf. simpl. lia.
Qed.

(** Row-major offsets of a rank-4 index. *)
Lemma flat_index4 b s h w i j k l :
  flat_index [b; s; h; w] [i; j; k; l]
  = i * (s * (h * w)) + (j * (h * w) + (k * w + l)).
Proof. simpl. lia. Qed.

Lemma offset_lt n m i j : i < n -> j < m -> i * m + j < n * m.
Proof. intros. nia. Qed.

Lemma buf_nth_float_slice buf b s inner lo n i j :
  lo + n <= s -> buf_length buf = b * s * inner -> i < b -> j < n * inner ->
  buf_nth_float (buf_map (fun A => slice_rows b s inner lo n) buf) (i * (n * inner) + j)
  = buf_nth_float buf ((i * s + lo) * inner + j).
Proof.
  intros Hn Hlen Hi Hj. destruct buf; simpl in *; try done;
    by apply lookup_slice_rows.
Qed.

Lemma item_getitem_axis1 nidx start stop t t' b s h w i j k l :
  wf_tensor t -> t_shape t = [b; s; h; w] ->
  getitem_axis1 nidx start stop t = Ok t' ->
  i < b -> j < (slice_range s start stop).2 -> k < h -> l < w ->
  item t' [i; j; k; l] = item t [i; (slice_range s start stop).1 + j; k; l].
Proof.
  intros Hwf Hs Hget Hi Hj Hk Hl.
  unfold getitem_axis1 in Hget. case_match; [done|].
  rewrite Hs in Hget.
  pose proof (slice_range_le s start stop) as Hle.
  destruct (slice_range s start stop) as [lo n]. simpl in Hj, Hle |- *.
  injection Hget as <-. unfold item. simpl t_data. simpl t_shape.
  rewrite Hs, !flat_index4.
  replace (h * (w * 1)) with (h * w) by lia.
  pose proof (offset_lt h w k l Hk Hl) as Hkl.
  rewrite (buf_nth_float_slice _ b s (h * w) lo n i); [f_equal; lia|done| |done|].
  - rewrite Hwf, Hs. simpl. lia.
  - by apply offset_lt.
Qed.

(** ** [prepare_obs] *)

Lemma prepare_obs_unfold x cfg nidx unit :
  mode_layout cfg = Some (nidx, unit) ->
  prepare_obs x cfg
  = (obs_batch ← getitem_axis1 nidx (Some 0%Z)
                   (Some (frame_stack_num (model cfg) * unit)%Z) (obs_float x cfg);
     if self_supervised_learning_loss (model cfg) then
       tgt ← getitem_axis1 nidx (Some unit) None (obs_float x cfg);
       Ok (obs_batch, Some tgt)
     else Ok (obs_batch, None)).
Proof.
  unfold mode_layout, prepare_obs, obs_float.
  destruct (String.eqb _ "conv"); [by intros [= <- <-]|].
  destruct (String.eqb _ "mlp"); [by intros [= <- <-]|done].
Qed.

Lemma prepare_obs_unknown_mode x cfg :
  mode_layout cfg = None -> prepare_obs x cfg = Raise UnboundLocalError.
Proof.
  unfold mode_layout, prepare_obs.
  destruct (String.eqb _ "conv"); [done|].
  by destruct (String.eqb _ "mlp").
Qed.

(** C1 (amended): in image mode [prepare_obs] does not transpose or reshape.
    It casts a batch that is already laid out as (B, T*C, H, W) to float32,
    returns as current batch its first [frame_stack_num * image_channel]
    channels (clipped to the channels there are) and, when the consistency
    loss is enabled, returns as target batch all channels from index
    [image_channel] onward, otherwise no target batch.  With
    [frame_stack_num = 4], [image_channel = 3] and an input of shape
    (B, 27, 96, 96) the current batch has shape (B, 12, 96, 96) and the
    target batch has shape (B, 24, 96, 96). *)
Theorem prepare_obs_image_layout
    (x : ndarray) (B S H W : nat) (fs ch : Z) (ssl : bool) (d : torch_device) :
  np_shape x = [B; S; H; W] -> wf_ndarray x -> (0 <= fs)%Z -> (0 <= ch)%Z ->
  let cfg := obs_cfg "conv" fs ch ssl d in
  let n := Nat.min S (Z.to_nat (fs * ch)) in
  let k := Nat.min S (Z.to_nat ch) in
  exists cur tgt,
    prepare_obs x cfg = Ok (cur, if ssl then Some tgt else None) /\
    t_shape (obs_float x cfg) = np_shape x /\
    t_shape cur = [B; n; H; W] /\ t_shape tgt = [B; S - k; H; W] /\
    wf_tensor cur /\ wf_tensor tgt /\
    (forall b c h w, b < B -> c < n -> h < H -> w < W ->
       item cur [b; c; h; w] = item (obs_float x cfg) [b; c; h; w]) /\
    (forall b c h w, b < B -> c < S - k -> h < H -> w < W ->
       item tgt [b; c; h; w] = item (obs_float x cfg) [b; k + c; h; w]) /\
    (S = 27 -> H = 96 -> W = 96 -> fs = 4%Z -> ch = 3%Z ->
       t_shape cur = [B; 12; 96; 96] /\ t_shape tgt = [B; 24; 96; 96]).
Proof.
  intros Hs Hwf Hfs Hch cfg n k.
  assert (Hsf : t_shape (obs_float x cfg) = [B; S; H; W]) by done.
  assert (Hlen : 4 <= length (t_shape (obs_float x cfg))) by (by rewrite Hsf).
  pose proof (wf_obs_float x cfg Hwf) as Hwff.
  pose proof (getitem_axis1_ok 4 (Some 0%Z) (Some (fs * ch)%Z) _ _ _ _ Hsf Hlen) as Hcur.
  pose proof (getitem_axis1_ok 4 (Some ch) None _ _ _ _ Hsf Hlen) as Htgt.
  rewrite slice_range_prefix in Hcur by lia.
  rewrite slice_range_suffix in Htgt by lia.
  simpl fst in *. simpl snd in *. fold n in Hcur. fold k in Htgt.
  eexists _, _. split.
  { rewrite (prepare_obs_unfold x cfg 4 ch) by done.
    simpl frame_stack_num. rewrite Hcur, Htgt. simpl. by case ssl. }
  do 3 (split; [done|]).
  split; [by eapply wf_getitem_axis1|]. split; [by eapply wf_getitem_axis1|].
  split; [|split].
  - intros b c h w Hb Hc Hh Hw.
    rewrite (item_getitem_axis1 _ _ _ _ _ _ _ _ _ _ _ _ _ Hwff Hsf Hcur);
      rewrite ?slice_range_prefix by lia; done.
  - intros b c h w Hb Hc Hh Hw.
    rewrite (item_getitem_axis1 _ _ _ _ _ _ _ _ _ _ _ _ _ Hwff Hsf Htgt);
      rewrite ?slice_range_suffix by lia; done.
  - intros -> -> -> -> ->. done.
Qed.

Lemma prepare_obs_image_layout_witness :
  let x := {| np_shape := [1; 3; 1; 2]; np_data := UInt8Buf [1; 2; 3; 4; 5; 6]%Z |} in
  exists cur tgt,
    prepare_obs x (obs_cfg "conv" 2 1 true cpu) = Ok (cur, Some tgt) /\
    t_shape cur = [1; 2; 1; 2] /\ t_shape tgt = [1; 2; 1; 2] /\
    item cur [0; 1; 0; 1] = Some (f32_of_Z 4) /\
    item tgt [0; 1; 0; 1] = Some (f32_of_Z 6).
Proof.
  intros x.
  destruct (prepare_obs_image_layout x 1 3 1 2 2 1 true cpu)
    as (cur & tgt & Heq & _ & Hc & Ht & _ & _ & Hic & Hit & _);
    [reflexivity | reflexivity | lia | lia |].
  exists cur, tgt. split; [exact Heq|]. split; [exact Hc|]. split; [exact Ht|].
  split; [rewrite Hic by (simpl; lia) | rewrite Hit by (simpl; lia)]; reflexivity.
Defined.

(** C1 as stated fails: an input of shape (1, 9, 96, 96, 3) is not
    transposed to (1, 27, 96, 96).  The slices act on the axis of length 9:
    the current batch keeps shape (1, 9, 96, 96, 3), not (1, 12, 96, 96), and
    the target batch has shape (1, 6, 96, 96, 3), not (1, 24, 96, 96). *)
Lemma prepare_obs_rank5_not_transposed :
  let x := {| np_shape := [1; 9; 96; 96; 3];
              np_data := UInt8Buf (replicate (prod_shape [1; 9; 96; 96; 3]) 0%Z) |} in
  wf_ndarray x /\
  exists cur tgt,
    prepare_obs x (obs_cfg "conv" 4 3 true cpu) = Ok (cur, Some tgt) /\
    t_shape cur = [1; 9; 96; 96; 3] /\ t_shape tgt = [1; 6; 96; 96; 3] /\
    t_shape cur <> [1; 12; 96; 96] /\ t_shape tgt <> [1; 24; 96; 96].
Proof.
  intros x. split; [exact (length_replicate _ _)|].
  set (cfg := obs_cfg "conv" 4 3 true cpu).
  assert (Hsf : t_shape (obs_float x cfg) = [1; 9; 96; 96; 3]) by reflexivity.
  assert (Hlen : 4 <= length (t_shape (obs_float x cfg))) by (rewrite Hsf; simpl; lia).
  pose proof (getitem_axis1_ok 4 (Some 0%Z) (Some (4 * 3)%Z) _ _ _ _ Hsf Hlen) as Hcur.
  pose proof (getitem_axis1_ok 4 (Some 3%Z) None _ _ _ _ Hsf Hlen) as Htgt.
  rewrite slice_range_prefix in Hcur by lia.
  rewrite slice_range_suffix in Htgt by lia.
  eexists _, _. split.
  { rewrite (prepare_obs_unfold x cfg 4 3%Z) by reflexivity.
    change (frame_stack_num (model cfg)) with 4%Z.
    change (self_supervised_learning_loss (model cfg)) with true.
    rewrite Hcur, Htgt. reflexivity. }
  cbv [t_shape fst snd].
  repeat split; try reflexivity; intros [=].
Qed.

Lemma buf_map_id f b :
  (forall A (l : list A), length l = buf_length b -> f A l = l) -> buf_map f b = b.
Proof. intros Hf. destruct b; simpl; f_equal; by apply Hf. Qed.

(** C6 (amended): when the stacked axis is shorter than
    [frame_stack_num * unit] (channels in image mode, observation size in
    vector mode) the slice is clipped to the axis: [prepare_obs] raises
    nothing and the current batch is the whole float-converted input. *)
Theorem prepare_obs_short_stack_clipped
    (x : ndarray) (cfg : config) (nidx : nat) (unit : Z) (b s : nat) (rest : list nat) :
  mode_layout cfg = Some (nidx, unit) ->
  np_shape x = b :: s :: rest -> nidx <= length (np_shape x) -> wf_ndarray x ->
  (Z.of_nat s < frame_stack_num (model cfg) * unit)%Z ->
  exists tgt, prepare_obs x cfg = Ok (obs_float x cfg, tgt).
Proof.
  intros Hmode Hs Hn Hwf Hshort.
  assert (Hsf : t_shape (obs_float x cfg) = b :: s :: rest) by done.
  assert (Hlen : nidx <= length (t_shape (obs_float x cfg))) by done.
  pose proof (wf_obs_float x cfg Hwf) as Hwff.
  rewrite (prepare_obs_unfold x cfg nidx unit Hmode).
  rewrite !(getitem_axis1_ok nidx _ _ _ _ _ _ Hsf Hlen).
  rewrite slice_range_prefix by lia.
  replace (s `min` Z.to_nat (frame_stack_num (model cfg) * unit)) with s by lia.
  simpl fst. simpl snd.
  rewrite (buf_map_id (fun A => slice_rows b s (prod_shape rest) 0 s)).
  - rewrite <- Hsf.
    destruct (self_supervised_learning_loss (model cfg)); simpl; eauto.
  - intros A l Hl. apply slice_rows_full.
    rewrite Hl, Hwff, Hsf. simpl. lia.
Qed.

Lemma prepare_obs_short_stack_clipped_witness :
  let x := {| np_shape := [2; 3]; np_data := Float32Buf (replicate 6 (S754_zero false)) |} in
  exists tgt, prepare_obs x (obs_cfg "mlp" 4 3 false cpu)
              = Ok (obs_float x (obs_cfg "mlp" 4 3 false cpu), tgt).
Proof.
  intros x.
  apply (prepare_obs_short_stack_clipped x (obs_cfg "mlp" 4 3 false cpu) 2 3%Z 2 3 []);
    [reflexivity | reflexivity | simpl; lia | reflexivity | simpl; lia].
Defined.

(** C6 as stated fails: with a stacked axis of 3 < 4 * 3 channels
    [prepare_obs] raises nothing. *)
Lemma prepare_obs_short_stack_no_error :
  let x := {| np_shape := [1; 3; 1; 1]; np_data := UInt8Buf [7; 8; 9]%Z |} in
  let cfg := obs_cfg "conv" 4 3 false cpu in
  (3 < frame_stack_num (model cfg) * image_channel (model cfg))%Z /\
  ~ raises (prepare_obs x cfg).
Proof.
  intros x cfg. split; [simpl; lia|]. intros [e He]. vm_compute in He. discriminate.
Qed.

(** ** The consistency-loss flag *)

Lemma mode_layout_with_consistency_loss cfg flag :
  mode_layout (with_consistency_loss cfg flag) = mode_layout cfg.
Proof. reflexivity. Qed.

(** C10: for every batch and configuration the mode accepts, the current
    batch is the same with the consistency-loss flag set and cleared; the
    flag only decides whether a target batch comes with it. *)
Theorem prepare_obs_current_batch_flag_independent (x : ndarray) (cfg : config) :
  valid_obs x cfg ->
  exists cur tgt,
    prepare_obs x (with_consistency_loss cfg true) = Ok (cur, Some tgt) /\
    prepare_obs x (with_consistency_loss cfg false) = Ok (cur, None).
Proof.
  intros (nidx & unit & Hmode & Hn).
  assert (2 <= nidx) as Hn2.
  { unfold mode_layout in Hmode. repeat case_match; simplify_eq; lia. }
  destruct (np_shape x) as [|b [|s rest]] eqn:Hs; [simpl in Hn; lia..|].
  assert (Hsf : forall flag, t_shape (obs_float x (with_consistency_loss cfg flag))
                             = b :: s :: rest) by done.
  assert (Hlen : forall flag,
    nidx <= length (t_shape (obs_float x (with_consistency_loss cfg flag)))).
  { intros flag. by rewrite Hsf. }
  rewrite !(prepare_obs_unfold x _ nidx unit) by done.
  rewrite !(getitem_axis1_ok nidx _ _ _ _ _ _ (Hsf _) (Hlen _)).
  simpl. eauto.
Qed.

Lemma prepare_obs_current_batch_flag_independent_witness :
  let x := {| np_shape := [1; 3; 1; 1]; np_data := UInt8Buf [7; 8; 9]%Z |} in
  exists cur tgt,
    prepare_obs x (with_consistency_loss (obs_cfg "conv" 2 1 false cpu) true)
      = Ok (cur, Some tgt) /\
    prepare_obs x (with_consistency_loss (obs_cfg "conv" 2 1 false cpu) false)
      = Ok (cur, None).
Proof.
  intros x. apply prepare_obs_current_batch_flag_independent.
  exists 4, 1%Z. split; [reflexivity | simpl; lia].
Defined.

(** ** Marshalling between host arrays and tensors *)

Lemma fold_left_snoc {A B} (f : A -> B) (l : list A) (acc : list B) :
  fold_left (fun out a => out ++ [f a]) l acc = acc ++ map f l.
Proof.
  revert acc. induction l as [|a l IH]; intros acc; simpl; [by rewrite app_nil_r|].
  rewrite IH. by rewrite <- app_assoc.
Qed.

Lemma to_torch_float_tensor_map data_list dev :
  to_torch_float_tensor data_list dev
  = map (fun data => float_ (to_device (from_numpy data) dev)) data_list.
Proof. unfold to_torch_float_tensor. by rewrite fold_left_snoc. Qed.

Lemma to_detach_cpu_numpy_fold (l : list ndarray) dev acc :
  fold_left
    (fun acc data =>
       output_data_list ← acc;
       a ← numpy (cpu_ (detach data));
       Ok (output_data_list ++ [a]))
    (map (fun data => float_ (to_device (from_numpy data) dev)) l) (Ok acc)
  = Ok (acc ++ map as_float32 l).
Proof.
  revert acc. induction l as [|a l IH]; intros acc; simpl; [by rewrite app_nil_r|].
  rewrite IH. by rewrite <- app_assoc.
Qed.

Lemma as_float32_id x : is_float32 x -> as_float32 x = x.
Proof. destruct x as [s b]. intros [l Hl]. simpl in Hl. by subst. Qed.

Lemma uint8_exact_in_float32 z :
  (0 <= z < 256)%Z -> same_value_Z z (f32_of_Z z) = true.
Proof.
  intros Hz.
  assert (H : forallb (fun z => same_value_Z z (f32_of_Z z)) (seqZ 0 256) = true)
    by (vm_compute; reflexivity).
  rewrite forallb_forall in H. apply H, list_elem_of_In, elem_of_seqZ. lia.
Qed.

Lemma as_float32_uint8 x : is_uint8 x -> reproduces x (as_float32 x).
Proof.
  destruct x as [s b]. intros (l & Hl & Hr). simpl in Hl. subst b.
  split; [done|]. simpl. apply Forall2_fmap_r, Forall_Forall2_diag.
  eapply Forall_impl; [exact Hr|]. apply uint8_exact_in_float32.
Qed.

(** C7 (amended): for every list of host arrays and every device the round
    trip raises nothing and returns, for each array, its float32 version: the
    same shape, every element rounded to the nearest float32.  It reproduces
    float32 arrays bit for bit and uint8 arrays value for value; elements
    that float32 cannot hold are not reproduced. *)
Theorem round_trip_is_float32_cast (x : list ndarray) (dev : torch_device) :
  to_detach_cpu_numpy (to_torch_float_tensor x dev) = Ok (map as_float32 x) /\
  (Forall is_float32 x -> map as_float32 x = x) /\
  (Forall is_uint8 x -> Forall2 reproduces x (map as_float32 x)).
Proof.
  split; [|split].
  - rewrite to_torch_float_tensor_map. unfold to_detach_cpu_numpy.
    by rewrite to_detach_cpu_numpy_fold.
  - induction 1 as [|a l Ha _ IH]; simpl; [done|].
    by rewrite as_float32_id, IH.
  - intros Hx. apply Forall2_fmap_r, Forall_Forall2_diag.
    eapply Forall_impl; [exact Hx|]. apply as_float32_uint8.
Qed.

(** C7 as stated fails: the int64 value 16777217 = 2^24 + 1 comes back as
    the float32 16777216 on every device. *)
Lemma round_trip_loses_int64 :
  let x := [ {| np_shape := [1]; np_data := Int64Buf [16777217%Z] |} ] in
  let y := [ {| np_shape := [1];
                np_data := Float32Buf [S754_finite false 8388608 1] |} ] in
  to_detach_cpu_numpy (to_torch_float_tensor x cpu) = Ok y /\
  ~ Forall2 reproduces x y.
Proof.
  intros x y. split; [reflexivity|].
  intros H. apply Forall2_cons_1 in H as [[_ H] _]. simpl in H.
  apply Forall2_cons_1 in H as [H _]. vm_compute in H. discriminate.
Qed.

Example round_trip_loses_float64 :
  same_value_float (S754_finite false 7205759403792794 (-56))
                   (f32_of_float (S754_finite false 7205759403792794 (-56))) = false.
Proof. vm_compute. reflexivity. Qed.

(** ** [select_action] *)

Lemma argmax_from_spec (pre l : list Z) (best_i : nat) (best : Z) :
  pre !! best_i = Some best ->
  (forall j w, pre !! j = Some w -> (w <= best)%Z) ->
  (forall j w, j < best_i -> pre !! j = Some w -> (w < best)%Z) ->
  first_max_index (pre ++ l) (argmax_from best_i best (length pre) l).
Proof.
  revert pre best_i best.
  induction l as [|v l IH]; intros pre best_i best Hbest Hmax Hfirst; simpl.
  - rewrite app_nil_r. by exists best.
  - replace (pre ++ v :: l) with ((pre ++ [v]) ++ l) by (by rewrite <- app_assoc).
    replace (S (length pre)) with (length (pre ++ [v]))
      by (rewrite length_app; simpl; lia).
    pose proof (lookup_lt_Some _ _ _ Hbest) as Hlt.
    destruct (Z.ltb_spec best v) as [Hv|Hv]; apply IH.
    + by rewrite lookup_app_r, Nat.sub_diag by lia.
    + intros j w [Hj|[-> [= ->]]]%lookup_snoc_Some; [|lia].
      destruct Hj as [_ Hj]. apply Hmax in Hj. lia.
    + intros j w Hj Hw. rewrite lookup_app_l in Hw by lia.
      apply Hmax in Hw. lia.
    + by rewrite lookup_app_l.
    + intros j w [[_ Hj]|[-> [= ->]]]%lookup_snoc_Some; [by eapply Hmax|lia].
    + intros j w Hj Hw. rewrite lookup_app_l in Hw by lia. by eapply Hfirst.
Qed.

Lemma np_argmax_spec (l : list Z) :
  l <> [] -> exists i, np_argmax l = Ok i /\ first_max_index l i.
Proof.
  destruct l as [|v l]; [done|]. intros _. eexists. split; [done|].
  apply (argmax_from_spec [v] l 0 v); [done| |intros; lia].
  intros [|j] w; [by intros [= ->]|done].
Qed.

Lemma mapM_result_ok {A B} (f : A -> result B) (g : A -> B) (l : list A) :
  (forall a, f a = Ok (g a)) -> mapM f l = Ok (map g l).
Proof.
  intros Hf. induction l as [|a l IH]; [done|].
  simpl. rewrite Hf. simpl. by rewrite IH.
Qed.

Section SelectActionFacts.
Context {F : Type} {A : Arith F} {S : Sampler F}.

Lemma weights_ok visit_counts temperature :
  fis_zero temperature = false ->
  mapM (fun visit_count_i =>
          inv ← py_reciprocal temperature;
          Ok (fpow (of_int visit_count_i) inv)) visit_counts
  = Ok (weights visit_counts temperature).
Proof.
  intros Ht. apply mapM_result_ok. intros v.
  unfold py_reciprocal. by rewrite Ht.
Qed.

Lemma weights_zero_temperature visit_counts temperature :
  visit_counts <> [] -> fis_zero temperature = true ->
  mapM (fun visit_count_i =>
          inv ← py_reciprocal temperature;
          Ok (fpow (of_int visit_count_i) inv)) visit_counts
  = Raise ZeroDivisionError.
Proof.
  intros Hne Ht. destruct visit_counts as [|v l]; [done|].
  simpl. unfold py_reciprocal. by rewrite Ht.
Qed.

(** What [select_action] returns when the temperature is not zero. *)
Lemma select_action_nonzero visit_counts temperature deterministic g :
  fis_zero temperature = false ->
  select_action visit_counts temperature deterministic g
  = let p := probabilities visit_counts temperature in
    let r := if deterministic then (np_argmax visit_counts, g)
             else np_random_choice (length visit_counts) p g in
    (action_pos ← r.1; Ok (action_pos, entropy p 2), r.2).
Proof.
  intros Ht. unfold select_action. rewrite weights_ok by done.
  fold (probabilities visit_counts temperature).
  simpl. by destruct (if deterministic then _ else _).
Qed.

Lemma select_action_deterministic visit_counts temperature g :
  fis_zero temperature = false -> visit_counts <> [] ->
  exists i,
    select_action visit_counts temperature true g
    = (Ok (i, entropy (probabilities visit_counts temperature) 2), g)
    /\ first_max_index visit_counts i.
Proof.
  intros Ht Hne. destruct (np_argmax_spec visit_counts Hne) as (i & Hi & Hmax).
  exists i. split; [|done].
  rewrite select_action_nonzero by done. simpl. by rewrite Hi.
Qed.

(** The entropy returned does not depend on the branch taken, on the state
    of the generator or on the index drawn. *)
Lemma select_action_entropy_value visit_counts temperature deterministic g a e :
  fis_zero temperature = false ->
  (select_action visit_counts temperature deterministic g).1 = Ok (a, e) ->
  e = entropy (probabilities visit_counts temperature) 2.
Proof.
  intros Ht. rewrite select_action_nonzero by done. simpl.
  destruct (if deterministic then _ else _) as [[i|err] g']; simpl; [|done].
  by intros [= _ <-].
Qed.

End SelectActionFacts.

(** *** In binary64 arithmetic *)

Lemma b64_positive_not_zero t : SFltb (S754_zero false) t = true -> b64_is_zero t = false.
Proof. by destruct t. Qed.

(** C2: for every sequence of non-negative visit counts with a positive
    entry and every positive temperature, the deterministic call returns the
    index of the maximum visit count, the first one on ties. *)
Theorem select_action_deterministic_argmax
    (L : libm) (S : Sampler spec_float) (visit_counts : list Z)
    (temperature : spec_float) (g : rng) :
  Forall (fun v => 0 <= v)%Z visit_counts ->
  Exists (fun v => 0 < v)%Z visit_counts ->
  SFltb (S754_zero false) temperature = true ->
  exists i e,
    select_action (A := binary64 L) visit_counts temperature true g = (Ok (i, e), g) /\
    first_max_index visit_counts i.
Proof.
  intros _ Hpos Ht.
  assert (visit_counts <> []) as Hne by (by destruct Hpos).
  destruct (select_action_deterministic (A := binary64 L) visit_counts temperature g)
    as (i & Hi & Hmax); [by apply b64_positive_not_zero|done|].
  eauto.
Qed.

Lemma select_action_deterministic_argmax_witness :
  SFltb (S754_zero false) (b64_of_Z 1) = true /\
  forall (L : libm) (S : Sampler spec_float) (g : rng),
  exists i e,
    select_action (A := binary64 L) [3; 7; 7; 0]%Z (b64_of_Z 1) true g = (Ok (i, e), g) /\
    first_max_index [3; 7; 7; 0]%Z i.
Proof.
  split; [reflexivity|]. intros L S g.
  apply (select_action_deterministic_argmax L S [3; 7; 7; 0]%Z (b64_of_Z 1) g).
  - repeat constructor; lia.
  - constructor. lia.
  - reflexivity.
Defined.

Example select_action_ties :
  forall (L : libm) (S : Sampler spec_float) (g : rng),
    (select_action (A := binary64 L) [3; 7; 7; 0]%Z (b64_of_Z 1) true g).1
    = Ok (1, entropy (A := binary64 L)
                 (probabilities (A := binary64 L) [3; 7; 7; 0]%Z (b64_of_Z 1)) 2).
Proof. intros. by rewrite select_action_nonzero. Qed.

(** All-zero counts. *)
Lemma argmax_from_le best_i best i l :
  Forall (fun v => v <= best)%Z l -> argmax_from best_i best i l = best_i.
Proof.
  revert i. induction l as [|v l IH]; intros i Hl; [done|].
  apply Forall_cons in Hl as [Hv Hl]. simpl.
  destruct (Z.ltb_spec best v); [lia|]. by apply IH.
Qed.

Lemma np_argmax_zeros l :
  l <> [] -> Forall (fun v => v = 0%Z) l -> np_argmax l = Ok 0.
Proof.
  destruct l as [|v l]; [done|]. intros _ [-> Hl]%Forall_cons. simpl.
  rewrite argmax_from_le; [done|]. eapply Forall_impl; [exact Hl|]. simpl. lia.
Qed.

Lemma b64_fold_add_nan l : fold_left (SFadd 53 1024) l S754_nan = S754_nan.
Proof. induction l as [|x l IH]; [done|]. simpl. exact IH. Qed.

Lemma b64_fold_add_zeros {A} (l : list A) :
  fold_left (SFadd 53 1024) (map (fun _ => S754_zero false) l) (S754_zero false)
  = S754_zero false.
Proof. induction l as [|x l IH]; [done|]. simpl. exact IH. Qed.

Lemma b64_div_nan_r x : SFdiv 53 1024 x S754_nan = S754_nan.
Proof. by destruct x. Qed.

Lemma b64_np_sum_nan L {A} (l : list A) :
  l <> [] -> np_sum (A := binary64 L) (nan_list l) = S754_nan.
Proof. destruct l; [done|]. intros _. simpl. apply b64_fold_add_nan. Qed.

Lemma b64_entropy_nan L {A} (l : list A) base :
  l <> [] -> entropy (A := binary64 L) (nan_list l) base = S754_nan.
Proof.
  intros Hl. unfold entropy. rewrite b64_np_sum_nan by done.
  assert (Hq : map (fun p => fdiv (Arith := binary64 L)
                                  (fmul (Arith := binary64 L)
                                        (of_int (Arith := binary64 L) 1) p)
                                  S754_nan) (nan_list l) = nan_list l).
  { unfold nan_list. rewrite map_map. apply map_ext. intros _. apply b64_div_nan_r. }
  rewrite Hq.
  assert (Hv : map (fentr (Arith := binary64 L)) (nan_list l) = nan_list l).
  { unfold nan_list. by rewrite map_map. }
  rewrite Hv, b64_np_sum_nan by done. done.
Qed.

Lemma b64_pow_zero L y :
  SFltb (S754_zero false) y = true ->
  b64_pow L (b64_of_Z 0) y = S754_zero false.
Proof. destruct y as [|[]| |[] m e]; try discriminate; intros _; reflexivity. Qed.

Lemma b64_weights_zeros L (visit_counts : list Z) temperature :
  Forall (fun v => v = 0%Z) visit_counts ->
  SFltb (S754_zero false) (SFdiv 53 1024 (b64_of_Z 1) temperature) = true ->
  weights (A := binary64 L) visit_counts temperature
  = map (fun _ => S754_zero false) visit_counts.
Proof.
  intros Hz Hinv. unfold weights. apply map_ext_Forall.
  eapply Forall_impl; [exact Hz|]. intros v ->. by apply b64_pow_zero.
Qed.

Lemma b64_probabilities_zeros L (visit_counts : list Z) temperature :
  Forall (fun v => v = 0%Z) visit_counts ->
  SFltb (S754_zero false) (SFdiv 53 1024 (b64_of_Z 1) temperature) = true ->
  probabilities (A := binary64 L) visit_counts temperature = nan_list visit_counts.
Proof.
  intros Hz Hinv. unfold probabilities.
  rewrite b64_weights_zeros by done.
  unfold py_sum. simpl fadd. simpl of_int.
  change (b64_of_Z 0) with (S754_zero false).
  rewrite b64_fold_add_zeros. unfold nan_list. by rewrite map_map.
Qed.

(** C3 (amended): with all-zero visit counts and a temperature whose
    reciprocal is positive, nothing in [select_action] raises: the
    probabilities are all NaN, the deterministic call returns index 0 with a
    NaN entropy, and the stochastic call hands the NaN probabilities to the
    sampler and fails only if the sampler rejects them. *)
Theorem select_action_all_zero_counts
    (L : libm) (S : Sampler spec_float) (visit_counts : list Z)
    (temperature : spec_float) (g : rng) :
  visit_counts <> [] ->
  Forall (fun v => v = 0%Z) visit_counts ->
  b64_is_zero temperature = false ->
  SFltb (S754_zero false) (SFdiv 53 1024 (b64_of_Z 1) temperature) = true ->
  select_action (A := binary64 L) visit_counts temperature true g
    = (Ok (0, S754_nan), g) /\
  select_action (A := binary64 L) visit_counts temperature false g
    = let r := np_random_choice (length visit_counts) (nan_list visit_counts) g in
      (action_pos ← r.1; Ok (action_pos, S754_nan), r.2).
Proof.
  intros Hne Hz Ht Hinv.
  rewrite !(select_action_nonzero (A := binary64 L)) by done.
  rewrite b64_probabilities_zeros by done. cbv zeta.
  rewrite b64_entropy_nan by done. simpl.
  by rewrite np_argmax_zeros.
Qed.

Lemma select_action_all_zero_counts_witness :
  fold_right Z.add 0%Z [0; 0; 0]%Z = 0%Z /\
  forall (L : libm) (S : Sampler spec_float) (g : rng),
    select_action (A := binary64 L) [0; 0; 0]%Z (b64_of_Z 1) true g
    = (Ok (0, S754_nan), g).
Proof.
  split; [reflexivity|]. intros L S g.
  apply (select_action_all_zero_counts L S [0; 0; 0]%Z (b64_of_Z 1) g).
  - discriminate.
  - repeat constructor.
  - reflexivity.
  - vm_compute. reflexivity.
Defined.

(** C3 as stated fails: on the all-zero counts [0; 0] the default call
    (temperature 1, deterministic) returns index 0 and a NaN entropy. *)
Lemma select_action_all_zero_counts_no_error :
  fold_right Z.add 0%Z [0; 0]%Z = 0%Z /\
  forall (L : libm) (S : Sampler spec_float) (g : rng),
    select_action (A := binary64 L) [0; 0]%Z (b64_of_Z 1) true g
    = (Ok (0, S754_nan), g).
Proof. split; [reflexivity|]. intros L S g. reflexivity. Qed.

(** C5 (amended): on a non-empty sequence, a temperature equal to zero
    makes [1 / temperature] raise [ZeroDivisionError], in both branches. *)
Theorem select_action_zero_temperature
    {F : Type} (A : Arith F) (S : Sampler F) (visit_counts : list Z)
    (temperature : F) (deterministic : bool) (g : rng) :
  visit_counts <> [] -> fis_zero temperature = true ->
  select_action visit_counts temperature deterministic g
  = (Raise ZeroDivisionError, g).
Proof.
  intros Hne Ht. unfold select_action.
  by rewrite weights_zero_temperature.
Qed.

Lemma select_action_zero_temperature_witness :
  b64_is_zero (S754_zero false) = true /\
  forall (L : libm) (S : Sampler spec_float) (g : rng),
    select_action (A := binary64 L) [1; 2]%Z (S754_zero false) false g
    = (Raise ZeroDivisionError, g).
Proof.
  split; [reflexivity|]. intros L S g.
  apply (select_action_zero_temperature (binary64 L) S); [discriminate | reflexivity].
Defined.

(** C5 as stated fails: the temperature -1 is accepted, and the
    deterministic call on [1; 2] returns index 1. *)
Lemma select_action_negative_temperature_accepted :
  SFltb (b64_of_Z (-1)) (S754_zero false) = true /\
  forall (L : libm) (S : Sampler spec_float) (g : rng),
    exists e, select_action (A := binary64 L) [1; 2]%Z (b64_of_Z (-1)) true g
              = (Ok (1, e), g).
Proof.
  split; [reflexivity|]. intros L S g. eexists.
  by rewrite (select_action_nonzero (A := binary64 L)).
Qed.

(** *** In exact real arithmetic *)

Section ExactReal.
Local Open Scope R_scope.
Existing Instance exact_real.

Lemma fold_left_Rplus l a : fold_left Rplus l a = a + Rsum l.
Proof.
  revert a. induction l as [|x l IH]; intros a; simpl; [lra|].
  rewrite IH. unfold Rsum. simpl. lra.
Qed.

Lemma py_sum_R l : py_sum (A := exact_real) l = Rsum l.
Proof. unfold py_sum. rewrite fold_left_Rplus. simpl. lra. Qed.

Lemma np_sum_R l : np_sum (A := exact_real) l = Rsum l.
Proof.
  destruct l as [|x l]; [done|]. unfold np_sum. by rewrite fold_left_Rplus.
Qed.

Lemma Rsum_IZR l : Rsum (map IZR l) = IZR (fold_right Z.add 0%Z l).
Proof.
  induction l as [|v l IH]; [done|].
  unfold Rsum in *. simpl. rewrite IH. by rewrite plus_IZR.
Qed.

Lemma Rsum_div l c : Rsum (map (fun x => x / c) l) = Rsum l / c.
Proof.
  induction l as [|x l IH]; unfold Rsum in *; simpl; [lra|].
  rewrite IH. lra.
Qed.

Lemma R_pow_1 x : 0 <= x -> R_pow x (1 / 1) = x.
Proof.
  intros Hx. unfold R_pow. replace (1 / 1) with 1 by lra.
  destruct (Req_dec_T x 0) as [->|Hx0].
  - destruct (Req_dec_T 1 0); [lra|done].
  - apply Rpower_1. lra.
Qed.

Lemma total_positive (visit_counts : list Z) :
  Forall (fun v => 0 <= v)%Z visit_counts ->
  Exists (fun v => 0 < v)%Z visit_counts ->
  (0 < fold_right Z.add 0 visit_counts)%Z.
Proof.
  intros Hnn Hpos.
  assert (Hge : forall l, Forall (fun v => 0 <= v)%Z l -> (0 <= fold_right Z.add 0 l)%Z).
  { induction 1; simpl; lia. }
  induction Hpos as [v l Hv|v l _ IH];
    apply Forall_cons in Hnn as [Hv0 Hl]; simpl.
  - specialize (Hge l Hl). lia.
  - specialize (IH Hl). lia.
Qed.

Lemma weights_R (visit_counts : list Z) :
  Forall (fun v => 0 <= v)%Z visit_counts ->
  weights (A := exact_real) visit_counts 1 = map IZR visit_counts.
Proof.
  intros Hnn. unfold weights. apply map_ext_Forall.
  eapply Forall_impl; [exact Hnn|]. intros v Hv. simpl.
  apply R_pow_1. by apply IZR_le.
Qed.

Lemma probabilities_R (visit_counts : list Z) :
  Forall (fun v => 0 <= v)%Z visit_counts ->
  probabilities (A := exact_real) visit_counts 1 = normalized visit_counts.
Proof.
  intros Hnn. unfold probabilities, normalized.
  rewrite weights_R, py_sum_R, Rsum_IZR by done. by rewrite map_map.
Qed.

Lemma normalized_sum (visit_counts : list Z) :
  (0 < fold_right Z.add 0 visit_counts)%Z -> Rsum (normalized visit_counts) = 1.
Proof.
  intros Hpos. unfold normalized.
  rewrite <- (map_map IZR (fun x => x / _)), Rsum_div, Rsum_IZR.
  apply IZR_lt in Hpos. field. lra.
Qed.

Lemma normalized_nonneg (visit_counts : list Z) :
  Forall (fun v => 0 <= v)%Z visit_counts ->
  (0 < fold_right Z.add 0 visit_counts)%Z ->
  Forall (fun p => 0 <= p) (normalized visit_counts).
Proof.
  intros Hnn Hpos. unfold normalized. apply Forall_map.
  eapply Forall_impl; [exact Hnn|]. intros v Hv. simpl.
  apply IZR_le in Hv. apply IZR_lt in Hpos.
  apply Rmult_le_pos; [done|]. left. by apply Rinv_0_lt_compat.
Qed.

Lemma ln_2_pos : 0 < ln 2.
Proof. rewrite <- ln_1. apply ln_increasing; lra. Qed.

Lemma R_entr_nonneg p : 0 <= p -> R_entr p = - (p * ln p).
Proof.
  intros Hp. unfold R_entr. destruct (Rlt_dec 0 p); [lra|].
  replace p with 0 by lra. lra.
Qed.

Lemma entr_sum_R (l : list R) :
  Forall (fun x => 0 <= x) l ->
  Rsum (map (fun x => R_entr (1 * x / 1)) l) / ln 2
  = - Rsum (map (fun x => x * log2R x) l).
Proof.
  pose proof ln_2_pos as Hln.
  induction 1 as [|x l Hx Hl IH]; unfold Rsum in *; simpl; [lra|].
  replace (1 * x / 1) with x by lra.
  rewrite R_entr_nonneg by done.
  rewrite Rdiv_plus_distr, IH. unfold log2R. lra.
Qed.

Lemma entropy_R (p : list R) :
  Forall (fun x => 0 <= x) p -> Rsum p = 1 ->
  entropy (A := exact_real) p 2 = shannon_entropy2 p.
Proof.
  intros Hnn Hsum. unfold entropy. rewrite !np_sum_R, Hsum. simpl.
  rewrite map_map. by apply entr_sum_R.
Qed.

Lemma R_one_not_zero : fis_zero (Arith := exact_real) 1 = false.
Proof. simpl. destruct (Req_dec_T 1 0); [lra|done]. Qed.

(** C4: for non-negative visit counts with a positive entry and
    temperature 1, the entropy returned is, in exact arithmetic, the base-2
    Shannon entropy of the normalised counts, in the deterministic branch
    and, in the stochastic branch, whatever index the sampler draws; and in
    binary64 arithmetic any two calls return the same entropy, whatever the
    flags, the states of the generator and the indices drawn. *)
Theorem select_action_entropy_is_shannon
    (S : Sampler R) (visit_counts : list Z) (g : rng) :
  Forall (fun v => 0 <= v)%Z visit_counts ->
  Exists (fun v => 0 < v)%Z visit_counts ->
  let H := shannon_entropy2 (normalized visit_counts) in
  (exists i, select_action (A := exact_real) visit_counts 1 true g = (Ok (i, H), g) /\
             first_max_index visit_counts i) /\
  select_action (A := exact_real) visit_counts 1 false g
  = (let r := np_random_choice (length visit_counts) (normalized visit_counts) g in
     (action_pos ← r.1; Ok (action_pos, H), r.2)) /\
  (forall (L : libm) (S64 : Sampler spec_float) (g1 g2 : rng)
          (deterministic1 deterministic2 : bool) a1 a2 e1 e2,
     (select_action (A := binary64 L) visit_counts (b64_of_Z 1) deterministic1 g1).1
       = Ok (a1, e1) ->
     (select_action (A := binary64 L) visit_counts (b64_of_Z 1) deterministic2 g2).1
       = Ok (a2, e2) ->
     e1 = e2).
Proof.
  intros Hnn Hpos H.
  pose proof (total_positive _ Hnn Hpos) as Htot.
  assert (visit_counts <> []) as Hne by (by destruct Hpos).
  assert (HH : entropy (A := exact_real)
                 (probabilities (A := exact_real) visit_counts 1) 2 = H).
  { rewrite probabilities_R by done.
    apply entropy_R; [by apply normalized_nonneg | by apply normalized_sum]. }
  split; [|split].
  - destruct (select_action_deterministic (A := exact_real) visit_counts 1 g)
      as (i & Hi & Hmax); [apply R_one_not_zero|done|].
    exists i. by rewrite Hi, HH.
  - rewrite (select_action_nonzero (A := exact_real)) by apply R_one_not_zero.
    cbv zeta. by rewrite HH, probabilities_R.
  - intros L S64 g1 g2 d1 d2 a1 a2 e1 e2 H1 H2.
    apply (select_action_entropy_value (A := binary64 L)) in H1, H2; [|done..].
    congruence.
Qed.

Lemma select_action_entropy_is_shannon_witness :
  Exists (fun v => 0 < v)%Z [2; 0; 6]%Z /\
  forall (S : Sampler R) (g : rng),
    let H := shannon_entropy2 (normalized [2; 0; 6]%Z) in
    exists i, select_action (A := exact_real) [2; 0; 6]%Z 1 true g = (Ok (i, H), g).
Proof.
  split; [constructor; lia|]. intros S g H.
  destruct (select_action_entropy_is_shannon S [2; 0; 6]%Z g) as [(i & Hi & _) _].
  - repeat constructor; lia.
  - constructor. lia.
  - by exists i.
Defined.
End ExactReal.

(** ** [negative_cosine_similarity] *)

Lemma broadcast_size_compatible a b :
  compatible a b ->
  exists n, broadcast_size a b = Ok n /\ n = (if b =? 1 then a else b) .
Proof.
  unfold compatible, broadcast_size. intros Hc.
  destruct (Nat.eqb_spec a b), (Nat.eqb_spec a 1), (Nat.eqb_spec b 1);
    eexists; split; try done; lia.
Qed.

Lemma broadcast_size_incompatible a b :
  ~ compatible a b -> broadcast_size a b = Raise RuntimeError.
Proof.
  unfold compatible, broadcast_size. intros Hc.
  destruct (Nat.eqb_spec a b), (Nat.eqb_spec a 1), (Nat.eqb_spec b 1);
    try done; exfalso; apply Hc; lia.
Qed.

Lemma broadcast_size_ok a b n :
  broadcast_size a b = Ok n -> (a = n \/ a = 1) /\ (b = n \/ b = 1).
Proof.
  unfold broadcast_size.
  destruct (Nat.eqb_spec a b), (Nat.eqb_spec a 1), (Nat.eqb_spec b 1);
    intros [= <-]; lia.
Qed.

Lemma broadcast_size_cases a b :
  (compatible a b /\ exists n, broadcast_size a b = Ok n) \/
  (~ compatible a b /\ broadcast_size a b = Raise RuntimeError).
Proof.
  unfold compatible, broadcast_size.
  destruct (Nat.eqb_spec a b), (Nat.eqb_spec a 1), (Nat.eqb_spec b 1);
    first [ left; split; [lia|by eexists] | right; split; [lia|done] ].
Qed.

Section CosineFacts.
Context {F : Type} {A : Arith F}.

Lemma wf_normalize (x : tensor2 F) eps : wf_tensor2 x -> wf_tensor2 (normalize x eps).
Proof.
  intros [Hr Hc]. split; simpl; [by rewrite length_map|].
  apply Forall_map. eapply Forall_impl; [exact Hc|].
  intros r Hlen. simpl. unfold normalize_row. by rewrite length_map.
Qed.

Lemma length_rows_expand r c (x : tensor2 F) :
  wf_tensor2 x -> nrows x = r \/ nrows x = 1 ->
  length (rows (expand r c x)) = r.
Proof.
  intros [Hr _] Hn. simpl. rewrite length_map.
  destruct (Nat.eqb_spec (nrows x) r); [lia|].
  destruct (rows x); [simpl in *; lia|]. by rewrite length_replicate.
Qed.

Lemma length_mul_broadcast (x1 x2 p : tensor2 F) :
  wf_tensor2 x1 -> wf_tensor2 x2 -> mul_broadcast x1 x2 = Ok p ->
  length (rows p) = nrows p.
Proof.
  intros Hw1 Hw2. unfold mul_broadcast.
  destruct (broadcast_size (nrows x1) (nrows x2)) as [r|] eqn:Hr; [|done].
  destruct (broadcast_size (ncols x1) (ncols x2)) as [c|] eqn:Hc; [|done].
  apply broadcast_size_ok in Hr as [H1 H2].
  pose proof (length_rows_expand r c x1 Hw1 H1) as E1.
  pose proof (length_rows_expand r c x2 Hw2 H2) as E2.
  simpl in *. intros [= <-]. simpl in *.
  rewrite length_zip_with, E1, E2. lia.
Qed.

End CosineFacts.

(** C9 (amended): [negative_cosine_similarity] is a function of its two
    arguments.  On two-dimensional inputs of equal shape (batch, dim) it
    succeeds and returns one scalar per batch row; on inputs whose sizes
    differ only where one of them is 1 it also succeeds, by broadcasting;
    it fails, with the [RuntimeError] of the product, exactly when some
    axis has two different sizes neither of which is 1. *)
Theorem negative_cosine_similarity_failure_modes
    {F : Type} (A : Arith F) (x1 x2 : tensor2 F) :
  wf_tensor2 x1 -> wf_tensor2 x2 ->
  (same_shape x1 x2 ->
     exists v, negative_cosine_similarity x1 x2 = Ok v /\ length v = nrows x1) /\
  (compatible (nrows x1) (nrows x2) -> compatible (ncols x1) (ncols x2) ->
     exists v, negative_cosine_similarity x1 x2 = Ok v /\
               length v = if nrows x2 =? 1 then nrows x1 else nrows x2) /\
  (~ (compatible (nrows x1) (nrows x2) /\ compatible (ncols x1) (ncols x2)) ->
     negative_cosine_similarity x1 x2 = Raise RuntimeError).
Proof.
  intros Hw1 Hw2.
  assert (Hcompat : compatible (nrows x1) (nrows x2) ->
                    compatible (ncols x1) (ncols x2) ->
     exists v, negative_cosine_similarity x1 x2 = Ok v /\
               length v = if nrows x2 =? 1 then nrows x1 else nrows x2).
  { intros Hr Hc. unfold negative_cosine_similarity.
    destruct (mul_broadcast (normalize x1 _) (normalize x2 _)) as [p|e] eqn:Hp.
    - pose proof (length_mul_broadcast _ _ _ (wf_normalize _ _ Hw1)
                    (wf_normalize _ _ Hw2) Hp) as Hlen.
      eexists. split; [done|].
      unfold sum_dim1. rewrite !length_map, Hlen.
      unfold mul_broadcast in Hp. simpl in Hp.
      destruct (broadcast_size_compatible _ _ Hr) as (r & Er & ->).
      destruct (broadcast_size_compatible _ _ Hc) as (c & Ec & ->).
      rewrite Er, Ec in Hp. simpl in Hp. by injection Hp as <-.
    - exfalso. unfold mul_broadcast in Hp. simpl in Hp.
      destruct (broadcast_size_compatible _ _ Hr) as (r & Er & _).
      destruct (broadcast_size_compatible _ _ Hc) as (c & Ec & _).
      rewrite Er, Ec in Hp. done. }
  split; [|split; [done|]].
  - intros [Hr Hc].
    destruct Hcompat as (v & Hv & Hlen); [by left..|].
    exists v. split; [done|]. rewrite Hlen. destruct (nrows x2 =? 1) eqn:E; [done|lia].
  - intros Hn. unfold negative_cosine_similarity, mul_broadcast. simpl.
    destruct (broadcast_size_cases (nrows x1) (nrows x2)) as [[Hr (r & ->)]|[_ ->]];
      [|done]. simpl.
    destruct (broadcast_size_cases (ncols x1) (ncols x2)) as [[Hc _]|[_ ->]];
      [|done]. by destruct Hn.
Qed.

Lemma negative_cosine_similarity_failure_modes_witness :
  let x := {| nrows := 2; ncols := 2;
              rows := [[b64_of_Z 3; b64_of_Z 4]; [b64_of_Z 0; b64_of_Z 0]] |} in
  wf_tensor2 x /\
  forall L : libm,
    exists v, negative_cosine_similarity (A := binary64 L) x x = Ok v /\ length v = 2.
Proof.
  intros x.
  assert (Hw : wf_tensor2 x) by (split; [reflexivity | repeat constructor]).
  split; [exact Hw|]. intros L.
  destruct (negative_cosine_similarity_failure_modes (binary64 L) x x Hw Hw) as [H _].
  apply H. split; reflexivity.
Defined.

(** C9 as stated fails: shapes (2, 1) and (1, 1) differ, and the call
    succeeds by broadcasting, with one scalar for each of the two rows. *)
Lemma negative_cosine_similarity_broadcasts :
  let x1 := {| nrows := 2; ncols := 1; rows := [[b64_of_Z 1]; [b64_of_Z 2]] |} in
  let x2 := {| nrows := 1; ncols := 1; rows := [[b64_of_Z 1]] |} in
  (wf_tensor2 x1 /\ wf_tensor2 x2 /\ ~ same_shape x1 x2) /\
  forall L : libm,
    negative_cosine_similarity (A := binary64 L) x1 x2
    = Ok [b64_of_Z (-1); b64_of_Z (-1)].
Proof.
  intros x1 x2. split.
  - split; [|split].
    + split; [reflexivity | repeat constructor].
    + split; [reflexivity | repeat constructor].
    + intros [H _]. discriminate H.
  - intros L. vm_compute. reflexivity.
Qed.

Example negative_cosine_similarity_self :
  negative_cosine_similarity (A := exact_real)
    {| nrows := 1; ncols := 2; rows := [[3%R; 4%R]] |}
    {| nrows := 1; ncols := 2; rows := [[3%R; 4%R]] |}
  = Ok [(-1)%R].
Proof.
  unfold negative_cosine_similarity, mul_broadcast, normalize. simpl.
  do 2 f_equal.
  replace (torch_sum [3 * 3; 4 * 4])%R with (5 * 5)%R
    by (unfold torch_sum; simpl; lra).
  rewrite sqrt_square by lra.
  rewrite Rmax_left by lra.
  unfold torch_sum. simpl. lra.
Qed.

(** ** [configure_optimizers] *)

(** *** The module tree *)

Lemma module_tree_ind (P : module -> Prop) :
  (forall c ps cs, Forall (fun nc => P nc.2) cs -> P (Module c ps cs)) ->
  forall m, P m.
Proof.
  intros HP. fix IH 1. intros [c ps cs]. apply HP.
  induction cs as [|[n ch] cs IHcs]; constructor; [apply IH | exact IHcs].
Qed.

Lemma flat_map_flat_map {A B C} (f : B -> list C) (g : A -> list B) (l : list A) :
  flat_map f (flat_map g l) = flat_map (fun a => flat_map f (g a)) l.
Proof.
  induction l as [|a l IH]; [done|]. simpl. by rewrite flat_map_app, IH.
Qed.

Lemma flat_map_ext_Forall {A B} (f g : A -> list B) (l : list A) :
  Forall (fun a => f a = g a) l -> flat_map f l = flat_map g l.
Proof. induction 1 as [|a l Ha _ IH]; [done|]. simpl. by rewrite Ha, IH. Qed.

(** The generator behind [named_parameters], before the memo. *)
Lemma all_parameters_table prefix m :
  flat_map (fun pm => own_parameters pm.1 pm.2) (named_modules prefix m)
  = map (fun e => (e.1, e.2.2)) (parameter_table prefix m).
Proof.
  revert prefix. induction m as [c ps cs IH] using module_tree_ind. intros prefix.
  simpl. rewrite map_app. f_equal.
  - unfold own_parameters. simpl. induction ps as [|[k [v|]] ps IHps]; simpl; [done| |done].
    by rewrite IHps.
  - rewrite flat_map_flat_map.
    induction IH as [|[n ch] cs Hch _ IHcs]; [done|].
    simpl. rewrite map_app, Hch. by rewrite IHcs.
Qed.

Lemma parameter_ids_prefix prefix m :
  map (fun e => param_id e.2.2) (parameter_table prefix m) = parameter_ids m.
Proof.
  unfold parameter_ids. generalize "" as prefix'. revert prefix.
  induction m as [c ps cs IH] using module_tree_ind. intros p1 p2.
  simpl. rewrite !map_app. f_equal.
  - induction ps as [|[k [v|]] ps IHps]; simpl; [done| |done]. by rewrite IHps.
  - induction IH as [|[n ch] cs Hch _ IHcs]; [done|].
    simpl. rewrite !map_app. by rewrite (Hch _ (join_name p2 n)), IHcs.
Qed.

Lemma remove_duplicate_NoDup memo (l : list (string * parameter)) :
  NoDup (map (fun e => param_id e.2) l) ->
  (forall e, e ∈ l -> param_id e.2 ∉ memo) ->
  remove_duplicate memo l = l.
Proof.
  revert memo. induction l as [|[name v] l IH]; intros memo Hnd Hmemo; [done|].
  simpl in *. apply NoDup_cons in Hnd as [Hv Hnd].
  destruct (decide (param_id v ∈ memo)) as [Hin|_].
  - exfalso. by apply (Hmemo (name, v)); [left|].
  - f_equal. apply IH; [done|]. intros e He.
    apply not_elem_of_union. split.
    + intros Hs%elem_of_singleton. apply Hv. rewrite <- Hs.
      apply list_elem_of_fmap. by exists e.
    + apply Hmemo. by right.
Qed.

Lemma named_parameters_table m :
  NoDup (parameter_ids m) ->
  named_parameters m = map (fun e => (e.1, e.2.2)) (parameter_table "" m).
Proof.
  intros Hnd. unfold named_parameters. rewrite all_parameters_table.
  apply remove_duplicate_NoDup; [|set_solver].
  rewrite map_map. exact Hnd.
Qed.

(** *** Names *)

Lemma string_app_assoc (a b c : string) : (a +:+ b) +:+ c = a +:+ (b +:+ c).
Proof.
  induction a as [|x a IH]; [done|].
  change (String x ((a +:+ b) +:+ c) = String x (a +:+ (b +:+ c))).
  by rewrite IH.
Qed.

Lemma list_ascii_of_string_app (a b : string) :
  list_ascii_of_string (a +:+ b) = list_ascii_of_string a ++ list_ascii_of_string b.
Proof.
  induction a as [|x a IH]; [done|].
  change (x :: list_ascii_of_string (a +:+ b)
          = x :: list_ascii_of_string a ++ list_ascii_of_string b).
  by rewrite IH.
Qed.

Lemma endswith_app (x k s : string) :
  length (list_ascii_of_string s) <= length (list_ascii_of_string k) ->
  endswith (x +:+ k) s = endswith k s.
Proof.
  unfold endswith. rewrite list_ascii_of_string_app, rev_app_distr.
  generalize (rev (list_ascii_of_string x)) as tl.
  rewrite <- (length_rev (list_ascii_of_string s)), <- (length_rev (list_ascii_of_string k)).
  generalize (rev (list_ascii_of_string s)) as p.
  generalize (rev (list_ascii_of_string k)) as q.
  induction q as [|b q IH]; intros p tl Hlen.
  - destruct p; [done|simpl in Hlen; lia].
  - destruct p as [|a p]; [done|]. simpl in *. rewrite IH by lia. done.
Qed.

(** A name that ends in [".weight"] does not end in any of the bias
    suffixes, whatever comes before. *)
Lemma endswith_weight_not_bias (x : string) :
  endswith (x +:+ "weight") "bias" = false /\
  endswith (x +:+ "weight") "lstm.bias_ih_l0" = false /\
  endswith (x +:+ "weight") "lstm.bias_hh_l0" = false.
Proof.
  unfold endswith. rewrite list_ascii_of_string_app, rev_app_distr. done.
Qed.

Lemma join_name_nil name : join_name "" name = name.
Proof. done. Qed.

Lemma join_name_cons prefix name :
  prefix <> "" -> join_name prefix name = prefix +:+ "." +:+ name.
Proof. unfold join_name. by destruct (String.eqb_spec prefix ""). Qed.

Lemma join_name_not_nil prefix name : name <> "" -> join_name prefix name <> "".
Proof.
  intros Hn. unfold join_name. destruct (String.eqb_spec prefix "") as [|Hp]; [done|].
  destruct prefix; [done|]. cbn. done.
Qed.

Lemma join_name_assoc prefix n r :
  n <> "" -> join_name (join_name prefix n) r = join_name prefix (join_name n r).
Proof.
  intros Hn. rewrite (join_name_cons (join_name prefix n)) by by apply join_name_not_nil.
  rewrite (join_name_cons n) by done.
  unfold join_name. destruct (String.eqb_spec prefix ""); [done|].
  by rewrite !string_app_assoc.
Qed.

(** Every full name ends with the parameter's own name. *)
Lemma join_name_suffix prefix k : exists x, join_name prefix k = x +:+ k.
Proof.
  unfold join_name. destruct (String.eqb_spec prefix "").
  - by exists "".
  - exists (prefix +:+ "."). by rewrite string_app_assoc.
Qed.

(** *** Supported models *)

Lemma supported_unfold c ps cs :
  supported (Module c ps cs)
  = if is_layer c then
      forallb (fun kv => String.eqb kv.1 "weight" || String.eqb kv.1 "bias") ps
      && match cs with [] => true | _ => false end
    else
      match ps with [] => true | _ => false end
      && forallb (fun nc => negb (String.eqb nc.1 "") && supported nc.2) cs.
Proof. done. Qed.

Lemma supported_layer c ps cs :
  supported (Module c ps cs) = true -> is_layer c = true ->
  cs = [] /\ Forall (fun kv => kv.1 = "weight" \/ kv.1 = "bias") ps.
Proof.
  rewrite supported_unfold. intros Hs Hl. rewrite Hl in Hs.
  apply andb_prop in Hs as [Hps Hcs]. split; [by destruct cs|].
  rewrite forallb_forall in Hps. apply Forall_forall. intros kv Hkv%list_elem_of_In.
  apply Hps in Hkv. apply orb_prop in Hkv as [H%String.eqb_eq|H%String.eqb_eq]; auto.
Qed.

Lemma supported_container c ps cs :
  supported (Module c ps cs) = true -> is_layer c = false ->
  ps = [] /\ Forall (fun nc => nc.1 <> "" /\ supported nc.2 = true) cs.
Proof.
  rewrite supported_unfold. intros Hs Hl. rewrite Hl in Hs.
  apply andb_prop in Hs as [Hps Hcs]. split; [by destruct ps|].
  rewrite forallb_forall in Hcs. apply Forall_forall. intros nc Hnc%list_elem_of_In.
  apply Hcs in Hnc. apply andb_prop in Hnc as [Hn Hsup]. split; [|done].
  intros Heq. rewrite Heq in Hn. done.
Qed.

(** *** The parameter table *)

Lemma elem_of_flat_map {A B} (f : A -> list B) (l : list A) (y : B) :
  y ∈ flat_map f l <-> exists x, x ∈ l /\ y ∈ f x.
Proof.
  rewrite list_elem_of_In, in_flat_map. split; intros (x & Hx & Hy); exists x;
    by rewrite ?list_elem_of_In in *.
Qed.

Lemma elem_of_own_entries prefix (c : module_class)
    (ps : list (string * option parameter))
    (e : string * (module_class * string * parameter)) :
  e ∈ flat_map (fun kv : string * option parameter => match kv.2 with
                          | Some v => [(join_name prefix kv.1, (c, kv.1, v))]
                          | None => []
                          end) ps
  <-> exists k v, (k, Some v) ∈ ps /\ e = (join_name prefix k, (c, k, v)).
Proof.
  rewrite elem_of_flat_map. split.
  - intros ([k [v|]] & Hkv & He); simpl in He; [|by apply elem_of_nil in He].
    apply list_elem_of_singleton in He. eauto.
  - intros (k & v & Hkv & ->). exists (k, Some v). split; [done|]. simpl. by left.
Qed.

Lemma elem_of_parameter_table prefix c ps cs e :
  e ∈ parameter_table prefix (Module c ps cs)
  <-> (exists k v, (k, Some v) ∈ ps /\ e = (join_name prefix k, (c, k, v)))
      \/ (exists nc, nc ∈ cs /\ e ∈ parameter_table (join_name prefix nc.1) nc.2).
Proof.
  simpl. by rewrite elem_of_app, elem_of_own_entries, elem_of_flat_map.
Qed.

Lemma elem_of_named_modules prefix c ps cs mn m' :
  (mn, m') ∈ named_modules prefix (Module c ps cs)
  <-> (mn, m') = (prefix, Module c ps cs)
      \/ (exists nc, nc ∈ cs /\ (mn, m') ∈ named_modules (join_name prefix nc.1) nc.2).
Proof. simpl. by rewrite elem_of_cons, elem_of_flat_map. Qed.

(** The table of a submodule is part of the table of the model. *)
Lemma named_modules_table prefix m mn m' e :
  (mn, m') ∈ named_modules prefix m ->
  e ∈ parameter_table mn m' -> e ∈ parameter_table prefix m.
Proof.
  revert prefix. induction m as [c ps cs IH] using module_tree_ind.
  intros prefix Hin He. apply elem_of_named_modules in Hin.
  destruct Hin as [Heq|(nc & Hnc & Hin)].
  { injection Heq as -> ->. done. }
  apply elem_of_parameter_table. right. exists nc. split; [done|].
  rewrite Forall_forall in IH. by eapply IH.
Qed.

(** Every entry of the table has an owner among the modules. *)
Lemma parameter_table_owner prefix m e :
  e ∈ parameter_table prefix m ->
  exists mn m', (mn, m') ∈ named_modules prefix m /\
    e.2.1.1 = m_class m' /\ (e.2.1.2, Some e.2.2) ∈ m_parameters m' /\
    e.1 = join_name mn e.2.1.2.
Proof.
  revert prefix. induction m as [c ps cs IH] using module_tree_ind.
  intros prefix [(k & v & Hkv & ->)|(nc & Hnc & Hin)]%elem_of_parameter_table.
  - exists prefix, (Module c ps cs). split; [|done].
    apply elem_of_named_modules. by left.
  - rewrite Forall_forall in IH.
    destruct (IH nc Hnc _ Hin) as (mn & m' & Hm & Hrest).
    exists mn, m'. split; [|done]. apply elem_of_named_modules. right. eauto.
Qed.

Lemma named_modules_supported prefix m mn m' :
  supported m = true -> (mn, m') ∈ named_modules prefix m -> supported m' = true.
Proof.
  revert prefix. induction m as [c ps cs IH] using module_tree_ind.
  intros prefix Hs [[= -> ->]|(nc & Hnc & Hin)]%elem_of_named_modules; [done|].
  destruct (is_layer c) eqn:Hl.
  - apply supported_layer in Hs as [-> _]; [|done]. by apply elem_of_nil in Hnc.
  - apply supported_container in Hs as [_ Hcs]; [|done].
    rewrite Forall_forall in IH, Hcs.
    eapply IH; [done| |done]. by apply Hcs.
Qed.

Lemma named_modules_ids prefix m mn m' :
  NoDup (parameter_ids m) -> (mn, m') ∈ named_modules prefix m ->
  NoDup (parameter_ids m').
Proof.
  revert prefix. induction m as [c ps cs IH] using module_tree_ind.
  intros prefix Hnd [[= -> ->]|(nc & Hnc & Hin)]%elem_of_named_modules; [done|].
  rewrite Forall_forall in IH.
  eapply IH; [done| |done].
  unfold parameter_ids in Hnd. simpl in Hnd. rewrite map_app in Hnd.
  apply NoDup_app in Hnd as (_ & _ & Hnd). clear -Hnd Hnc.
  induction cs as [|nc' cs IHcs]; [by apply elem_of_nil in Hnc|].
  simpl in Hnd. rewrite map_app in Hnd. apply NoDup_app in Hnd as (Hhd & _ & Htl).
  apply elem_of_cons in Hnc as [->|Hnc]; [|by apply IHcs].
  by rewrite parameter_ids_prefix in Hhd.
Qed.

(** In a supported model the table under a prefix is the table under the
    empty prefix with every name prefixed. *)
Lemma parameter_table_prefix prefix m :
  supported m = true ->
  parameter_table prefix m
  = map (fun e => (join_name prefix e.1, e.2)) (parameter_table "" m).
Proof.
  revert prefix. induction m as [c ps cs IH] using module_tree_ind.
  intros prefix Hs. destruct (is_layer c) eqn:Hl.
  - apply supported_layer in Hs as [-> _]; [|done]. simpl. rewrite !app_nil_r.
    induction ps as [|[k [v|]] ps IHps]; simpl; [done| |done]. by rewrite IHps.
  - apply supported_container in Hs as [-> Hcs]; [|done]. simpl.
    induction cs as [|[n ch] cs IHcs]; [done|].
    apply Forall_cons in IH as [IHch IH]. apply Forall_cons in Hcs as [[Hn Hch] Hcs].
    simpl in *. rewrite map_app, <- IHcs by done. f_equal.
    rewrite join_name_nil.
    rewrite (IHch (join_name prefix n)), (IHch n) by done.
    rewrite map_map. apply map_ext. intros e. simpl.
    by rewrite join_name_assoc.
Qed.

(** *** The classification loop *)

Lemma classify_parameter_bucket mn m pn D N :
  classify_parameter mn m pn (D, N)
  = match bucket (m_class m) pn with
    | Some true => ({[join_name mn pn]} ∪ D, N)
    | Some false => (D, {[join_name mn pn]} ∪ N)
    | None => (D, N)
    end.
Proof.
  unfold classify_parameter, bucket, join_name.
  destruct (String.eqb mn ""); simpl; repeat case_match; done.
Qed.

Lemma bucket_bias c : bucket c "bias" = Some false.
Proof. done. Qed.

Lemma bucket_layer_weight c :
  is_layer c = true -> bucket c "weight" = Some (whitelist_weight_modules c).
Proof. by destruct c. Qed.

Lemma bucket_container c pn b :
  is_layer c = false -> bucket c pn = Some b ->
  b = false /\
  endswith pn "bias" || endswith pn "lstm.bias_ih_l0"
    || endswith pn "lstm.bias_hh_l0" = true.
Proof.
  unfold is_layer, bucket. intros [Hw Hb]%orb_false_elim.
  rewrite Hw, Hb, !andb_false_r. by case_match; intros [= <-].
Qed.

(** The sets after the inner loop over [l]. *)
Lemma inner_loop mn m (l : list (string * parameter)) D N :
  exists D' N',
    fold_left (fun sets pnp => classify_parameter mn m pnp.1 sets) l (D, N) = (D', N') /\
    (forall x, x ∈ D' <-> x ∈ D \/
       exists pnp, pnp ∈ l /\ bucket (m_class m) pnp.1 = Some true /\ x = join_name mn pnp.1) /\
    (forall x, x ∈ N' <-> x ∈ N \/
       exists pnp, pnp ∈ l /\ bucket (m_class m) pnp.1 = Some false /\ x = join_name mn pnp.1).
Proof.
  revert D N. induction l as [|pnp l IH]; intros D N; cbn [fold_left].
  - exists D, N. split; [done|]. split; intros x; set_solver.
  - rewrite classify_parameter_bucket.
    destruct (bucket (m_class m) pnp.1) as [[]|] eqn:Hb;
      edestruct IH as (D' & N' & -> & HD & HN); exists D', N'; (split; [done|]);
      split; intros x; rewrite ?HD, ?HN; set_solver.
Qed.

(** The sets after both loops. *)
Lemma outer_loop (ms : list (string * module)) D N :
  exists D' N',
    fold_left
      (fun sets mnm =>
         fold_left (fun sets pnp => classify_parameter mnm.1 mnm.2 pnp.1 sets)
                   (named_parameters mnm.2) sets) ms (D, N) = (D', N') /\
    (forall x, x ∈ D' <-> x ∈ D \/
       exists mnm pnp, mnm ∈ ms /\ pnp ∈ named_parameters mnm.2 /\
         bucket (m_class mnm.2) pnp.1 = Some true /\ x = join_name mnm.1 pnp.1) /\
    (forall x, x ∈ N' <-> x ∈ N \/
       exists mnm pnp, mnm ∈ ms /\ pnp ∈ named_parameters mnm.2 /\
         bucket (m_class mnm.2) pnp.1 = Some false /\ x = join_name mnm.1 pnp.1).
Proof.
  revert D N. induction ms as [|mnm ms IH]; intros D N; cbn [fold_left].
  - exists D, N. split; [done|]. split; intros x; set_solver.
  - destruct (inner_loop mnm.1 mnm.2 (named_parameters mnm.2) D N)
      as (D1 & N1 & -> & HD1 & HN1).
    destruct (IH D1 N1) as (D' & N' & -> & HD & HN). exists D', N'.
    split; [done|]. split; intros x; rewrite ?HD, ?HN, ?HD1, ?HN1; set_solver.
Qed.

(** *** Supported models: the loop computes the table's buckets *)

Lemma supported_owner m k v :
  supported m = true -> (k, Some v) ∈ m_parameters m ->
  is_layer (m_class m) = true /\ (k = "weight" \/ k = "bias") /\ m_modules m = [].
Proof.
  destruct m as [c ps cs]. simpl. intros Hs Hk.
  destruct (is_layer c) eqn:Hl.
  - apply supported_layer in Hs as [-> Hps]; [|done].
    rewrite Forall_forall in Hps. split; [done|]. split; [|done]. apply (Hps _ Hk).
  - apply supported_container in Hs as [-> _]; [|done]. by apply elem_of_nil in Hk.
Qed.

Lemma elem_of_layer_table c ps e :
  e ∈ parameter_table "" (Module c ps [])
  <-> exists k v, (k, Some v) ∈ ps /\ e = (k, (c, k, v)).
Proof.
  rewrite elem_of_parameter_table. split.
  - intros [H|(nc & Hnc & _)]; [done|by apply elem_of_nil in Hnc].
  - by left.
Qed.

Lemma decayed_bucket c k v :
  is_layer c = true -> k = "weight" \/ k = "bias" ->
  bucket c k = Some (decayed (c, k, v)).
Proof.
  intros Hl [->| ->]; unfold decayed; simpl.
  - by rewrite bucket_layer_weight, andb_true_r.
  - by rewrite bucket_bias, andb_false_r.
Qed.

Lemma elem_of_named_parameters m pnp :
  NoDup (parameter_ids m) ->
  pnp ∈ named_parameters m
  <-> exists e, e ∈ parameter_table "" m /\ pnp = (e.1, e.2.2).
Proof.
  intros Hnd. rewrite named_parameters_table by done.
  rewrite list_elem_of_fmap. split; intros (e & H1 & H2); eauto.
Qed.

Lemma events_table model x b :
  supported model = true -> NoDup (parameter_ids model) ->
  (exists mnm pnp, mnm ∈ named_modules "" model /\ pnp ∈ named_parameters mnm.2 /\
     bucket (m_class mnm.2) pnp.1 = Some b /\ x = join_name mnm.1 pnp.1)
  <-> (exists e, e ∈ parameter_table "" model /\ decayed e.2 = b /\ e.1 = x).
Proof.
  intros Hs Hnd. split.
  - intros ([mn m'] & pnp & Hm & Hp & Hb & ->). simpl in *.
    pose proof (named_modules_supported _ _ _ _ Hs Hm) as Hs'.
    pose proof (named_modules_ids _ _ _ _ Hnd Hm) as Hnd'.
    apply elem_of_named_parameters in Hp as (e & He & ->); [|done]. simpl in *.
    exists (join_name mn e.1, e.2). split; [|split; [|done]].
    { eapply named_modules_table; [done|].
      rewrite parameter_table_prefix by done.
      apply list_elem_of_fmap. by exists e. }
    simpl.
    destruct (parameter_table_owner _ _ _ He) as (mn2 & m2 & Hm2 & Hc2 & Hk2 & Hn2).
    pose proof (named_modules_supported _ _ _ _ Hs' Hm2) as Hs2.
    destruct (supported_owner _ _ _ Hs2 Hk2) as (Hl2 & Hkey & _).
    destruct e as [name [[c k] v]]. simpl in *. subst c.
    destruct (is_layer (m_class m')) eqn:Hl.
    + (* the module is a layer: it is the owner itself *)
      destruct m' as [c' ps' cs']. simpl in *.
      apply supported_layer in Hs' as [-> _]; [|done].
      apply elem_of_layer_table in He as (k' & v' & _ & Heq).
      simplify_eq.
      match goal with H : k = join_name _ k |- _ => rewrite <- H in Hb end.
      rewrite (decayed_bucket _ _ v') in Hb by done. by injection Hb.
    + (* a container: only the bias suffixes reach a bucket *)
      apply bucket_container in Hb as [-> Hsuffix]; [|done].
      unfold decayed. simpl. destruct Hkey as [->| ->]; [|by rewrite andb_false_r].
      destruct (join_name_suffix mn2 "weight") as [y Hy].
      rewrite Hn2, Hy in Hsuffix.
      destruct (endswith_weight_not_bias y) as (H1 & H2 & H3).
      by rewrite H1, H2, H3 in Hsuffix.
  - intros (e & He & <- & <-).
    destruct (parameter_table_owner _ _ _ He) as (mn & m' & Hm & Hc & Hk & Hn).
    pose proof (named_modules_supported _ _ _ _ Hs Hm) as Hs'.
    pose proof (named_modules_ids _ _ _ _ Hnd Hm) as Hnd'.
    destruct (supported_owner _ _ _ Hs' Hk) as (Hl & Hkey & Hcs).
    exists (mn, m'), (e.2.1.2, e.2.2). simpl. split; [done|].
    destruct e as [name [[c k] v]]. simpl in *. subst c.
    split; [|split; [|done]].
    + apply elem_of_named_parameters; [done|].
      exists (k, (m_class m', k, v)). split; [|done].
      destruct m' as [c' ps' cs']. simpl in *. subst cs'.
      apply elem_of_layer_table. eauto.
    + by apply decayed_bucket.
Qed.

(** *** The assertions and the parameter groups *)

Lemma elem_of_insert_sorted x y l : y ∈ insert_sorted x l <-> y = x \/ y ∈ l.
Proof.
  induction l as [|z l IH]; simpl; [set_solver|].
  destruct (String.leb x z); [set_solver|]. rewrite !elem_of_cons, IH. tauto.
Qed.

Lemma elem_of_sorted y l : y ∈ sorted l <-> y ∈ l.
Proof.
  induction l as [|x l IH]; simpl; [done|].
  rewrite elem_of_insert_sorted, IH. set_solver.
Qed.

Lemma lookup_params_ok (d : gmap string parameter) (names : list string) :
  (forall pn, pn ∈ names -> pn ∈ dom d) ->
  exists ps, lookup_params d names = Ok ps.
Proof.
  unfold lookup_params. induction names as [|pn names IH]; intros Hdom; [by eexists|].
  destruct IH as [ps Hps]; [intros; apply Hdom; by right|].
  destruct (proj1 (elem_of_dom d pn) (Hdom pn ltac:(by left))) as [p Hp].
  exists (p :: ps). simpl. rewrite Hp. simpl. by rewrite Hps.
Qed.

Lemma dom_fold_insert (l : list (string * parameter)) (d : gmap string parameter) :
  dom (fold_left (fun d pnp => <[pnp.1 := pnp.2]> d) l d) = list_to_set l.*1 ∪ dom d.
Proof.
  revert d. induction l as [|pnp l IH]; intros d; simpl; [set_solver|].
  rewrite IH, dom_insert_L. set_solver.
Qed.

Lemma dom_param_dict model :
  NoDup (parameter_ids model) ->
  dom (param_dict model) = list_to_set (parameter_names model).
Proof.
  intros Hnd. unfold param_dict. rewrite dom_fold_insert, dom_empty_L.
  rewrite named_parameters_table by done. unfold parameter_names.
  rewrite <- list_fmap_compose. set_solver.
Qed.

Lemma NoDup_fst_unique {A B} (l : list (A * B)) x y1 y2 :
  NoDup l.*1 -> (x, y1) ∈ l -> (x, y2) ∈ l -> y1 = y2.
Proof.
  induction l as [|[a b] l IH]; intros Hnd H1 H2; [by apply elem_of_nil in H1|].
  simpl in Hnd. apply NoDup_cons in Hnd as [Ha Hnd].
  assert (Hin : forall y, (x, y) ∈ l -> x ∈ l.*1).
  { intros y Hy. apply list_elem_of_fmap. by exists (x, y). }
  apply elem_of_cons in H1 as [H1|H1]; apply elem_of_cons in H2 as [H2|H2].
  - congruence.
  - injection H1 as -> ->. exfalso. by apply Ha, (Hin y2).
  - injection H2 as -> ->. exfalso. by apply Ha, (Hin y1).
  - by apply IH.
Qed.

Lemma elem_of_bucket_names model b x :
  x ∈ (filter (fun e => decayed e.2 = b) (parameter_table "" model)).*1
  <-> exists e, e ∈ parameter_table "" model /\ decayed e.2 = b /\ e.1 = x.
Proof.
  rewrite list_elem_of_fmap. split.
  - intros (e & -> & [Hb He]%list_elem_of_filter). eauto.
  - intros (e & He & Hb & <-). exists e. split; [done|].
    by apply list_elem_of_filter.
Qed.

(** C8 (amended): for a model built from layers of the two lists that
    hold only ["weight"] and ["bias"], under plain containers, with
    distinct parameter names, no tied tensors and no parameter called
    ["lm_head.weight"] -- such as one [Linear] and one [LayerNorm] layer --
    the decay set is the set of weights of the whitelisted layers and the
    no-decay set holds every other parameter (the weights of blacklisted
    layers and all biases); the two sets are disjoint, their union is the
    full parameter set, so neither assertion fires and the optimizer is
    returned.  For other models the assertions can fire. *)
Theorem configure_optimizers_partition
    (model : module) (weight_decay learning_rate : spec_float)
    (betas : spec_float * spec_float) (device_type : string) (fused_available : bool) :
  supported model = true ->
  NoDup (parameter_names model) ->
  NoDup (parameter_ids model) ->
  "lm_head.weight" ∉ parameter_names model ->
  let decay := (separate_parameters model).1 in
  let no_decay := (separate_parameters model).2 in
  decay = list_to_set (decay_names model) /\
  no_decay = list_to_set (no_decay_names model) /\
  decay ∩ no_decay = ∅ /\
  decay ∪ no_decay = dom (param_dict model) /\
  exists opt,
    configure_optimizers model weight_decay learning_rate betas device_type
                         fused_available = Ok opt.
Proof.
  intros Hs Hnames Hids Hlm decay no_decay.
  destruct (outer_loop (named_modules "" model) ∅ ∅) as (D & N & Hfold & HD & HN).
  assert (Hsep : separate_parameters model = (D ∖ {["lm_head.weight"]}, N)).
  { unfold separate_parameters. by rewrite Hfold. }
  assert (HD' : D = list_to_set (decay_names model)).
  { apply set_eq. intros x. rewrite HD, elem_of_list_to_set.
    unfold decay_names. rewrite elem_of_bucket_names, <- events_table by done.
    set_solver. }
  assert (HN' : N = list_to_set (no_decay_names model)).
  { apply set_eq. intros x. rewrite HN, elem_of_list_to_set.
    unfold no_decay_names. rewrite elem_of_bucket_names, <- events_table by done.
    set_solver. }
  assert (Hsub : forall b x,
    x ∈ (filter (fun e => decayed e.2 = b) (parameter_table "" model)).*1 ->
    x ∈ parameter_names model).
  { intros b x (e & He & _ & <-)%elem_of_bucket_names.
    apply list_elem_of_fmap. by exists e. }
  assert (Hdecay : decay = list_to_set (decay_names model)).
  { unfold decay. rewrite Hsep. simpl. rewrite HD'.
    apply set_eq. intros x. rewrite elem_of_difference, elem_of_list_to_set.
    split; [tauto|]. intros Hx. split; [done|].
    intros ->%elem_of_singleton. by apply Hlm, (Hsub true). }
  assert (Hno : no_decay = list_to_set (no_decay_names model)).
  { unfold no_decay. by rewrite Hsep. }
  assert (Hinter : decay ∩ no_decay = ∅).
  { rewrite Hdecay, Hno. apply set_eq. intros x.
    rewrite elem_of_intersection, !elem_of_list_to_set.
    unfold decay_names, no_decay_names. rewrite !elem_of_bucket_names.
    split; [|set_solver].
    intros [(e1 & He1 & Hb1 & Hx1) (e2 & He2 & Hb2 & Hx2)].
    destruct e1 as [n1 i1], e2 as [n2 i2]. simpl in *. subst n1 n2.
    assert (i1 = i2) by (by eapply (NoDup_fst_unique _ x); [exact Hnames|..]).
    congruence. }
  assert (Hunion : decay ∪ no_decay = dom (param_dict model)).
  { rewrite Hdecay, Hno, dom_param_dict by done. apply set_eq. intros x.
    rewrite elem_of_union, !elem_of_list_to_set.
    unfold decay_names, no_decay_names. rewrite !elem_of_bucket_names.
    unfold parameter_names. rewrite list_elem_of_fmap. split.
    - intros [(e & He & _ & <-)|(e & He & _ & <-)]; eauto.
    - intros (e & -> & He). destruct (decayed e.2) eqn:Hb; eauto. }
  do 4 (split; [done|]).
  unfold configure_optimizers.
  destruct (separate_parameters model) as [decay' no_decay'] eqn:Hsp.
  simpl in decay, no_decay. subst decay no_decay.
  rewrite Hinter, Hunion.
  rewrite bool_decide_eq_true_2 by done. simpl.
  rewrite bool_decide_eq_true_2 by set_solver. simpl.
  destruct (lookup_params_ok (param_dict model) (sorted (elements decay'))) as [ps1 ->].
  { intros pn Hpn%elem_of_sorted%elem_of_elements. rewrite <- Hunion. set_solver. }
  destruct (lookup_params_ok (param_dict model) (sorted (elements no_decay'))) as [ps2 ->].
  { intros pn Hpn%elem_of_sorted%elem_of_elements. rewrite <- Hunion. set_solver. }
  simpl. eauto.
Qed.

Lemma configure_optimizers_partition_witness :
  let model :=
    Module (OtherModule "Net") []
      [("fc", Module Linear [("weight", Some {| param_id := 0 |});
                             ("bias", Some {| param_id := 1 |})] []);
       ("ln", Module TorchLayerNorm [("weight", Some {| param_id := 2 |});
                                     ("bias", Some {| param_id := 3 |})] [])] in
  (separate_parameters model).1 = {["fc.weight"]} /\
  (separate_parameters model).2 = {["fc.bias"; "ln.weight"; "ln.bias"]} /\
  exists opt,
    configure_optimizers model (b64_of_Z 0) (b64_of_Z 1) (b64_of_Z 0, b64_of_Z 1)
                         "cuda" true = Ok opt.
Proof.
  intros model.
  destruct (configure_optimizers_partition model (b64_of_Z 0) (b64_of_Z 1)
              (b64_of_Z 0, b64_of_Z 1) "cuda" true)
    as (Hd & Hn & _ & _ & Hopt).
  - reflexivity.
  - apply (bool_decide_unpack _). vm_compute. reflexivity.
  - apply (bool_decide_unpack _). vm_compute. reflexivity.
  - apply (bool_decide_unpack _). vm_compute. reflexivity.
  - split; [|split]; [rewrite Hd | rewrite Hn | exact Hopt]; reflexivity.
Defined.

(** C8 as stated fails: the weight of a [Conv1d] layer is in neither list,
    so it reaches neither set and the second assertion fires. *)
Lemma configure_optimizers_conv1d_unclassified :
  let model :=
    Module (OtherModule "Sequential") []
      [("0", Module (OtherModule "Conv1d") [("weight", Some {| param_id := 0 |});
                                            ("bias", Some {| param_id := 1 |})] [])] in
  configure_optimizers model (b64_of_Z 0) (b64_of_Z 1) (b64_of_Z 0, b64_of_Z 1)
                       "cuda" true = Raise AssertionError /\
  "0.weight" ∈ dom (param_dict model) /\
  "0.weight" ∉ (separate_parameters model).1 ∪ (separate_parameters model).2.
Proof.
  intros model. split; [vm_compute; reflexivity|].
  split; apply (bool_decide_unpack _); vm_compute; reflexivity.
Qed.

(** The removal of ['lm_head.weight'] leaves an untied head unclassified. *)
Example configure_optimizers_lm_head :
  configure_optimizers
    (Module (OtherModule "Net") []
       [("lm_head", Module Linear [("weight", Some {| param_id := 0 |})] [])])
    (b64_of_Z 0) (b64_of_Z 1) (b64_of_Z 0, b64_of_Z 1) "cpu" false
  = Raise AssertionError.
Proof. vm_compute. reflexivity. Qed.

(** ** More on [prepare_obs] *)

Lemma item_getitem_axis1_rank2 nidx start stop t t' b s i j :
  wf_tensor t -> t_shape t = [b; s] ->
  getitem_axis1 nidx start stop t = Ok t' ->
  i < b -> j < (slice_range s start stop).2 ->
  item t' [i; j] = item t [i; (slice_range s start stop).1 + j].
Proof.
  intros Hwf Hs Hget Hi Hj.
  unfold getitem_axis1 in Hget. case_match; [done|].
  rewrite Hs in Hget.
  pose proof (slice_range_le s start stop) as Hle.
  destruct (slice_range s start stop) as [lo n]. simpl in Hj, Hle |- *.
  injection Hget as <-. unfold item. simpl t_data. simpl t_shape.
  rewrite Hs. simpl flat_index.
  replace (i * (n * 1) + (j * 1 + 0)) with (i * (n * 1) + j) by lia.
  rewrite (buf_nth_float_slice _ b s 1 lo n i); [f_equal; lia|done| |done|lia].
  rewrite Hwf, Hs. simpl. lia.
Qed.

(** X1: In vector mode the batch is laid out as (B, T*D): the current batch is
    its first [frame_stack_num * observation_shape] features (clipped to
    the features there are) and the target batch, when the consistency loss
    is on, is everything from feature [observation_shape] onward. *)
Theorem prepare_obs_vector_layout
    (x : ndarray) (B S : nat) (fs od : Z) (ssl : bool) (d : torch_device) :
  np_shape x = [B; S] -> wf_ndarray x -> (0 <= fs)%Z -> (0 <= od)%Z ->
  let cfg := obs_cfg "mlp" fs od ssl d in
  let n := Nat.min S (Z.to_nat (fs * od)) in
  let k := Nat.min S (Z.to_nat od) in
  exists cur tgt,
    prepare_obs x cfg = Ok (cur, if ssl then Some tgt else None) /\
    t_shape cur = [B; n] /\ t_shape tgt = [B; S - k] /\
    (forall b c, b < B -> c < n ->
       item cur [b; c] = item (obs_float x cfg) [b; c]) /\
    (forall b c, b < B -> c < S - k ->
       item tgt [b; c] = item (obs_float x cfg) [b; k + c]).
Proof.
  intros Hs Hwf Hfs Hod cfg n k.
  assert (Hsf : t_shape (obs_float x cfg) = [B; S]) by done.
  assert (Hlen : 2 <= length (t_shape (obs_float x cfg))) by (by rewrite Hsf).
  pose proof (wf_obs_float x cfg Hwf) as Hwff.
  pose proof (getitem_axis1_ok 2 (Some 0%Z) (Some (fs * od)%Z) _ _ _ _ Hsf Hlen) as Hcur.
  pose proof (getitem_axis1_ok 2 (Some od) None _ _ _ _ Hsf Hlen) as Htgt.
  rewrite slice_range_prefix in Hcur by lia.
  rewrite slice_range_suffix in Htgt by lia.
  simpl fst in *. simpl snd in *. fold n in Hcur. fold k in Htgt.
  eexists _, _. split.
  { rewrite (prepare_obs_unfold x cfg 2 od) by done.
    simpl frame_stack_num. rewrite Hcur, Htgt. simpl. by case ssl. }
  do 2 (split; [done|]). split.
  - intros b c Hb Hc.
    rewrite (item_getitem_axis1_rank2 _ _ _ _ _ _ _ _ _ Hwff Hsf Hcur);
      rewrite ?slice_range_prefix by lia; done.
  - intros b c Hb Hc.
    rewrite (item_getitem_axis1_rank2 _ _ _ _ _ _ _ _ _ Hwff Hsf Htgt);
      rewrite ?slice_range_suffix by lia; done.
Qed.

Lemma prepare_obs_vector_layout_witness :
  let x := {| np_shape := [2; 3];
              np_data := Int64Buf [1; 2; 3; 4; 5; 6]%Z |} in
  exists cur tgt,
    prepare_obs x (obs_cfg "mlp" 2 1 true cpu) = Ok (cur, Some tgt) /\
    t_shape cur = [2; 2] /\ t_shape tgt = [2; 2] /\
    item cur [1; 1] = Some (f32_of_Z 5) /\
    item tgt [1; 1] = Some (f32_of_Z 6).
Proof.
  intros x.
  destruct (prepare_obs_vector_layout x 2 3 2 1 true cpu)
    as (cur & tgt & Heq & Hc & Ht & Hic & Hit);
    [reflexivity | reflexivity | lia | lia |].
  exists cur, tgt. split; [exact Heq|]. split; [exact Hc|]. split; [exact Ht|].
  split; [rewrite Hic by (simpl; lia) | rewrite Hit by (simpl; lia)]; reflexivity.
Defined.

(** X2: [prepare_obs] fails in two ways only: with [UnboundLocalError] when
    [model_type] is neither ['conv'] nor ['mlp'], and with [IndexError]
    when the batch has fewer axes than the slice has subscripts (four in
    image mode, two in vector mode). *)
Theorem prepare_obs_failures (x : ndarray) (cfg : config) (e : exn) :
  prepare_obs x cfg = Raise e <->
  (model_type (model cfg) <> "conv" /\ model_type (model cfg) <> "mlp"
   /\ e = UnboundLocalError)
  \/ (model_type (model cfg) = "conv" /\ length (np_shape x) < 4 /\ e = IndexError)
  \/ (model_type (model cfg) = "mlp" /\ length (np_shape x) < 2 /\ e = IndexError).
Proof.
  assert (Hgen : forall nidx unit, 2 <= nidx -> mode_layout cfg = Some (nidx, unit) ->
    (prepare_obs x cfg = Raise e <-> length (np_shape x) < nidx /\ e = IndexError)).
  { intros nidx unit Hn Hmode. rewrite (prepare_obs_unfold x cfg nidx unit Hmode).
    destruct (decide (length (np_shape x) < nidx)) as [Hlt|Hge].
    - rewrite !getitem_axis1_short by done. simpl.
      split; [intros [= Heq] | intros [_ Heq]]; by subst.
    - destruct (np_shape x) as [|b [|s rest]] eqn:Hs; [simpl in Hge; lia..|].
      assert (Hsf : t_shape (obs_float x cfg) = b :: s :: rest) by done.
      assert (Hlen : nidx <= length (t_shape (obs_float x cfg)))
        by (rewrite Hsf; simpl in *; lia).
      rewrite !(getitem_axis1_ok nidx _ _ _ _ _ _ Hsf Hlen). simpl.
      split; [by destruct (self_supervised_learning_loss _)|].
      intros [Hlt _]. by destruct Hge. }
  unfold mode_layout in Hgen.
  destruct (String.eqb_spec (model_type (model cfg)) "conv") as [Hc|Hc].
  - rewrite (Hgen 4 _ ltac:(lia) eq_refl). rewrite Hc. split; [auto|].
    intros [(? & _)|[(_ & ? & ?)|(? & _)]]; done.
  - destruct (String.eqb_spec (model_type (model cfg)) "mlp") as [Hm|Hm].
    + rewrite (Hgen 2 _ ltac:(lia) eq_refl). rewrite Hm. split; [auto|].
      intros [(_ & ? & _)|[(? & _)|(_ & ? & ?)]]; done.
    + rewrite prepare_obs_unknown_mode.
      * split; [intros [= <-]; auto|]. intros [(_ & _ & ->)|[(? & _)|(? & _)]]; done.
      * unfold mode_layout.
        destruct (String.eqb_spec (model_type (model cfg)) "conv"); [done|].
        by destruct (String.eqb_spec (model_type (model cfg)) "mlp").
Qed.

Lemma float_tensor_on_getitem nidx start stop t t' d :
  float_tensor_on d t -> getitem_axis1 nidx start stop t = Ok t' ->
  float_tensor_on d t'.
Proof.
  intros ([l Hl] & Hd & Hg) Hget. unfold getitem_axis1 in Hget.
  case_match; [done|].
  destruct (t_shape t) as [|b [|s rest]]; [done..|].
  destruct (slice_range s start stop) as [lo n]. injection Hget as <-.
  split; [|done]. simpl. rewrite Hl. simpl. eauto.
Qed.

(** X3: Whatever the dtype of the input, every batch that [prepare_obs]
    returns holds float32 data, sits on [cfg.device], records no gradient
    and has as many elements as its shape says; and a target batch is
    returned exactly when the consistency-loss flag is set. *)
Theorem prepare_obs_outputs
    (x : ndarray) (cfg : config) (cur : tensor) (tgt : option tensor) :
  wf_ndarray x -> prepare_obs x cfg = Ok (cur, tgt) ->
  float_tensor_on (device cfg) cur /\ wf_tensor cur /\
  (forall t, tgt = Some t -> float_tensor_on (device cfg) t /\ wf_tensor t) /\
  (is_Some tgt <-> self_supervised_learning_loss (model cfg) = true).
Proof.
  intros Hwf Hp.
  assert (Hf : float_tensor_on (device cfg) (obs_float x cfg)).
  { split; [|done]. simpl. destruct (buf_float_spec (np_data x)) as (l & -> & _). eauto. }
  pose proof (wf_obs_float x cfg Hwf) as Hwff.
  destruct (mode_layout cfg) as [[nidx unit]|] eqn:Hmode;
    [|by rewrite prepare_obs_unknown_mode in Hp].
  rewrite (prepare_obs_unfold x cfg nidx unit Hmode) in Hp.
  destruct (getitem_axis1 nidx (Some 0%Z) _ _) as [c|] eqn:Hc; [|done]. simpl in Hp.
  destruct (self_supervised_learning_loss (model cfg)).
  - destruct (getitem_axis1 nidx (Some unit) None _) as [t|] eqn:Ht; [|done].
    simpl in Hp. injection Hp as <- <-.
    split; [by eapply float_tensor_on_getitem|].
    split; [by eapply wf_getitem_axis1|]. split; [|by split; eauto].
    intros t' [= <-]. split; [by eapply float_tensor_on_getitem|by eapply wf_getitem_axis1].
  - injection Hp as <- <-.
    split; [by eapply float_tensor_on_getitem|].
    split; [by eapply wf_getitem_axis1|]. split; [done|].
    split; [by intros [? ?]|done].
Qed.

Lemma prepare_obs_outputs_witness :
  let x := {| np_shape := [1; 3; 1; 1]; np_data := UInt8Buf [7; 8; 9]%Z |} in
  let cfg := obs_cfg "conv" 2 1 true (cuda 0) in
  exists cur tgt, prepare_obs x cfg = Ok (cur, Some tgt) /\
    float_tensor_on (cuda 0) cur /\ float_tensor_on (cuda 0) tgt.
Proof.
  intros x cfg.
  destruct (prepare_obs x cfg) as [[cur [tgt|]]|] eqn:Hp; try discriminate.
  destruct (prepare_obs_outputs x cfg cur (Some tgt)) as (Hc & _ & Ht & _);
    [reflexivity | exact Hp |].
  exists cur, tgt. split; [reflexivity|]. split; [exact Hc|]. by apply Ht.
Defined.

(** ** More on the marshalling functions *)



(** X5: [to_torch_float_tensor] returns one tensor per array, in order: each
    has the shape of its array, holds float32 data, sits on the requested
    device and records no gradient. *)
Theorem to_torch_float_tensor_outputs (data_list : list ndarray) (dev : torch_device) :
  Forall2 (fun a t => t_shape t = np_shape a /\ float_tensor_on dev t /\
                      (wf_ndarray a -> wf_tensor t))
          data_list (to_torch_float_tensor data_list dev).
Proof.
  rewrite to_torch_float_tensor_map.
  apply Forall2_fmap_r, Forall_Forall2_diag, Forall_forall. intros a _.
  split; [done|]. split.
  - split; [|done]. simpl. destruct (buf_float_spec (np_data a)) as (l & -> & _). eauto.
  - unfold wf_ndarray, wf_tensor. simpl.
    destruct (buf_float_spec (np_data a)) as (l & -> & Hl). simpl. congruence.
Qed.

Lemma as_float32_idempotent x : as_float32 (as_float32 x) = as_float32 x.
Proof. destruct x as [s []]; done. Qed.

(** X6: A second round trip changes nothing: what one conversion to tensors
    and back returns is reproduced exactly by another one, on any device. *)
Theorem round_trip_idempotent (x y : list ndarray) (dev1 dev2 : torch_device) :
  to_detach_cpu_numpy (to_torch_float_tensor x dev1) = Ok y ->
  to_detach_cpu_numpy (to_torch_float_tensor y dev2) = Ok y.
Proof.
  rewrite !to_torch_float_tensor_map. unfold to_detach_cpu_numpy.
  rewrite !to_detach_cpu_numpy_fold. simpl. intros [= <-].
  f_equal. rewrite map_map. apply map_ext. intros a. apply as_float32_idempotent.
Qed.

Lemma round_trip_idempotent_witness :
  let x := [ {| np_shape := [2]; np_data := Int64Buf [16777217; 3]%Z |} ] in
  exists y, to_detach_cpu_numpy (to_torch_float_tensor x cpu) = Ok y /\
            to_detach_cpu_numpy (to_torch_float_tensor y (cuda 1)) = Ok y.
Proof.
  intros x. eexists. split; [reflexivity|].
  apply (round_trip_idempotent x _ cpu (cuda 1)). reflexivity.
Defined.

(** ** More on [select_action] *)

(** X7: In deterministic mode [select_action] fails in two ways only: with
    [ZeroDivisionError] when the temperature is zero and there is at least
    one visit count, and with [ValueError] (from [np.argmax]) when there is
    none -- whatever the temperature, zero included. *)
Theorem select_action_deterministic_failures
    {F : Type} (A : Arith F) (S : Sampler F)
    (visit_counts : list Z) (temperature : F) (g : rng) (e : exn) :
  (select_action visit_counts temperature true g).1 = Raise e <->
  (visit_counts <> [] /\ fis_zero temperature = true /\ e = ZeroDivisionError)
  \/ (visit_counts = [] /\ e = ValueError).
Proof.
  destruct visit_counts as [|v l].
  - unfold select_action. simpl. split.
    + intros [= <-]. by right.
    + intros [(? & _)|(_ & ->)]; done.
  - destruct (fis_zero temperature) eqn:Ht.
    + unfold select_action. rewrite weights_zero_temperature by done. simpl. split.
      * intros [= <-]. by left.
      * intros [(_ & _ & ->)|(? & _)]; done.
    + destruct (select_action_deterministic (v :: l) temperature g) as (i & -> & _);
        [done..|]. simpl. split; [done|].
      intros [(_ & ? & _)|(? & _)]; done.
Qed.

(** X8: The deterministic branch never calls the sampler: the state of the
    generator comes back unchanged, also when the call fails, and the
    result is the same under any two samplers. *)
Theorem select_action_deterministic_no_sampling
    {F : Type} (A : Arith F) (S1 S2 : Sampler F)
    (visit_counts : list Z) (temperature : F)
    (g1 : @rng F S1) (g2 : @rng F S2) :
  (select_action (S := S1) visit_counts temperature true g1).2 = g1 /\
  (select_action (S := S1) visit_counts temperature true g1).1
  = (select_action (S := S2) visit_counts temperature true g2).1.
Proof.
  unfold select_action.
  destruct (mapM _ visit_counts) as [action_probs|e]; [|done]. done.
Qed.

Lemma map_replicate {A B} (f : A -> B) n x :
  map f (replicate n x) = replicate n (f x).
Proof. induction n as [|n IH]; [done|]. simpl. by rewrite IH. Qed.


Section ExactRealMore.
Local Open Scope R_scope.
Existing Instance exact_real.
Existing Instance exact_real_pyfloat.


















Lemma weights_app (l1 l2 : list Z) t :
  weights (A := exact_real) (l1 ++ l2) t
  = weights (A := exact_real) l1 t ++ weights (A := exact_real) l2 t.
Proof. unfold weights. by rewrite map_app. Qed.




(** ** [get_max_entropy] *)


(** X11: In exact arithmetic [get_max_entropy] raises [ZeroDivisionError]
    exactly for an action space of size 0, and for every size [n >= 1] it
    returns [log2 n]. *)
Theorem get_max_entropy_exact (action_shape : Z) :
  (get_max_entropy (A := exact_real) (P := exact_real_pyfloat) action_shape
   = Throw (Builtin ZeroDivisionError) <-> action_shape = 0%Z) /\
  ((1 <= action_shape)%Z ->
   get_max_entropy (A := exact_real) (P := exact_real_pyfloat) action_shape
   = Return (log2R (IZR action_shape))).
Proof.
  unfold get_max_entropy. simpl.
  destruct (Req_dec_T (IZR action_shape) 0) as [H0|H0].
  - apply eq_IZR_R0 in H0. subst. split; [done|lia].
  - split.
    + split; [done|]. intros ->. by destruct H0.
    + intros Hn. f_equal. apply IZR_le in Hn.
      unfold log2R. rewrite opp_IZR.
      replace (1 / IZR action_shape) with (/ IZR action_shape) by (field; lra).
      rewrite ln_Rinv by lra. pose proof ln_2_pos. field. lra.
Qed.



End ExactRealMore.

(** In binary64 arithmetic: no action raises [ZeroDivisionError], a single
    action gives [-0.0], and an int beyond the floats raises
    [OverflowError]. *)
Example get_max_entropy_binary64_edges (L : libm) (libm_log2 : spec_float -> spec_float) :
  get_max_entropy (A := binary64 L) (P := binary64_pyfloat libm_log2) 0
  = Throw (Builtin ZeroDivisionError) /\
  get_max_entropy (A := binary64 L) (P := binary64_pyfloat libm_log2) 1
  = Return (S754_zero true) /\
  get_max_entropy (A := binary64 L) (P := binary64_pyfloat libm_log2) (2 ^ 1024)
  = Throw OverflowError.
Proof. repeat split; vm_compute; reflexivity. Qed.

(** ** More on [negative_cosine_similarity] *)

Lemma broadcast_size_same n : broadcast_size n n = Ok n.
Proof. unfold broadcast_size. by rewrite Nat.eqb_refl. Qed.

Lemma broadcast_size_comm a b : broadcast_size a b = broadcast_size b a.
Proof.
  unfold broadcast_size.
  destruct (Nat.eqb_spec a b) as [->|Hab]; [by rewrite Nat.eqb_refl|].
  destruct (Nat.eqb_spec b a) as [->|_]; [done|].
  destruct (Nat.eqb_spec a 1) as [->|Ha], (Nat.eqb_spec b 1) as [->|Hb]; done.
Qed.

Lemma zip_with_comm {X Y} (f : X -> X -> Y) (l k : list X) :
  (forall a b, f a b = f b a) -> zip_with f l k = zip_with f k l.
Proof.
  intros Hf. revert k. induction l as [|a l IH]; intros [|b k]; simpl; [done..|].
  by rewrite Hf, IH.
Qed.

Section CosineMore.
Context {F : Type} {A : Arith F}.

Lemma expand_row_same c (r : list F) : expand_row c c r = r.
Proof. unfold expand_row. by rewrite Nat.eqb_refl. Qed.

Lemma map_expand_row_same c (l : list (list F)) : map (expand_row c c) l = l.
Proof.
  induction l as [|r l IH]; simpl; [done|]. by rewrite expand_row_same, IH.
Qed.

Lemma rows_expand_same_cols r (x : tensor2 F) :
  rows (expand r (ncols x) x) =
    if nrows x =? r then rows x
    else match rows x with row :: _ => replicate r row | [] => [] end.
Proof.
  unfold expand. cbn [rows]. apply map_expand_row_same.
Qed.

Lemma rows_expand_same (x : tensor2 F) :
  rows (expand (nrows x) (ncols x) x) = rows x.
Proof. rewrite rows_expand_same_cols. by rewrite Nat.eqb_refl. Qed.

Lemma mul_broadcast_comm (x1 x2 : tensor2 F) :
  (forall a b : F, fmul a b = fmul b a) ->
  mul_broadcast x1 x2 = mul_broadcast x2 x1.
Proof.
  intros Hf. unfold mul_broadcast.
  rewrite (broadcast_size_comm (nrows x2)), (broadcast_size_comm (ncols x2)).
  destruct (broadcast_size (nrows x1) (nrows x2)) as [r|]; [|done].
  destruct (broadcast_size (ncols x1) (ncols x2)) as [c|]; [|done].
  cbn. do 2 f_equal.
  apply zip_with_comm. intros a b. by apply zip_with_comm.
Qed.

Lemma negative_cosine_similarity_comm (x1 x2 : tensor2 F) :
  (forall a b : F, fmul a b = fmul b a) ->
  negative_cosine_similarity x1 x2 = negative_cosine_similarity x2 x1.
Proof.
  intros Hf. unfold negative_cosine_similarity. cbv zeta.
  by rewrite mul_broadcast_comm.
Qed.

Lemma Forall_rows_expand (P : list F -> Prop) r (x : tensor2 F) :
  Forall P (rows x) -> Forall P (rows (expand r (ncols x) x)).
Proof.
  intros HP. rewrite rows_expand_same_cols.
  destruct (nrows x =? r); [done|].
  destruct (rows x) as [|row rs]; [done|].
  apply Forall_replicate. by inversion HP.
Qed.

End CosineMore.

Lemma SFmul_comm prec emax x y : SFmul prec emax x y = SFmul prec emax y x.
Proof.
  destruct x as [sx|sx| |sx mx ex], y as [sy|sy| |sy my ey]; simpl;
    rewrite ?(xorb_comm sx sy); try done.
  by rewrite (Pos.mul_comm mx my), (Z.add_comm ex ey).
Qed.

(** X13: The loss is symmetric in its two arguments, in exact arithmetic and in
    IEEE double precision alike, for all shapes: both orders fail together
    (with the [RuntimeError] of the broadcast) or return the same values. *)
Theorem negative_cosine_similarity_symmetric :
  (forall x1 x2 : tensor2 R,
     negative_cosine_similarity (A := exact_real) x1 x2 =
     negative_cosine_similarity (A := exact_real) x2 x1) /\
  (forall (L : libm) (x1 x2 : tensor2 spec_float),
     negative_cosine_similarity (A := binary64 L) x1 x2 =
     negative_cosine_similarity (A := binary64 L) x2 x1).
Proof.
  split; intros; apply negative_cosine_similarity_comm; intros a b; simpl.
  - apply Rmult_comm.
  - apply SFmul_comm.
Qed.

Section CosineExact.
Local Open Scope R_scope.
Existing Instance exact_real.

Lemma torch_sum_R l : torch_sum (A := exact_real) l = Rsum l.
Proof. unfold torch_sum. rewrite fold_left_Rplus. simpl. lra. Qed.

Lemma Rsum_squares_nonneg l : 0 <= Rsum (map (fun x => x * x) l).
Proof.
  induction l as [|x l IH]; simpl; [lra|].
  pose proof (Rle_0_sqr x) as Hx. unfold Rsqr in Hx. lra.
Qed.

Lemma l2_norm_nonneg r : 0 <= l2_norm r.
Proof. apply sqrt_pos. Qed.

Lemma l2_norm_sqr r : l2_norm r * l2_norm r = Rsum (map (fun x => x * x) r).
Proof. apply sqrt_sqrt, Rsum_squares_nonneg. Qed.

Lemma normalize_row_R eps r :
  normalize_row (A := exact_real) eps r =
    map (fun x => x / Rmax (l2_norm r) eps) r.
Proof. unfold normalize_row. cbv zeta. by rewrite torch_sum_R. Qed.

Lemma Rsum_scaled_products (f : R -> R) k l :
  (forall x, f x = k * (x * x)) ->
  Rsum (map f l) = k * Rsum (map (fun x => x * x) l).
Proof.
  intros Hf. induction l as [|x l IH]; simpl; [lra|]. rewrite IH, Hf. lra.
Qed.

Lemma zip_with_map_map {X Y Z W} (f : Y -> Z -> W) (g : X -> Y) (h : X -> Z) l :
  zip_with f (map g l) (map h l) = map (fun x => f (g x) (h x)) l.
Proof. induction l as [|x l IH]; simpl; [done|]. by rewrite IH. Qed.

Lemma zip_with_diag {X Y} (f : X -> X -> Y) l :
  zip_with f l l = map (fun x => f x x) l.
Proof. induction l as [|x l IH]; simpl; [done|]. by rewrite IH. Qed.

Lemma eps_value : of_ratio (Arith := exact_real) 1 100000 = 1 / 100000.
Proof. done. Qed.

Lemma l2_norm_opposite r : l2_norm (map Ropp r) = l2_norm r.
Proof.
  unfold l2_norm. f_equal. rewrite map_map. f_equal.
  apply List.map_ext. intros x. lra.
Qed.

(** The dot product of a normalised row with itself, up to the sign [s] of
    the second copy. *)
Lemma self_dot s r :
  Rsum (map (fun x => x / Rmax (l2_norm r) (1 / 100000) *
                      (s * x / Rmax (l2_norm r) (1 / 100000))) r) =
    if Rle_dec (1 / 100000) (l2_norm r) then s
    else s * (100000 * l2_norm r * (100000 * l2_norm r)).
Proof.
  set (d := Rmax (l2_norm r) (1 / 100000)).
  assert (Hd : 0 < d) by (unfold d; pose proof (Rmax_r (l2_norm r) (1 / 100000)); lra).
  rewrite (Rsum_scaled_products _ (s / (d * d))) by (intros x; field; lra).
  rewrite <- l2_norm_sqr.
  destruct (Rle_dec (1 / 100000) (l2_norm r)) as [Hle|Hlt].
  - assert (d = l2_norm r) as -> by (unfold d; by apply Rmax_left).
    field. lra.
  - assert (d = 1 / 100000) as -> by (unfold d; apply Rmax_right; lra).
    field.
Qed.

(** The value of each normalised row against itself: the general form of
    the two theorems below. *)
Lemma negative_cosine_similarity_signed (s : R) (x y : tensor2 R) :
  nrows y = nrows x -> ncols y = ncols x ->
  rows y = map (map (fun v => s * v)) (rows x) ->
  (s = 1 \/ s = -1) ->
  negative_cosine_similarity x y =
    Ok (map (fun r => if Rle_dec (1 / 100000) (l2_norm r) then - s
                      else - (s * (100000 * l2_norm r * (100000 * l2_norm r))))
            (rows x)).
Proof.
  intros Hr Hc Hrows Hs.
  assert (Hnorm : forall r, l2_norm (map (fun v => s * v) r) = l2_norm r).
  { intros r. unfold l2_norm. f_equal. rewrite map_map. f_equal.
    apply List.map_ext. intros v. destruct Hs as [-> | ->]; lra. }
  unfold negative_cosine_similarity, mul_broadcast. cbv zeta.
  cbn [nrows ncols normalize]. rewrite Hr, Hc, !broadcast_size_same. cbn.
  rewrite ?Hr, ?Hc, !Nat.eqb_refl.
  rewrite !map_expand_row_same, Hrows, !map_map.
  rewrite zip_with_map_map, !map_map. f_equal.
  apply List.map_ext. intros r.
  rewrite torch_sum_R, !normalize_row_R, Hnorm, map_map, zip_with_map_map.
  cbv beta.
  rewrite (self_dot s r). by destruct (Rle_dec (1 / 100000) (l2_norm r)).
Qed.

(** X14: A batch of vectors against itself.  Every row whose Euclidean norm is
    at least the [eps] of the normalisation, [1e-5], gives exactly -1, the
    minimum of the loss; a shorter row is divided by [eps] instead of its
    norm and gives -(1e5 * norm)^2, which lies in (-1, 0] and is 0 for the
    zero vector.  No shape condition is needed. *)
Theorem negative_cosine_similarity_with_itself (x : tensor2 R) :
  negative_cosine_similarity x x =
    Ok (map (fun r => if Rle_dec (1 / 100000) (l2_norm r) then -1
                      else - (100000 * l2_norm r * (100000 * l2_norm r)))
            (rows x)).
Proof.
  rewrite (negative_cosine_similarity_signed 1 x x); [| done | done | | by left].
  - f_equal. apply List.map_ext. intros r. destruct (Rle_dec _ _); lra.
  - induction (rows x) as [|r rs IH]; [done|]. cbn [map]. rewrite <- IH. f_equal.
    induction r as [|v r IHr]; [done|]. cbn [map]. rewrite <- IHr. f_equal. lra.
Qed.

(** X15: A batch against its opposite gives +1, the maximum of the loss, on
    every row whose norm is at least [1e-5]. *)
Theorem negative_cosine_similarity_opposite (x : tensor2 R) :
  Forall (fun r => 1 / 100000 <= l2_norm r) (rows x) ->
  negative_cosine_similarity x (opposite x) =
    Ok (replicate (length (rows x)) 1).
Proof.
  intros Hlong.
  rewrite (negative_cosine_similarity_signed (-1) x (opposite x));
    [| done | done | | by right].
  - f_equal. induction Hlong as [|r rs Hr _ IH]; [done|].
    cbn [map length replicate]. rewrite IH.
    destruct (Rle_dec _ _); [|done]. f_equal. lra.
  - simpl. apply List.map_ext. intros r. apply List.map_ext. intros v. lra.
Qed.

Lemma negative_cosine_similarity_opposite_witness :
  let x := {| nrows := 2; ncols := 2; rows := [[3; 4]; [0; 1]] |} in
  Forall (fun r => 1 / 100000 <= l2_norm r) (rows x) /\
  negative_cosine_similarity x (opposite x) = Ok (replicate (length (rows x)) 1).
Proof.
  assert (H : Forall (fun r => 1 / 100000 <= l2_norm r) [[3; 4]; [0; 1]]).
  { repeat constructor; unfold l2_norm; simpl.
    - replace (3 * 3 + (4 * 4 + 0)) with (5 * 5) by lra.
      rewrite sqrt_square; lra.
    - replace (0 * 0 + (1 * 1 + 0)) with (1 * 1) by lra.
      rewrite sqrt_square; lra. }
  split; [exact H|].
  exact (negative_cosine_similarity_opposite
           {| nrows := 2; ncols := 2; rows := [[3; 4]; [0; 1]] |} H).
Defined.

(** *** The range of the loss *)

(** Cauchy-Schwarz on lists; the shorter list bounds the product. *)
Lemma cauchy_schwarz a b :
  Rsum (zip_with Rmult a b) * Rsum (zip_with Rmult a b) <=
    Rsum (map (fun x => x * x) a) * Rsum (map (fun x => x * x) b).
Proof.
  revert b. induction a as [|x a IH]; intros [|y b]; simpl.
  - lra.
  - lra.
  - pose proof (Rsum_squares_nonneg a). pose proof (Rle_0_sqr x) as Hx.
    unfold Rsqr in Hx. nra.
  - specialize (IH b).
    pose proof (Rsum_squares_nonneg a) as HA.
    pose proof (Rsum_squares_nonneg b) as HB.
    set (s := Rsum (zip_with Rmult a b)) in *.
    set (SA := Rsum (map (fun x => x * x) a)) in *.
    set (SB := Rsum (map (fun x => x * x) b)) in *.
    assert (Hmix : 2 * s * x * y <= SA * (y * y) + SB * (x * x)).
    { destruct (Rle_dec (2 * s * x * y) 0) as [Hneg|Hpos].
      - pose proof (Rle_0_sqr x) as Hx. pose proof (Rle_0_sqr y) as Hy.
        unfold Rsqr in *. nra.
      - apply Rnot_le_lt in Hpos.
        apply Rsqr_incr_0_var; [|unfold Rsqr in *; pose proof (Rle_0_sqr x);
                                 pose proof (Rle_0_sqr y); unfold Rsqr in *; nra].
        unfold Rsqr.
        assert (H4 : 4 * (s * s) * (x * x) * (y * y) <=
                     4 * (SA * SB) * (x * x) * (y * y)).
        { pose proof (Rle_0_sqr (x * y)) as Hxy. unfold Rsqr in Hxy. nra. }
        pose proof (Rle_0_sqr (SA * (y * y) - SB * (x * x))) as Hd.
        unfold Rsqr in Hd. nra. }
    nra.
Qed.

Lemma normalized_row_short eps r :
  0 < eps ->
  Rsum (map (fun x => x * x) (normalize_row (A := exact_real) eps r)) <= 1.
Proof.
  intros Heps. rewrite normalize_row_R, map_map.
  set (d := Rmax (l2_norm r) eps).
  assert (Hd : 0 < d) by (unfold d; pose proof (Rmax_r (l2_norm r) eps); lra).
  assert (Hn : l2_norm r <= d) by apply Rmax_l.
  rewrite (Rsum_scaled_products _ (1 / (d * d))) by (intros x; field; lra).
  rewrite <- l2_norm_sqr.
  pose proof (l2_norm_nonneg r) as H0.
  apply (Rmult_le_reg_r (d * d)); [nra|].
  replace (1 / (d * d) * (l2_norm r * l2_norm r) * (d * d))
    with (l2_norm r * l2_norm r) by (field; lra).
  nra.
Qed.

Lemma Forall_zip_with {X Y} (P : X -> Prop) (Q : Y -> Prop) (f : X -> X -> Y) l k :
  (forall a b, P a -> P b -> Q (f a b)) ->
  Forall P l -> Forall P k -> Forall Q (zip_with f l k).
Proof.
  intros Hf Hl. revert k. induction Hl as [|a l Ha _ IH]; intros k Hk; [done|].
  destruct Hk as [|b k Hb Hk]; [done|]. simpl. constructor; auto.
Qed.

(** X16: When the two arguments have the same number of columns, every value
    the loss returns lies between -1 and 1, whatever the vectors are (short
    or zero ones included) and whether or not the batch axis is broadcast:
    each normalised row has norm at most 1, and the Cauchy-Schwarz
    inequality bounds the products. *)
Theorem negative_cosine_similarity_range (x1 x2 : tensor2 R) (v : list R) :
  ncols x1 = ncols x2 ->
  negative_cosine_similarity x1 x2 = Ok v ->
  Forall (fun y => -1 <= y <= 1) v.
Proof.
  intros Hc. unfold negative_cosine_similarity, mul_broadcast. cbv zeta.
  cbn [nrows ncols normalize].
  destruct (broadcast_size (nrows x1) (nrows x2)) as [r|]; [|done].
  rewrite Hc, broadcast_size_same. cbn [mbind result_bind].
  intros [= <-]. unfold sum_dim1. cbn [rows].
  set (P := fun row : list R => Rsum (map (fun x => x * x) row) <= 1).
  assert (HP : forall x : tensor2 R,
             Forall P (rows (expand r (ncols x) (normalize x (1 / 100000))))).
  { intros x. apply (Forall_rows_expand P r (normalize x _)).
    simpl. apply Forall_map, Forall_true. intros row. simpl.
    apply normalized_row_short. lra. }
  pose proof (HP x1) as H1. pose proof (HP x2) as H2.
  rewrite Hc in H1. cbn [ncols normalize] in H1, H2.
  apply Forall_map, Forall_map.
  eapply Forall_zip_with; [|exact H1|exact H2].
  intros a b Ha Hb. simpl. rewrite torch_sum_R. unfold P in Ha, Hb.
  pose proof (cauchy_schwarz a b) as Hcs.
  pose proof (Rsum_squares_nonneg a). pose proof (Rsum_squares_nonneg b).
  change (zip_with fmul a b) with (zip_with Rmult a b).
  set (s := Rsum (zip_with Rmult a b)) in *.
  assert (s * s <= 1) by nra. nra.
Qed.

Lemma negative_cosine_similarity_range_witness :
  let x1 := {| nrows := 1; ncols := 2; rows := [[3; 4]] |} in
  let x2 := {| nrows := 2; ncols := 2; rows := [[0; 0]; [1; 2]] |} in
  ncols x1 = ncols x2 /\
  exists v, negative_cosine_similarity x1 x2 = Ok v /\
            length v = 2%nat /\ Forall (fun y => -1 <= y <= 1) v.
Proof.
  cbv zeta. split; [reflexivity|].
  eexists. split; [reflexivity|]. split; [reflexivity|].
  eapply (negative_cosine_similarity_range
            {| nrows := 1; ncols := 2; rows := [[3; 4]] |}
            {| nrows := 2; ncols := 2; rows := [[0; 0]; [1; 2]] |});
    reflexivity.
Defined.

End CosineExact.
(** *** Zero vectors in double precision *)

Section CosineZero.
Variable L : libm.

Let pzero : spec_float := S754_zero false.

Lemma torch_sum_zeros c :
  torch_sum (A := binary64 L) (replicate c pzero) = pzero.
Proof.
  unfold torch_sum. change (of_int (Arith := binary64 L) 0) with pzero.
  induction c as [|c IH]; [done|]. exact IH.
Qed.

Lemma normalize_row_zeros c :
  normalize_row (A := binary64 L) (of_ratio (Arith := binary64 L) 1 100000)
      (replicate c pzero) =
    replicate c pzero.
Proof.
  unfold normalize_row. cbv zeta.
  rewrite !map_replicate. cbv beta.
  change (fmul (Arith := binary64 L) pzero pzero) with pzero.
  rewrite torch_sum_zeros. f_equal.
Qed.

Lemma zip_with_replicate {X Y Z} (f : X -> Y -> Z) n a b :
  zip_with f (replicate n a) (replicate n b) = replicate n (f a b).
Proof. induction n as [|n IH]; simpl; [done|]. by rewrite IH. Qed.

End CosineZero.

(** X17: The [eps] of the normalisation keeps zero vectors from dividing by
    zero: in IEEE double precision a batch of zero vectors against itself,
    of any size, gives -0.0 on every row, not NaN. *)
Theorem negative_cosine_similarity_zero_vectors (L : libm) (r c : nat) :
  negative_cosine_similarity (A := binary64 L)
    (full r c (S754_zero false)) (full r c (S754_zero false)) =
    Ok (replicate r (S754_zero true)).
Proof.
  unfold negative_cosine_similarity, mul_broadcast. cbv zeta.
  cbn [nrows ncols normalize full rows].
  rewrite !broadcast_size_same. cbn [mbind result_bind].
  unfold expand. cbn [nrows ncols rows]. rewrite Nat.eqb_refl.
  rewrite map_expand_row_same. unfold normalize, full. cbn [rows].
  rewrite map_replicate, normalize_row_zeros.
  rewrite zip_with_replicate, zip_with_replicate.
  unfold sum_dim1. cbn [rows]. rewrite !map_replicate. cbv beta.
  change (fmul (Arith := binary64 L) (S754_zero false) (S754_zero false))
    with (S754_zero false).
  by rewrite torch_sum_zeros.
Qed.

(** ** More on [configure_optimizers] *)

Lemma is_prefix_length p s : is_prefix p s = true -> length p <= length s.
Proof.
  revert s. induction p as [|a p IH]; intros [|b s]; simpl; try done; [lia|].
  intros [_ H]%andb_prop. apply IH in H. lia.
Qed.

Lemma endswith_length s suffix :
  endswith s suffix = true ->
  length (list_ascii_of_string suffix) <= length (list_ascii_of_string s).
Proof.
  unfold endswith. intros H%is_prefix_length. by rewrite !length_rev in H.
Qed.

(** A full name ends as the parameter's own name does, for every suffix
    the own name is long enough to hold. *)
Lemma endswith_join_name mn pn s :
  length (list_ascii_of_string s) <= length (list_ascii_of_string pn) ->
  endswith (join_name mn pn) s = endswith pn s.
Proof.
  intros Hlen. destruct (join_name_suffix mn pn) as [x ->]. by apply endswith_app.
Qed.

(** What the decay branch of the if-chain needs of a name. *)
Lemma bucket_decay c pn :
  bucket c pn = Some true ->
  endswith pn "bias" = false /\
  (endswith pn "weight" = true \/ endswith pn "weight_ih_l0" = true \/
   endswith pn "weight_hh_l0" = true).
Proof.
  unfold bucket.
  destruct (endswith pn "bias"); [done|].
  destruct (endswith pn "lstm.bias_ih_l0"); [done|].
  destruct (endswith pn "lstm.bias_hh_l0"); [done|].
  destruct (endswith pn "weight"); [by auto|].
  destruct (endswith pn "weight_ih_l0"); [by auto|].
  destruct (endswith pn "weight_hh_l0"); [by auto|].
  simpl. done.
Qed.

Lemma bucket_bias_suffix c pn : endswith pn "bias" = true -> bucket c pn = Some false.
Proof. unfold bucket. by intros ->. Qed.

(** The two sets after the loops, by the events that fill them. *)
Lemma separate_parameters_events model :
  exists D N,
    separate_parameters model = (D ∖ {["lm_head.weight"]}, N) /\
    (forall x, x ∈ D <->
       exists mnm pnp, mnm ∈ named_modules "" model /\ pnp ∈ named_parameters mnm.2 /\
         bucket (m_class mnm.2) pnp.1 = Some true /\ x = join_name mnm.1 pnp.1) /\
    (forall x, x ∈ N <->
       exists mnm pnp, mnm ∈ named_modules "" model /\ pnp ∈ named_parameters mnm.2 /\
         bucket (m_class mnm.2) pnp.1 = Some false /\ x = join_name mnm.1 pnp.1).
Proof.
  destruct (outer_loop (named_modules "" model) ∅ ∅) as (D & N & Hfold & HD & HN).
  exists D, N. split; [unfold separate_parameters; by rewrite Hfold|].
  split; intros x; [rewrite HD|rewrite HN]; set_solver.
Qed.

Lemma decay_name_suffix model x :
  x ∈ (separate_parameters model).1 ->
  x <> "lm_head.weight" /\
  endswith x "bias" = false /\
  (endswith x "weight" = true \/ endswith x "weight_ih_l0" = true \/
   endswith x "weight_hh_l0" = true).
Proof.
  destruct (separate_parameters_events model) as (D & N & -> & HD & _). simpl.
  intros [Hx Hlm]%elem_of_difference. split; [set_solver|].
  apply HD in Hx as (mnm & pnp & _ & _ & Hb & ->).
  apply bucket_decay in Hb as [Hbias Hw].
  assert (Hlen : 6 <= length (list_ascii_of_string pnp.1)).
  { destruct Hw as [H|[H|H]]; apply endswith_length in H; simpl in H; lia. }
  split.
  - rewrite endswith_join_name by (simpl; lia). done.
  - destruct Hw as [H|[H|H]]; pose proof (endswith_length _ _ H) as Hl;
      rewrite <- (endswith_join_name mnm.1) in H by done; auto.
Qed.

(** X18: Only weights are ever decayed.  For every model, every name of the
    decay set ends in ["weight"], ["weight_ih_l0"] or ["weight_hh_l0"];
    none ends in ["bias"], and ["lm_head.weight"] is never among them. *)
Theorem separate_parameters_decay_only_weights (model : module) (x : string) :
  x ∈ (separate_parameters model).1 ->
  x <> "lm_head.weight" /\
  endswith x "bias" = false /\
  (endswith x "weight" || endswith x "weight_ih_l0" || endswith x "weight_hh_l0") = true.
Proof.
  intros (Hlm & Hb & Hw)%decay_name_suffix. repeat split; [done..|].
  destruct Hw as [-> | [-> | ->]]; by rewrite ?orb_true_r.
Qed.

Lemma separate_parameters_decay_only_weights_witness :
  let model :=
    Module (OtherModule "Net") []
      [("fc", Module Linear [("weight", Some {| param_id := 0 |});
                             ("bias", Some {| param_id := 1 |})] []);
       ("rnn", Module LSTM [("weight_ih_l0", Some {| param_id := 2 |});
                            ("bias_ih_l0", Some {| param_id := 3 |})] [])] in
  "rnn.weight_ih_l0" ∈ (separate_parameters model).1 /\
  "rnn.weight_ih_l0" <> "lm_head.weight" /\
  endswith "rnn.weight_ih_l0" "bias" = false /\
  (endswith "rnn.weight_ih_l0" "weight" || endswith "rnn.weight_ih_l0" "weight_ih_l0"
   || endswith "rnn.weight_ih_l0" "weight_hh_l0") = true.
Proof.
  cbv zeta.
  assert (H : "rnn.weight_ih_l0" ∈ (separate_parameters
    (Module (OtherModule "Net") []
      [("fc", Module Linear [("weight", Some {| param_id := 0 |});
                             ("bias", Some {| param_id := 1 |})] []);
       ("rnn", Module LSTM [("weight_ih_l0", Some {| param_id := 2 |});
                            ("bias_ih_l0", Some {| param_id := 3 |})] [])])).1).
  { apply (bool_decide_unpack _). vm_compute. reflexivity. }
  split; [exact H|].
  exact (separate_parameters_decay_only_weights _ _ H).
Defined.

Lemma own_parameter_named m k v :
  NoDup (parameter_ids m) -> (k, Some v) ∈ m_parameters m ->
  (k, v) ∈ named_parameters m.
Proof.
  intros Hnd Hk. apply elem_of_named_parameters; [done|].
  exists (k, (m_class m, k, v)). split; [|done].
  destruct m as [c ps cs]. apply elem_of_parameter_table. left.
  exists k, v. split; [done|]. by rewrite join_name_nil.
Qed.

(** X19: Biases are never decayed.  In a model without tied tensors, whatever
    its classes and its depth, every parameter whose own name ends in
    ["bias"] is put in the no-decay set under its full name, and that name
    is not in the decay set. *)
Theorem separate_parameters_bias_not_decayed
    (model : module) (e : string * (module_class * string * parameter)) :
  NoDup (parameter_ids model) ->
  e ∈ parameter_table "" model ->
  endswith e.2.1.2 "bias" = true ->
  e.1 ∈ (separate_parameters model).2 /\ e.1 ∉ (separate_parameters model).1.
Proof.
  intros Hnd He Hbias.
  destruct (parameter_table_owner _ _ _ He) as (mn & m' & Hm' & Hc & Hk & Hname).
  split.
  - destruct (separate_parameters_events model) as (D & N & -> & _ & HN). simpl.
    apply HN. exists (mn, m'), (e.2.1.2, e.2.2). simpl.
    split; [done|]. split; [|split; [by apply bucket_bias_suffix|done]].
    apply own_parameter_named; [|done]. by eapply named_modules_ids.
  - intros (_ & Hb & _)%decay_name_suffix.
    pose proof (endswith_length _ _ Hbias) as Hlen.
    rewrite Hname, endswith_join_name in Hb by done. congruence.
Qed.

Lemma separate_parameters_bias_not_decayed_witness :
  let model :=
    Module (OtherModule "Net") [("bias", Some {| param_id := 0 |})]
      [("conv", Module (OtherModule "Conv1d")
                  [("weight", Some {| param_id := 1 |});
                   ("bias", Some {| param_id := 2 |})] [])] in
  let e := ("conv.bias", (OtherModule "Conv1d", "bias", {| param_id := 2 |})) in
  NoDup (parameter_ids model) /\ e ∈ parameter_table "" model /\
  e.1 ∈ (separate_parameters model).2 /\ e.1 ∉ (separate_parameters model).1.
Proof.
  cbv zeta.
  assert (H1 : NoDup (parameter_ids
    (Module (OtherModule "Net") [("bias", Some {| param_id := 0 |})]
      [("conv", Module (OtherModule "Conv1d")
                  [("weight", Some {| param_id := 1 |});
                   ("bias", Some {| param_id := 2 |})] [])]))).
  { apply (bool_decide_unpack _). vm_compute. reflexivity. }
  assert (H2 : ("conv.bias", (OtherModule "Conv1d", "bias", {| param_id := 2 |}))
     ∈ parameter_table ""
    (Module (OtherModule "Net") [("bias", Some {| param_id := 0 |})]
      [("conv", Module (OtherModule "Conv1d")
                  [("weight", Some {| param_id := 1 |});
                   ("bias", Some {| param_id := 2 |})] [])])).
  { vm_compute. do 2 right. left. }
  split; [exact H1|]. split; [exact H2|].
  exact (separate_parameters_bias_not_decayed _ _ H1 H2 eq_refl).
Defined.
(** *** The parameter groups *)

Lemma insert_sorted_Permutation x l : insert_sorted x l ≡ₚ x :: l.
Proof.
  induction l as [|y l IH]; simpl; [done|].
  destruct (String.leb x y); [done|]. rewrite IH. apply Permutation_swap.
Qed.

Lemma sorted_Permutation l : sorted l ≡ₚ l.
Proof.
  induction l as [|x l IH]; simpl; [done|].
  by rewrite insert_sorted_Permutation, IH.
Qed.

Lemma NoDup_sorted_elements (X : gset string) : NoDup (sorted (elements X)).
Proof. rewrite sorted_Permutation. apply NoDup_elements. Qed.

Lemma lookup_params_Forall2 (d : gmap string parameter) names ps :
  lookup_params d names = Ok ps ->
  Forall2 (fun pn p => d !! pn = Some p) names ps.
Proof.
  unfold lookup_params. revert ps.
  induction names as [|pn names IH]; intros ps; simpl.
  - intros [= <-]. constructor.
  - destruct (d !! pn) as [p|] eqn:Hp; [|done]. simpl.
    destruct (mapM _ names) as [ps'|]; [|done]. simpl.
    intros [= <-]. constructor; [done|]. by apply IH.
Qed.

(** [named_parameters] never lists a tensor twice. *)
Lemma remove_duplicate_ids memo l :
  NoDup (map (fun e => param_id e.2) (remove_duplicate memo l)) /\
  (forall e, e ∈ remove_duplicate memo l -> (param_id e.2 ∉ memo) /\ e ∈ l).
Proof.
  revert memo. induction l as [|[name v] l IH]; intros memo; simpl.
  - split; [constructor|]. intros e He. by apply elem_of_nil in He.
  - destruct (decide (param_id v ∈ memo)) as [Hin|Hout].
    + destruct (IH memo) as [Hnd Hsub]. split; [done|].
      intros e He. destruct (Hsub e He). split; [done|]. by right.
    + destruct (IH ({[param_id v]} ∪ memo)) as [Hnd Hsub]. split.
      * simpl. constructor; [|done].
        intros (e & Heq & He)%list_elem_of_fmap.
        destruct (Hsub e He) as [Hn _]. simpl in Heq. set_solver.
      * intros e [->|He]%elem_of_cons; [split; [done|by left]|].
        destruct (Hsub e He) as [Hn Hl]. split; [set_solver|by right].
Qed.

Lemma lookup_fold_insert (l : list (string * parameter)) (d : gmap string parameter) pn p :
  fold_left (fun d pnp => <[pnp.1 := pnp.2]> d) l d !! pn = Some p ->
  (pn, p) ∈ l \/ d !! pn = Some p.
Proof.
  revert d. induction l as [|[k v] l IH]; intros d; simpl; [by right|].
  intros [H|H]%IH; [left; by right|].
  destruct (decide (k = pn)) as [->|Hne].
  - rewrite lookup_insert_eq in H. injection H as ->. left. by left.
  - rewrite lookup_insert_ne in H by done. by right.
Qed.

(** The dictionary of the parameters holds each tensor under one name. *)
Lemma param_dict_injective model pn1 pn2 p :
  param_dict model !! pn1 = Some p -> param_dict model !! pn2 = Some p -> pn1 = pn2.
Proof.
  unfold param_dict. intros H1 H2.
  apply lookup_fold_insert in H1 as [H1|H1]; [|by rewrite lookup_empty in H1].
  apply lookup_fold_insert in H2 as [H2|H2]; [|by rewrite lookup_empty in H2].
  unfold named_parameters in *.
  destruct (remove_duplicate_ids ∅
    (flat_map (fun pm => own_parameters pm.1 pm.2) (named_modules "" model)))
    as [Hnd _].
  set (l := remove_duplicate _ _) in *. clearbody l.
  induction l as [|e l IH]; [by apply elem_of_nil in H1|].
  simpl in Hnd. apply NoDup_cons in Hnd as [Hout Hnd].
  apply elem_of_cons in H1 as [<-|H1], H2 as [E2|H2].
  - by injection E2.
  - exfalso. apply Hout. apply list_elem_of_fmap. by exists (pn2, p).
  - exfalso. apply Hout. subst e. apply list_elem_of_fmap. by exists (pn1, p).
  - by apply IH.
Qed.

Lemma Forall2_lookup_NoDup (d : gmap string parameter) names ps :
  (forall pn1 pn2 p, d !! pn1 = Some p -> d !! pn2 = Some p -> pn1 = pn2) ->
  Forall2 (fun pn p => d !! pn = Some p) names ps ->
  NoDup names -> NoDup ps.
Proof.
  intros Hinj H. induction H as [|pn p names ps Hp H IH]; intros Hnd; [constructor|].
  apply NoDup_cons in Hnd as [Hout Hnd]. constructor; [|by apply IH].
  intros Hin. apply Hout.
  clear IH Hnd Hout. induction H as [|pn' p' names ps Hp' H IH].
  - by apply elem_of_nil in Hin.
  - apply elem_of_cons in Hin as [->|Hin].
    + rewrite (Hinj _ _ _ Hp Hp'). by left.
    + right. by apply IH.
Qed.

Lemma Forall2_lookup_elem (d : gmap string parameter) names ps p :
  Forall2 (fun pn p => d !! pn = Some p) names ps ->
  p ∈ ps <-> exists pn, pn ∈ names /\ d !! pn = Some p.
Proof.
  intros H. induction H as [|pn p' names ps Hp H IH].
  - split; [by intros ?%elem_of_nil|]. by intros (? & ?%elem_of_nil & _).
  - rewrite elem_of_cons, IH. split.
    + intros [->|(pn' & Hin & Hl)]; [exists pn; split; [by left|done]|].
      exists pn'. split; [by right|done].
    + intros (pn' & [->|Hin]%elem_of_cons & Hl); [left; congruence|].
      right. by exists pn'.
Qed.

(** X20: The optimizer that is returned.  Whenever [configure_optimizers]
    returns, for any model (tied tensors and unknown classes included),
    what it hands to [AdamW] is two groups, the first with the given
    weight decay and the second with weight decay 0.0, the learning rate
    and the betas as given, and [fused] set exactly when the device type is
    ["cuda"] and the option exists.  No tensor occurs twice, within a group
    or across the two, and the two groups together hold exactly the
    tensors of the dictionary built from [model.named_parameters()]. *)
Theorem configure_optimizers_groups
    (model : module) (weight_decay learning_rate : spec_float)
    (betas : spec_float * spec_float) (device_type : string)
    (fused_available : bool) (opt : optimizer) :
  configure_optimizers model weight_decay learning_rate betas device_type
                       fused_available = Ok opt ->
  exists decayed not_decayed,
    opt = {| param_groups :=
               [ {| params := decayed; group_weight_decay := weight_decay |};
                 {| params := not_decayed; group_weight_decay := S754_zero false |} ];
             lr := learning_rate; betas := betas;
             fused := String.eqb device_type "cuda" && fused_available |} /\
    NoDup (decayed ++ not_decayed) /\
    (forall p, p ∈ decayed ++ not_decayed <->
               exists pn, param_dict model !! pn = Some p).
Proof.
  unfold configure_optimizers.
  destruct (separate_parameters model) as [decay no_decay].
  destruct (bool_decide_reflect (decay ∩ no_decay = ∅)) as [Hinter|]; [|done].
  destruct (bool_decide_reflect (dom (param_dict model) ∖ (decay ∪ no_decay) = ∅))
    as [Hunion|]; [|done].
  cbn [negb].
  destruct (lookup_params _ (sorted (elements decay))) as [ps1|] eqn:H1; [|done].
  destruct (lookup_params _ (sorted (elements no_decay))) as [ps2|] eqn:H2; [|done].
  cbn. intros [= <-]. exists ps1, ps2. split; [done|].
  apply lookup_params_Forall2 in H1, H2.
  pose proof (Forall2_app H1 H2) as H12.
  split.
  - apply (Forall2_lookup_NoDup _ _ _ (param_dict_injective model) H12).
    apply NoDup_app. split; [apply NoDup_sorted_elements|].
    split; [|apply NoDup_sorted_elements].
    intros x Hx%elem_of_sorted%elem_of_elements Hx'%elem_of_sorted%elem_of_elements.
    assert (Hd : x ∈ decay ∩ no_decay) by by apply elem_of_intersection.
    rewrite Hinter in Hd. by apply elem_of_empty in Hd.
  - intros p. rewrite (Forall2_lookup_elem _ _ _ p H12). split.
    + intros (pn & _ & Hp). by exists pn.
    + intros [pn Hp]. exists pn. split; [|done].
      assert (Hdom : pn ∈ dom (param_dict model)) by (apply elem_of_dom; by exists p).
      assert (Hin : pn ∈ decay ∪ no_decay).
      { destruct (decide (pn ∈ decay ∪ no_decay)) as [|Hout]; [done|].
        assert (Hd : pn ∈ dom (param_dict model) ∖ (decay ∪ no_decay))
          by by apply elem_of_difference.
        rewrite Hunion in Hd. by apply elem_of_empty in Hd. }
      apply elem_of_app. rewrite !elem_of_sorted, !elem_of_elements.
      by apply elem_of_union.
Qed.

Lemma configure_optimizers_groups_witness :
  let model :=
    Module (OtherModule "Net") []
      [("fc", Module Linear [("weight", Some {| param_id := 0 |});
                             ("bias", Some {| param_id := 1 |})] []);
       ("norm", Module LayerNorm [("weight", Some {| param_id := 2 |});
                                  ("bias", None)] [])] in
  exists opt,
    configure_optimizers model (b64_of_Z 0) (b64_of_Z 1) (b64_of_Z 0, b64_of_Z 1)
                         "cuda" true = Ok opt /\
    fused opt = true /\
    map params (param_groups opt) =
      [[{| param_id := 0 |}]; [{| param_id := 1 |}; {| param_id := 2 |}]] /\
    exists decayed not_decayed,
      opt = {| param_groups :=
                 [ {| params := decayed; group_weight_decay := b64_of_Z 0 |};
                   {| params := not_decayed; group_weight_decay := S754_zero false |} ];
               lr := b64_of_Z 1; betas := (b64_of_Z 0, b64_of_Z 1);
               fused := String.eqb "cuda" "cuda" && true |} /\
      NoDup (decayed ++ not_decayed) /\
      (forall p, p ∈ decayed ++ not_decayed <->
                 exists pn, param_dict model !! pn = Some p).
Proof.
  cbv zeta. eexists. split; [vm_compute; reflexivity|].
  split; [reflexivity|]. split; [reflexivity|].
  eapply configure_optimizers_groups. vm_compute. reflexivity.
Defined.

Lemma separate_parameters_names model :
  supported model = true -> NoDup (parameter_ids model) ->
  exists D,
    separate_parameters model = (D ∖ {["lm_head.weight"]}, list_to_set (no_decay_names model)) /\
    D = list_to_set (decay_names model).
Proof.
  intros Hs Hids.
  destruct (separate_parameters_events model) as (D & N & Hsep & HD & HN).
  exists D. rewrite Hsep.
  assert (HN' : N = list_to_set (no_decay_names model)).
  { apply set_eq. intros x. rewrite HN, elem_of_list_to_set.
    unfold no_decay_names. by rewrite elem_of_bucket_names, <- events_table. }
  assert (HD' : D = list_to_set (decay_names model)).
  { apply set_eq. intros x. rewrite HD, elem_of_list_to_set.
    unfold decay_names. by rewrite elem_of_bucket_names, <- events_table. }
  by rewrite HN'.
Qed.

(** X21: An untied head.  The removal of ['lm_head.weight'] from the decay set
    is unconditional, so in a model of supported layers with distinct
    names and no tied tensors whose parameter called ["lm_head.weight"] is
    the weight of a whitelisted layer, that parameter ends in neither set
    and [configure_optimizers] fails with [AssertionError]. *)
Theorem configure_optimizers_untied_lm_head
    (model : module) (weight_decay learning_rate : spec_float)
    (betas : spec_float * spec_float) (device_type : string) (fused_available : bool) :
  supported model = true ->
  NoDup (parameter_names model) ->
  NoDup (parameter_ids model) ->
  "lm_head.weight" ∈ decay_names model ->
  configure_optimizers model weight_decay learning_rate betas device_type
                       fused_available = Raise AssertionError.
Proof.
  intros Hs Hnames Hids Hlm.
  destruct (separate_parameters_names model Hs Hids) as (D & Hsep & _).
  unfold configure_optimizers. rewrite Hsep.
  destruct (bool_decide_reflect
              (D ∖ {["lm_head.weight"]} ∩ list_to_set (no_decay_names model) = ∅))
    as [Hinter|]; [|done].
  destruct (bool_decide_reflect
              (dom (param_dict model) ∖
                 (D ∖ {["lm_head.weight"]} ∪ list_to_set (no_decay_names model)) = ∅))
    as [Hunion|]; [|done].
  exfalso.
  apply elem_of_bucket_names in Hlm as (e & He & Hdec & Hname).
  assert (Hdom : "lm_head.weight" ∈ dom (param_dict model)).
  { rewrite dom_param_dict by done. apply elem_of_list_to_set.
    apply list_elem_of_fmap. by exists e. }
  assert (Hno : "lm_head.weight" ∉ no_decay_names model).
  { intros (e' & He' & Hdec' & Hname')%elem_of_bucket_names.
    assert (e.2 = e'.2) as Heq.
    { apply (NoDup_fst_unique (parameter_table "" model) "lm_head.weight");
        [done| |].
      - rewrite <- Hname. by destruct e.
      - rewrite <- Hname'. by destruct e'. }
    congruence. }
  set_solver.
Qed.

Lemma configure_optimizers_untied_lm_head_witness :
  let model :=
    Module (OtherModule "GPT") []
      [("wte", Module Embedding [("weight", Some {| param_id := 0 |})] []);
       ("lm_head", Module Linear [("weight", Some {| param_id := 1 |})] [])] in
  supported model = true /\
  NoDup (parameter_names model) /\
  NoDup (parameter_ids model) /\
  "lm_head.weight" ∈ decay_names model /\
  configure_optimizers model (b64_of_Z 0) (b64_of_Z 1) (b64_of_Z 0, b64_of_Z 1)
                       "cpu" false = Raise AssertionError.
Proof.
  cbv zeta.
  assert (H1 : NoDup (parameter_names
    (Module (OtherModule "GPT") []
      [("wte", Module Embedding [("weight", Some {| param_id := 0 |})] []);
       ("lm_head", Module Linear [("weight", Some {| param_id := 1 |})] [])]))).
  { apply (bool_decide_unpack _). vm_compute. reflexivity. }
  assert (H2 : NoDup (parameter_ids
    (Module (OtherModule "GPT") []
      [("wte", Module Embedding [("weight", Some {| param_id := 0 |})] []);
       ("lm_head", Module Linear [("weight", Some {| param_id := 1 |})] [])]))).
  { apply (bool_decide_unpack _). vm_compute. reflexivity. }
  assert (H3 : "lm_head.weight" ∈ decay_names
    (Module (OtherModule "GPT") []
      [("wte", Module Embedding [("weight", Some {| param_id := 0 |})] []);
       ("lm_head", Module Linear [("weight", Some {| param_id := 1 |})] [])])).
  { apply (bool_decide_unpack _). vm_compute. reflexivity. }
  split; [reflexivity|]. split; [exact H1|]. split; [exact H2|]. split; [exact H3|].
  apply configure_optimizers_untied_lm_head; [reflexivity|exact H1|exact H2|exact H3].
Defined.

(** ** [concat_output_value] and [concat_output] *)

(** *** [np.concatenate] *)

Lemma np_concatenate_raise arrays e : np_concatenate arrays = Raise e -> e = ValueError.
Proof.
  unfold np_concatenate. destruct arrays as [|a0 rest]; [by intros [= <-]|].
  destruct (np_shape a0); [by intros [= <-]|].
  destruct (forallb _ _); [done|by intros [= <-]].
Qed.

Lemma np_concatenate_ok arrays v :
  np_concatenate arrays = Ok v ->
  exists t,
    arrays <> [] /\
    Forall (fun a => exists n, np_shape a = n :: t) arrays /\
    v = {| np_shape := fold_right Nat.add 0 (map batch_size arrays) :: t;
           np_data :=
             concat_data
               (fold_right promote_types (buf_dtype (np_data (hd v arrays)))
                  (map (fun a => buf_dtype (np_data a)) arrays))
               (map np_data arrays) |}.
Proof.
  unfold np_concatenate. destruct arrays as [|a0 rest]; [done|].
  destruct (np_shape a0) as [|n0 t] eqn:Hs; [done|].
  destruct (forallb _ (a0 :: rest)) eqn:Hall; [|done].
  intros [= <-]. exists t. split; [done|]. split; [|done].
  apply Forall_forall. intros a Ha.
  rewrite forallb_forall in Hall. apply list_elem_of_In, Hall in Ha.
  destruct (np_shape a) as [|n t']; [done|].
  apply bool_decide_eq_true in Ha as ->. by exists n.
Qed.

Lemma np_concatenate_single a :
  np_shape a <> [] -> np_concatenate [a] = Ok a.
Proof.
  intros Hs. unfold np_concatenate. destruct a as [[|n t] b]; [done|]. simpl.
  rewrite bool_decide_eq_true_2 by done. simpl. f_equal.
  rewrite Nat.add_0_r. f_equal.
  destruct b; simpl; by rewrite ?app_nil_r.
Qed.

Lemma promote_types_fold_ge d0 (l : list dtype) x :
  x ∈ l -> promote_types x (fold_right promote_types d0 l) = fold_right promote_types d0 l.
Proof.
  induction l as [|y l IH]; [by intros ?%elem_of_nil|].
  simpl. intros [->|Hx%IH]%elem_of_cons.
  - by destruct y, (fold_right promote_types d0 l).
  - destruct x, y, (fold_right promote_types d0 l); simpl in *; congruence.
Qed.

Lemma length_cast d b :
  promote_types (buf_dtype b) d = d ->
  buf_length (concat_data d [b]) = buf_length b.
Proof.
  destruct d, b; simpl; intros H; try discriminate H;
    unfold buf_float32s; simpl; by rewrite app_nil_r, ?length_map.
Qed.

Lemma buf_length_concat_data d bufs :
  Forall (fun b => promote_types (buf_dtype b) d = d) bufs ->
  buf_length (concat_data d bufs) = fold_right Nat.add 0 (map buf_length bufs).
Proof.
  induction 1 as [|b bufs Hb _ IH]; [by destruct d|].
  apply length_cast in Hb.
  destruct d; cbn [concat_data buf_length flat_map map fold_right] in *;
    rewrite app_nil_r in Hb; by rewrite length_app, Hb, IH.
Qed.

Lemma wf_np_concatenate arrays v :
  np_concatenate arrays = Ok v -> Forall wf_ndarray arrays -> wf_ndarray v.
Proof.
  intros (t & Hne & Hshape & ->)%np_concatenate_ok Hwf.
  unfold wf_ndarray. cbn [np_data np_shape].
  set (d := fold_right promote_types _ _).
  rewrite buf_length_concat_data.
  - change (prod_shape (?n :: t)) with (n * prod_shape t).
    clear d Hne. induction Hwf as [|a arrays Ha _ IH]; [done|].
    apply Forall_cons in Hshape as [[n Hn] Hshape].
    cbn [map fold_right]. rewrite IH by done.
    unfold wf_ndarray in Ha. unfold batch_size. rewrite Ha, Hn.
    change (prod_shape (n :: t)) with (n * prod_shape t). cbn [hd]. lia.
  - apply Forall_map, Forall_forall. intros a Ha. simpl.
    apply promote_types_fold_ge, list_elem_of_fmap. by exists a.
Qed.

(** *** The loop *)

Definition allowed (e : py_exn) : Prop :=
  e = AttributeError \/ e = Builtin IndexError \/ e = Builtin ValueError.

Lemma getattr_throw {A} (a : option A) e : getattr a = Throw e -> allowed e.
Proof. destruct a; [done|]. intros [= <-]. by left. Qed.

Lemma tuple_getitem_throw {A} (t : list A) i e : tuple_getitem t i = Throw e -> allowed e.
Proof.
  unfold tuple_getitem. destruct (t !! i); [done|]. intros [= <-]. right. by left.
Qed.

Lemma lift_squeeze0_throw a e : lift (squeeze0 a) = Throw e -> allowed e.
Proof.
  unfold squeeze0. destruct (np_shape a) as [|[|[|n]] s]; simpl; try done;
    intros [= <-]; right; by right.
Qed.

Lemma lift_np_concatenate_throw arrays e :
  lift (np_concatenate arrays) = Throw e -> e = Builtin ValueError.
Proof.
  destruct (np_concatenate arrays) as [|e'] eqn:H; [done|].
  apply np_concatenate_raise in H as ->. by intros [= <-].
Qed.

Lemma bind_throw {A B} (x : outcome A) (k : A -> outcome B) e :
  x ≫= k = Throw e -> x = Throw e \/ exists a, x = Return a /\ k a = Throw e.
Proof.
  destruct x as [a|e']; unfold mbind, outcome_bind; intros H; simpl in H;
    [right; by exists a|left; by injection H as ->].
Qed.

Lemma bind_return {A B} (x : outcome A) (k : A -> outcome B) b :
  x ≫= k = Return b -> exists a, x = Return a /\ k a = Return b.
Proof.
  destruct x as [a|e']; unfold mbind, outcome_bind; intros H; simpl in H; [by exists a|done].
Qed.

Lemma concat_output_step_throw data_type st output e :
  concat_output_step data_type st output = Throw e -> allowed e.
Proof.
  unfold concat_output_step. intros H.
  apply bind_throw in H as [H|(v & _ & H)]; [by eapply getattr_throw|].
  apply bind_throw in H as [H|(rewards & _ & H)].
  { destruct (String.eqb data_type "muzero").
    - apply bind_throw in H as [H|(? & _ & H)]; [by eapply getattr_throw|done].
    - destruct (String.eqb data_type "efficientzero"); [|done].
      apply bind_throw in H as [H|(? & _ & H)]; [by eapply getattr_throw|done]. }
  apply bind_throw in H as [H|(p & _ & H)]; [by eapply getattr_throw|].
  apply bind_throw in H as [H|(s & _ & H)]; [by eapply getattr_throw|].
  apply bind_throw in H as [H|(hidden & _ & H)]; [|done].
  destruct (String.eqb data_type "efficientzero"); [|done].
  apply bind_throw in H as [H|(hs & _ & H)]; [by eapply getattr_throw|].
  apply bind_throw in H as [H|(c & _ & H)]; [by eapply tuple_getitem_throw|].
  apply bind_throw in H as [H|(c' & _ & H)]; [by eapply lift_squeeze0_throw|].
  apply bind_throw in H as [H|(hs' & _ & H)]; [by eapply getattr_throw|].
  apply bind_throw in H as [H|(h & _ & H)]; [by eapply tuple_getitem_throw|].
  apply bind_throw in H as [H|(h' & _ & H)]; [by eapply lift_squeeze0_throw|].
  done.
Qed.

Lemma concat_output_step_value data_type st output st' :
  concat_output_step data_type st output = Return st' ->
  exists v, value output = Some v /\ value_lst st' = value_lst st ++ [v].
Proof.
  unfold concat_output_step. intros H.
  apply bind_return in H as (v & Hv & H).
  exists v. split; [by destruct (value output) as [v'|]; [injection Hv as ->|]|].
  do 4 apply bind_return in H as (? & _ & H).
  by injection H as <-.
Qed.

Lemma concat_output_loop_throw data_type output_lst st e :
  concat_output_loop data_type output_lst st = Throw e -> allowed e.
Proof.
  revert st. induction output_lst as [|output output_lst IH]; intros st; simpl; [done|].
  destruct (concat_output_step data_type st output) as [st'|e'] eqn:Hstep; cbn.
  - apply IH.
  - intros [= <-]. by eapply concat_output_step_throw.
Qed.

Lemma concat_output_loop_value data_type output_lst st st' :
  concat_output_loop data_type output_lst st = Return st' ->
  exists vs, mapM (fun output => getattr (value output)) output_lst = Return vs /\
             value_lst st' = value_lst st ++ vs.
Proof.
  revert st. induction output_lst as [|output output_lst IH]; intros st; simpl.
  - intros [= <-]. exists []. by rewrite app_nil_r.
  - destruct (concat_output_step data_type st output) as [st1|] eqn:Hstep; cbn; [|done].
    apply concat_output_step_value in Hstep as (v & Hv & Hst1).
    intros (vs & Hvs & Hst')%IH. exists (v :: vs).
    rewrite Hv, Hvs. cbn. split; [done|].
    by rewrite Hst', Hst1, <- app_assoc.
Qed.

Lemma mapM_getattr_value output_lst vs :
  mapM (fun output => getattr (value output)) output_lst = Return vs ->
  Forall2 (fun output a => value output = Some a) output_lst vs.
Proof.
  revert vs. induction output_lst as [|output output_lst IH]; intros vs; simpl.
  - intros [= <-]. constructor.
  - intros (v & Hv & H)%bind_return. apply bind_return in H as (vs' & Hvs & H).
    injection H as <-. constructor; [|by apply IH].
    by destruct (value output) as [v'|]; [injection Hv as ->|].
Qed.

Lemma concat_output_value_inv output_lst v :
  concat_output_value output_lst = Return v ->
  exists vs, Forall2 (fun output a => value output = Some a) output_lst vs /\
             np_concatenate vs = Ok v.
Proof.
  unfold concat_output_value. intros (vs & Hvs & H)%bind_return.
  exists vs. split; [by apply mapM_getattr_value|].
  destruct (np_concatenate vs); [by injection H as ->|done].
Qed.

Lemma allowed_not_assertion e : allowed e -> e <> Builtin AssertionError.
Proof. intros [H|[H|H]]; by rewrite H. Qed.

(** X22: The exceptions of [concat_output].  The check of [data_type] comes
    first: [AssertionError] is raised exactly when [data_type] is neither
    ['muzero'] nor ['efficientzero'], whatever the list holds.  Every other
    failure is an [AttributeError] (a missing attribute), an [IndexError]
    (a hidden state that is not a pair) or a [ValueError] (of [squeeze] or
    [np.concatenate]).  A call that returns gives four arrays for
    ['muzero'] and four arrays and a pair for ['efficientzero']; it never
    falls through to [None]. *)
Theorem concat_output_exceptions (output_lst : list network_output) (data_type : string) :
  (concat_output output_lst data_type = Throw (Builtin AssertionError)
   <-> data_type <> "muzero" /\ data_type <> "efficientzero") /\
  (forall e, concat_output output_lst data_type = Throw e ->
     e = Builtin AssertionError \/ e = AttributeError \/
     e = Builtin IndexError \/ e = Builtin ValueError) /\
  (forall r, concat_output output_lst data_type = Return r ->
     match r with
     | Tuple4 _ _ _ _ => data_type = "muzero"
     | Tuple5 _ _ _ _ _ => data_type = "efficientzero"
     | PyNone => False
     end).
Proof.
  assert (Hvalid : String.eqb data_type "muzero" || String.eqb data_type "efficientzero" = true ->
    forall e, concat_output output_lst data_type = Throw e -> allowed e).
  { intros Hv e. unfold concat_output. rewrite Hv. cbn [negb]. intros H.
    apply bind_throw in H as [H|(st & _ & H)]; [by eapply concat_output_loop_throw|].
    apply bind_throw in H as [H|(v & _ & H)];
      [right; right; by eapply lift_np_concatenate_throw|].
    apply bind_throw in H as [H|(r & _ & H)];
      [right; right; by eapply lift_np_concatenate_throw|].
    apply bind_throw in H as [H|(p & _ & H)];
      [right; right; by eapply lift_np_concatenate_throw|].
    apply bind_throw in H as [H|(s & _ & H)];
      [right; right; by eapply lift_np_concatenate_throw|].
    destruct (String.eqb data_type "muzero"); [done|].
    destruct (String.eqb data_type "efficientzero"); [|done].
    apply bind_throw in H as [H|(c & _ & H)];
      [right; right; by eapply lift_np_concatenate_throw|].
    apply bind_throw in H as [H|(h & _ & H)];
      [right; right; by eapply lift_np_concatenate_throw|].
    done. }
  destruct (String.eqb_spec data_type "muzero") as [Hm|Hm];
    [|destruct (String.eqb_spec data_type "efficientzero") as [He|He]].
  - subst data_type. specialize (Hvalid eq_refl). split; [|split].
    + split; [|by intros [? _]].
      intros H. by apply Hvalid, allowed_not_assertion in H.
    + intros e He. right. by apply Hvalid.
    + intros r. unfold concat_output.
      change (String.eqb "muzero" "muzero") with true. cbn [orb negb].
      intros H. do 5 apply bind_return in H as (? & _ & H). by injection H as <-.
  - subst data_type. specialize (Hvalid eq_refl). split; [|split].
    + split; [|by intros [_ ?]].
      intros H. by apply Hvalid, allowed_not_assertion in H.
    + intros e He'. right. by apply Hvalid.
    + intros r. unfold concat_output.
      change (String.eqb "efficientzero" "muzero") with false.
      change (String.eqb "efficientzero" "efficientzero") with true. cbn [orb negb].
      intros H. do 7 apply bind_return in H as (? & _ & H). by injection H as <-.
  - assert (Hthrow : concat_output output_lst data_type = Throw (Builtin AssertionError)).
    { unfold concat_output.
      destruct (String.eqb_spec data_type "muzero"); [done|].
      by destruct (String.eqb_spec data_type "efficientzero"). }
    rewrite Hthrow. split; [done|]. split; [|done].
    intros e [= <-]. by left.
Qed.

(** X23: [concat_output_value] is the first component of [concat_output]:
    whenever [concat_output] returns, in either mode, [concat_output_value]
    returns on the same list, and its array is the first one of the
    tuple. *)
Theorem concat_output_value_component
    (output_lst : list network_output) (data_type : string) (r : concat_result) :
  concat_output output_lst data_type = Return r ->
  exists v, concat_output_value output_lst = Return v /\ result_value r = Some v.
Proof.
  unfold concat_output.
  destruct (String.eqb data_type "muzero") eqn:Hm;
    [|destruct (String.eqb data_type "efficientzero") eqn:He; [|done]];
    cbn [orb negb]; intros (st & Hloop & H)%bind_return;
    apply concat_output_loop_value in Hloop as (vs & Hvs & Hst); simpl in Hst;
    apply bind_return in H as (v & Hv & H); exists v;
    (split; [unfold concat_output_value; rewrite Hvs; cbn; by rewrite <- Hst|]);
    do 3 apply bind_return in H as (? & _ & H).
  - by injection H as <-.
  - do 2 apply bind_return in H as (? & _ & H). by injection H as <-.
Qed.


Lemma concat_output_value_component_witness :
  let o1 := {| value := Some {| np_shape := [1; 2]; np_data := Float32Buf [f32_of_Z 1; f32_of_Z 2] |};
               reward := Some {| np_shape := [1; 1]; np_data := Float32Buf [f32_of_Z 0] |};
               value_prefix := None;
               policy_logits := Some {| np_shape := [1; 1]; np_data := Float32Buf [f32_of_Z 5] |};
               latent_state := Some {| np_shape := [1; 1]; np_data := Float32Buf [f32_of_Z 7] |};
               reward_hidden_state := None |} in
  exists r,
    concat_output [o1; o1] "muzero" = Return r /\
    exists v, concat_output_value [o1; o1] = Return v /\ result_value r = Some v.
Proof.
  cbv zeta. eexists. split; [vm_compute; reflexivity|].
  eapply (concat_output_value_component _ "muzero"). vm_compute. reflexivity.
Defined.

(** X24: A list of one output.  Concatenating a single output returns its
    arrays as they are, for arrays of one dimension at least; in
    ['efficientzero'] mode the two hidden states, of shape (1, batch, ...),
    come back unchanged as well, [squeeze(0)] being undone by
    [expand_dims]. *)
Theorem concat_output_single_output
    (output : network_output) (v r p s c h : ndarray) (more : list ndarray) :
  value output = Some v ->
  policy_logits output = Some p ->
  latent_state output = Some s ->
  Forall (fun a => np_shape a <> []) [v; r; p; s] ->
  (reward output = Some r ->
   concat_output [output] "muzero" = Return (Tuple4 v r p s)) /\
  (value_prefix output = Some r ->
   reward_hidden_state output = Some (c :: h :: more) ->
   (exists n t, np_shape c = 1 :: n :: t) ->
   (exists n t, np_shape h = 1 :: n :: t) ->
   concat_output [output] "efficientzero" = Return (Tuple5 v r p s (c, h))).
Proof.
  intros Hv Hp Hs Hshape.
  apply Forall_cons in Hshape as [Sv Hshape]. apply Forall_cons in Hshape as [Sr Hshape].
  apply Forall_cons in Hshape as [Sp Hshape]. apply Forall_cons in Hshape as [Ss _].
  split.
  - intros Hr. unfold concat_output, concat_output_loop, concat_output_step.
    change (String.eqb "muzero" "muzero") with true.
    change (String.eqb "muzero" "efficientzero") with false.
    rewrite Hv, Hr, Hp, Hs. cbn -[np_concatenate].
    by rewrite !np_concatenate_single.
  - intros Hr Hhs (nc & tc & Hc) (nh & th & Hh).
    unfold concat_output, concat_output_loop, concat_output_step.
    change (String.eqb "efficientzero" "muzero") with false.
    change (String.eqb "efficientzero" "efficientzero") with true.
    rewrite Hv, Hr, Hp, Hs, Hhs. cbn -[np_concatenate squeeze0].
    unfold squeeze0. rewrite Hc, Hh. cbn -[np_concatenate].
    rewrite !np_concatenate_single by done. cbn -[np_concatenate].
    unfold expand_dims0. cbn [np_shape np_data]. rewrite <- Hc, <- Hh. by destruct c, h.
Qed.

Lemma concat_output_single_output_witness :
  let a := {| np_shape := [1; 2]; np_data := Float32Buf [f32_of_Z 1; f32_of_Z 2] |} in
  let hc := {| np_shape := [1; 1; 2]; np_data := Float32Buf [f32_of_Z 3; f32_of_Z 4] |} in
  let output := {| value := Some a; reward := None; value_prefix := Some a;
                   policy_logits := Some a; latent_state := Some a;
                   reward_hidden_state := Some [hc; hc] |} in
  (reward output = Some a ->
   concat_output [output] "muzero" = Return (Tuple4 a a a a)) /\
  concat_output [output] "efficientzero" = Return (Tuple5 a a a a (hc, hc)).
Proof.
  cbv zeta.
  set (a := {| np_shape := [1; 2]; np_data := Float32Buf [f32_of_Z 1; f32_of_Z 2] |}).
  set (hc := {| np_shape := [1; 1; 2]; np_data := Float32Buf [f32_of_Z 3; f32_of_Z 4] |}).
  assert (Hshape : Forall (fun x => np_shape x <> []) [a; a; a; a])
    by (repeat constructor; discriminate).
  destruct (concat_output_single_output
              {| value := Some a; reward := None; value_prefix := Some a;
                 policy_logits := Some a; latent_state := Some a;
                 reward_hidden_state := Some [hc; hc] |}
              a a a a hc hc [] eq_refl eq_refl eq_refl Hshape) as [H1 H2].
  split; [exact H1|].
  apply H2; [reflexivity|reflexivity|by exists 1, [2]|by exists 1, [2]].
Defined.

Lemma promote_types_fold_same d (l : list dtype) :
  Forall (fun x => x = d) l -> fold_right promote_types d l = d.
Proof. induction 1 as [|x l -> _ IH]; simpl; [done|]. rewrite IH. by destruct d. Qed.

Lemma flat_map_fmap {X Y Z} (f : Y -> list Z) (g : X -> Y) l :
  flat_map f (map g l) = flat_map (fun x => f (g x)) l.
Proof. induction l as [|x l IH]; simpl; [done|]. by rewrite IH. Qed.

(** X25: The batch that [concat_output_value] returns.  When it returns, every
    output has a value of one dimension at least, all with the same sizes
    beyond the first axis; the result keeps those sizes and its first axis
    is the sum of the first axes.  It is a well-formed array when the
    values are, and when the values are float32 arrays it is a float32
    array that holds their elements unchanged, one array after the
    other. *)
Theorem concat_output_value_batch (output_lst : list network_output) (v : ndarray) :
  concat_output_value output_lst = Return v ->
  exists vs t,
    Forall2 (fun output a => value output = Some a) output_lst vs /\
    Forall (fun a => np_shape a = batch_size a :: t) vs /\
    np_shape v = fold_right Nat.add 0 (map batch_size vs) :: t /\
    (Forall wf_ndarray vs -> wf_ndarray v) /\
    (Forall is_float32 vs ->
     np_data v = Float32Buf (flat_map (fun a => buf_float32s (np_data a)) vs)).
Proof.
  intros (vs & Hvs & Hcat)%concat_output_value_inv.
  pose proof (wf_np_concatenate _ _ Hcat) as Hwf.
  destruct (np_concatenate_ok _ _ Hcat) as (t & Hne & Hshape & Hv).
  exists vs, t. split; [done|]. split; [|split; [|split; [done|]]].
  - eapply Forall_impl; [exact Hshape|]. intros a [n Hn]. simpl.
    unfold batch_size. by rewrite Hn.
  - by rewrite Hv.
  - intros Hf. rewrite Hv at 1. cbn [np_data].
    assert (Hd : Forall (fun x => x = float32) (map (fun a => buf_dtype (np_data a)) vs)).
    { apply Forall_map. eapply Forall_impl; [exact Hf|].
      intros a [l Hl]. simpl. by rewrite Hl. }
    assert (Hhd : buf_dtype (np_data (hd v vs)) = float32).
    { destruct vs as [|a vs']; [done|]. by inversion Hd. }
    rewrite Hhd, promote_types_fold_same by done.
    cbn [concat_data]. by rewrite flat_map_fmap.
Qed.

Lemma concat_output_value_batch_witness :
  let a n := {| np_shape := [n; 2]; np_data := Float32Buf (replicate (n * 2) (f32_of_Z 1)) |} in
  let o n := {| value := Some (a n); reward := None; value_prefix := None;
                policy_logits := None; latent_state := None;
                reward_hidden_state := None |} in
  exists v,
    concat_output_value [o 1; o 3] = Return v /\
    np_shape v = [4; 2] /\
    exists vs t,
      Forall2 (fun output a => value output = Some a) [o 1; o 3] vs /\
      Forall (fun a => np_shape a = batch_size a :: t) vs /\
      np_shape v = fold_right Nat.add 0 (map batch_size vs) :: t /\
      (Forall wf_ndarray vs -> wf_ndarray v) /\
      (Forall is_float32 vs ->
       np_data v = Float32Buf (flat_map (fun a => buf_float32s (np_data a)) vs)).
Proof.
  cbv zeta. eexists. split; [vm_compute; reflexivity|]. split; [reflexivity|].
  apply concat_output_value_batch. vm_compute. reflexivity.
Defined.

(** ** The class [LayerNorm] *)

Section LayerNormFacts.
Context {F : Type} {A : Arith F}.

Lemma length_layer_norm_row (w : list F) b eps x :
  length w = length x -> (forall bl, b = Some bl -> length bl = length x) ->
  length (layer_norm_row w b eps x) = length x.
Proof.
  intros Hw Hb. unfold layer_norm_row. cbv zeta.
  destruct b as [bl|].
  - rewrite !length_zip_with, !length_map, Hw, (Hb bl eq_refl). lia.
  - rewrite !length_zip_with, !length_map, Hw. lia.
Qed.

End LayerNormFacts.

(** X26: The shapes of [LayerNorm].  A module built by [LayerNorm(ndim, bias)],
    with or without bias and in any arithmetic, accepts exactly the inputs
    whose last axis has size [ndim]: on those it returns a batch of the
    same shape, well formed when the input is, and on all others it fails
    with the [RuntimeError] of [F.layer_norm]. *)
Theorem LayerNorm_forward_shape {F : Type} (A : Arith F)
    (ndim : nat) (with_bias : bool) (input : tensor2 F) :
  (ncols input = ndim ->
   exists out, LayerNorm_forward (LayerNorm_init ndim with_bias) input = Ok out /\
               nrows out = nrows input /\ ncols out = ncols input /\
               (wf_tensor2 input -> wf_tensor2 out)) /\
  (ncols input <> ndim ->
   LayerNorm_forward (LayerNorm_init ndim with_bias) input = Raise RuntimeError).
Proof.
  unfold LayerNorm_forward, layer_norm. cbn [weight bias LayerNorm_init].
  rewrite length_replicate. split.
  - intros <-. rewrite Nat.eqb_refl. eexists. split; [done|]. cbn.
    split; [done|]. split; [done|]. intros [Hr Hc]. split; cbn.
    + by rewrite length_map.
    + apply Forall_map. eapply Forall_impl; [exact Hc|]. intros x Hx. simpl.
      rewrite length_layer_norm_row; [done|by rewrite length_replicate|].
      intros bl. destruct with_bias; [|done]. intros [= <-].
      by rewrite length_replicate.
  - intros Hne. by destruct (Nat.eqb_spec (ncols input) ndim).
Qed.

Section LayerNormExact.
Local Open Scope R_scope.
Existing Instance exact_real.

Lemma mean_R l : mean (A := exact_real) l = Rsum l / INR (length l).
Proof. unfold mean. rewrite torch_sum_R. simpl. by rewrite <- INR_IZR_INZ. Qed.

Lemma Rsum_shift c l : Rsum (map (fun v => v + c) l) = Rsum l + INR (length l) * c.
Proof.
  induction l as [|x l IH]; [simpl; lra|].
  cbn [map length]. rewrite S_INR. unfold Rsum in *. simpl. rewrite IH. lra.
Qed.

Lemma Rsum_scale k l : Rsum (map (fun v => v * k) l) = Rsum l * k.
Proof. induction l as [|x l IH]; simpl; [lra|]. rewrite IH. lra. Qed.

Lemma Rsum_affine a k l :
  Rsum (map (fun v => (v + a) * k) l) = (Rsum l + INR (length l) * a) * k.
Proof.
  induction l as [|x l IH]; [simpl; lra|].
  cbn [map length]. rewrite S_INR. unfold Rsum in *. simpl. rewrite IH. lra.
Qed.

Lemma mean_shift c l : l <> [] -> mean (map (fun v => v + c) l) = mean l + c.
Proof.
  intros Hl. rewrite !mean_R, Rsum_shift, length_map.
  assert (0 < INR (length l)) by (destruct l; [done|]; apply lt_0_INR; simpl; lia).
  field. lra.
Qed.

Lemma centred_shift c l :
  map (fun v => v + - mean (map (fun v => v + c) l)) (map (fun v => v + c) l) =
  map (fun v => v + - mean l) l.
Proof.
  destruct l as [|x l]; [done|].
  rewrite mean_shift by done. rewrite map_map. apply List.map_ext. intros v. lra.
Qed.

Lemma layer_norm_row_shift w b eps c x :
  layer_norm_row (A := exact_real) w b eps (map (fun v => v + c) x) =
  layer_norm_row (A := exact_real) w b eps x.
Proof.
  unfold layer_norm_row. cbv zeta. cbn [fadd fneg exact_real].
  by rewrite centred_shift.
Qed.

(** X27: Normalisation forgets a common shift: adding one constant to every
    element of the input does not change the output, for any weight and
    bias. *)
Theorem LayerNorm_forward_shift_invariant
    (self : LayerNorm_module R) (c : R) (input : tensor2 R) :
  LayerNorm_forward self (shifted c input) = LayerNorm_forward self input.
Proof.
  unfold LayerNorm_forward, layer_norm, shifted. cbn [nrows ncols rows].
  destruct (ncols input =? length (weight self)); [|done].
  f_equal. f_equal. rewrite map_map. apply List.map_ext. intros x.
  apply layer_norm_row_shift.
Qed.

Lemma zip_with_mul_ones (l : list R) n :
  (length l <= n)%nat -> zip_with Rmult l (replicate n 1) = l.
Proof.
  revert n. induction l as [|x l IH]; intros [|n] Hn; simpl in *; try done; [lia|].
  rewrite IH by lia. f_equal. lra.
Qed.

Lemma zip_with_add_zeros (l : list R) n :
  (length l <= n)%nat -> zip_with Rplus l (replicate n 0) = l.
Proof.
  revert n. induction l as [|x l IH]; intros [|n] Hn; simpl in *; try done; [lia|].
  rewrite IH by lia. f_equal. lra.
Qed.

(** The vector [F.layer_norm] returns for weights one and no shift. *)
Lemma layer_norm_row_init ndim (with_bias : bool) x :
  length x = ndim ->
  layer_norm_row (A := exact_real) (replicate ndim 1)
    (if with_bias then Some (replicate ndim 0) else None) (1 / 100000) x =
  map (fun v => (v + - mean x) *
                (1 / sqrt (mean (map (fun v => v * v)
                                     (map (fun v => v + - mean x) x)) + 1 / 100000))) x.
Proof.
  intros Hlen. unfold layer_norm_row. cbv zeta.
  cbn [fadd fneg fmul fdiv fsqrt of_int exact_real].
  set (y := map _ (map _ x)).
  assert (Hy : length y = ndim) by (unfold y; by rewrite !length_map).
  assert (Hscaled : zip_with Rmult y (replicate ndim 1) = y)
    by (apply zip_with_mul_ones; lia).
  destruct with_bias.
  - rewrite Hscaled, zip_with_add_zeros by lia. unfold y. by rewrite map_map.
  - rewrite Hscaled. unfold y. by rewrite map_map.
Qed.

(** X28: A fresh module.  Right after [LayerNorm(ndim, bias)], in exact
    arithmetic: the module with bias and the module without compute the
    same function, and every row of the output has mean zero (its elements
    sum to zero), for rows of [ndim] > 0 elements. *)
Theorem LayerNorm_init_centred (ndim : nat) (with_bias : bool) (input : tensor2 R) :
  wf_tensor2 input -> ncols input = ndim -> (0 < ndim)%nat ->
  LayerNorm_forward (LayerNorm_init ndim with_bias) input =
    LayerNorm_forward (LayerNorm_init ndim (negb with_bias)) input /\
  exists out,
    LayerNorm_forward (LayerNorm_init ndim with_bias) input = Ok out /\
    Forall (fun y => Rsum y = 0) (rows out).
Proof.
  intros [_ Hc] Hn Hpos.
  assert (Hrows : forall wb : bool,
    map (layer_norm_row (A := exact_real) (replicate ndim 1)
           (if wb then Some (replicate ndim 0) else None) (1 / 100000)) (rows input) =
    map (fun x => map (fun v => (v + - mean x) *
                (1 / sqrt (mean (map (fun v => v * v)
                                     (map (fun v => v + - mean x) x)) + 1 / 100000))) x)
        (rows input)).
  { intros wb. induction Hc as [|x xs Hx _ IH]; [done|].
    cbn [map]. rewrite IH. f_equal. apply layer_norm_row_init. by rewrite Hx. }
  unfold LayerNorm_forward, layer_norm. cbn [weight bias LayerNorm_init].
  rewrite !length_replicate, Hn, Nat.eqb_refl.
  change (of_int (Arith := exact_real) 1) with 1.
  change (of_int (Arith := exact_real) 0) with 0.
  change (of_ratio (Arith := exact_real) 1 100000) with (1 / 100000).
  rewrite !Hrows. split; [done|].
  eexists. split; [done|]. cbn [rows].
  apply Forall_map. eapply Forall_impl; [exact Hc|]. intros x Hx. cbv beta in *.
  set (k := 1 / sqrt _).
  rewrite Rsum_affine, mean_R.
  assert (0 < INR (length x)) by (apply lt_0_INR; lia).
  replace (Rsum x + INR (length x) * - (Rsum x / INR (length x))) with 0
    by (field; lra).
  lra.
Qed.

Lemma LayerNorm_init_centred_witness :
  let input := {| nrows := 2; ncols := 3; rows := [[1; 2; 3]; [0; 0; 5]] |} in
  wf_tensor2 input /\ ncols input = 3%nat /\ (0 < 3)%nat /\
  LayerNorm_forward (LayerNorm_init 3 true) input =
    LayerNorm_forward (LayerNorm_init 3 false) input /\
  exists out,
    LayerNorm_forward (LayerNorm_init 3 true) input = Ok out /\
    Forall (fun y => Rsum y = 0) (rows out).
Proof.
  cbv zeta.
  assert (Hwf : wf_tensor2 {| nrows := 2; ncols := 3; rows := [[1; 2; 3]; [0; 0; 5]] |})
    by (split; [reflexivity|repeat constructor]).
  split; [exact Hwf|]. split; [reflexivity|]. split; [lia|].
  apply (LayerNorm_init_centred 3 true _ Hwf); [reflexivity|lia].
Defined.

End LayerNormExact.
